(** * nucypher: policy enactment and external-address detection

    A shallow embedding of [nucypher/policy/policies.py] and
    [nucypher/utilities/networking.py], with the properties that the
    design document states about them.

    Python values are embedded as follows.
    - [int] is [Z] (unbounded on both sides).
    - [bytes] is [list byte]; [str] is [string].
    - [None]-able values are [option].
    - A [dict] is an association list in insertion order, with Python's
      update-in-place behaviour on an existing key.
    - A call that may raise returns an [Outcome]; code that also writes to
      a logger or talks to the network threads that state explicitly.
    - Collaborators that live outside the two source files (the REST
      middleware, umbral keys, maya timestamps, the worker pool, the
      teacher directory, [requests]) are arguments, records of functions
      or type classes, exactly as the source receives them. *)

From Stdlib Require Import ZArith List String Ascii Bool Lia DecimalString.
From Stdlib.Strings Require Import Byte.
Import ListNotations.
Open Scope Z_scope.

Set Implicit Arguments.

(** ** Python base layer *)

Module Py.

Definition bytes := list byte.

Infix "+++" := String.append (right associativity, at level 60).

(** [str(i)] for an [int]. *)
Definition str_int (z : Z) : string := NilZero.string_of_int (Z.to_int z).

(** [sep.join(parts)]. *)
Definition join (sep : string) (parts : list string) : string :=
  String.concat sep parts.

Definition newline : string := String (ascii_of_nat 10) EmptyString.

(** Exception classes that the two source files raise, catch or define,
    plus [Foreign] for every class that belongs to a collaborator. *)
Inductive ExcClass :=
| Exception
| RuntimeError
| ValueError
| TypeError
| AttributeError
| ZeroDivisionError
| OverflowError
| BytestringSplittingError
| PolicyException
| NotEnoughUrsulas
| EnactmentError
| Unpaid
| Unknown
| Inactive
| Expired
| Unauthorized
| Revoked
| InvalidPolicyValue
| NotEnoughBlockchainUrsulas
| OutOfValues
| TimedOut
| UnknownIPAddress
| Foreign (name : string).

Definition ExcClass_eq_dec (c d : ExcClass) : {c = d} + {c <> d}.
Proof. decide equality. apply string_dec. Defined.

Definition ExcClass_eqb (c d : ExcClass) : bool :=
  if ExcClass_eq_dec c d then true else false.

(** The direct base class, as the [class] statements of the source give it. *)
Definition base_class (c : ExcClass) : option ExcClass :=
  match c with
  | Exception => None
  | RuntimeError | ValueError | TypeError | AttributeError
  | ZeroDivisionError
  | OverflowError | BytestringSplittingError | PolicyException
  | OutOfValues | TimedOut | Foreign _ => Some Exception
  | NotEnoughUrsulas | EnactmentError | Unpaid | Unknown | Inactive
  | Expired | Unauthorized => Some PolicyException
  | Revoked => Some Unauthorized
  | InvalidPolicyValue => Some ValueError
  | NotEnoughBlockchainUrsulas => Some NotEnoughUrsulas
  | UnknownIPAddress => Some RuntimeError
  end.

Fixpoint issubclass_upto (depth : nat) (c d : ExcClass) : bool :=
  ExcClass_eqb c d ||
  match depth with
  | O => false
  | S k => match base_class c with
           | Some b => issubclass_upto k b d
           | None => false
           end
  end.

(** [issubclass(c, d)]; the hierarchy above is four levels deep. *)
Definition issubclass (c d : ExcClass) : bool := issubclass_upto 4 c d.

(** An exception instance: its class and its [args]. *)
Record Exc := mkExc { exc_class : ExcClass; exc_args : list string }.

(** [raise C] instantiates [C] with no argument; [raise C(msg)] with one. *)
Definition bare (c : ExcClass) : Exc := mkExc c [].
Definition with_message (c : ExcClass) (msg : string) : Exc := mkExc c [msg].

Definition single_quote : ascii := ascii_of_nat 39.
Definition double_quote : ascii := ascii_of_nat 34.
Definition backslash : ascii := ascii_of_nat 92.

Fixpoint contains (c : ascii) (s : string) : bool :=
  match s with
  | EmptyString => false
  | String d rest => Ascii.eqb c d || contains c rest
  end.

(** A hexadecimal digit, in lower case. *)
Definition hex_digit (n : nat) : ascii :=
  if (n <? 10)%nat then ascii_of_nat (48 + n) else ascii_of_nat (87 + n).

(** One character of [repr(s)] inside the quote [quote]: the quote and
    the backslash are escaped, tab, newline and carriage return have
    their letters, any other control character is written in
    hexadecimal, and every other character is copied. *)
Definition repr_char (quote c : ascii) : string :=
  let n := nat_of_ascii c in
  if Ascii.eqb c quote || Ascii.eqb c backslash
  then String backslash (String c EmptyString)
  else if (n =? 9)%nat then String backslash "t"
  else if (n =? 10)%nat then String backslash "n"
  else if (n =? 13)%nat then String backslash "r"
  else if (n <? 32)%nat || (n =? 127)%nat
  then String backslash
         (String "x" (String (hex_digit (n / 16))
                        (String (hex_digit (n mod 16)) EmptyString)))
  else String c EmptyString.

Fixpoint repr_chars (quote : ascii) (s : string) : string :=
  match s with
  | EmptyString => EmptyString
  | String c rest => repr_char quote c +++ repr_chars quote rest
  end.

(** [repr(s)] for a [str]: in single quotes, or in double quotes when
    the text holds a single quote and no double quote. *)
Definition repr_str (s : string) : string :=
  let quote :=
    if contains single_quote s && negb (contains double_quote s)
    then double_quote else single_quote in
  String quote (repr_chars quote s +++ String quote EmptyString).

(** [str(e)] for an exception whose arguments are strings: nothing
    without arguments, the argument itself when there is one, and the
    [repr] of the tuple of arguments otherwise. *)
Definition str_exc (e : Exc) : string :=
  match exc_args e with
  | [] => EmptyString
  | [a] => a
  | args => "(" +++ join ", " (map repr_str args) +++ ")"
  end.

(** [isinstance(e, C)]. *)
Definition isinstance (e : Exc) (c : ExcClass) : bool :=
  issubclass (exc_class e) c.

Inductive Outcome (A : Type) :=
| Return (a : A)
| Raise (e : Exc).
Arguments Return {A} a.
Arguments Raise {A} e.

Definition obind {A B} (x : Outcome A) (k : A -> Outcome B) : Outcome B :=
  match x with
  | Return a => k a
  | Raise e => Raise e
  end.

(** Python dictionaries: insertion-ordered, one entry per key. *)
Section Dict.
Variables K V : Type.
Variable eqb : K -> K -> bool.

Definition dict := list (K * V).

Fixpoint dict_get (k : K) (d : dict) : option V :=
  match d with
  | [] => None
  | (k', v) :: rest => if eqb k k' then Some v else dict_get k rest
  end.

(** [d[k] = v]: overwrite in place, or append a new entry. *)
Fixpoint dict_set (k : K) (v : V) (d : dict) : dict :=
  match d with
  | [] => [(k, v)]
  | (k', v') :: rest =>
      if eqb k k' then (k', v) :: rest else (k', v') :: dict_set k v rest
  end.

Definition dict_keys (d : dict) : list K := map fst d.
Definition dict_values (d : dict) : list V := map snd d.
Definition dict_items (d : dict) : list (K * V) := d.
Definition dict_len (d : dict) : Z := Z.of_nat (List.length d).

(** [{k: v for k, v in items}]. *)
Definition dict_of_items (items : list (K * V)) : dict :=
  fold_left (fun d kv => dict_set (fst kv) (snd kv) d) items [].

End Dict.

(** Logger calls, kept in emission order. *)
Inductive Level := DEBUG | INFO | WARN.
Definition Log := list (Level * string).

(** Code that changes a state [S] and may raise.  A raised exception
    keeps the state reached before it. *)
Definition Eff (S A : Type) := S -> Outcome A * S.

Definition ret {S A} (a : A) : Eff S A := fun s => (Return a, s).
Definition raise {S A} (e : Exc) : Eff S A := fun s => (Raise e, s).
Definition lift {S A} (x : Outcome A) : Eff S A := fun s => (x, s).
Definition bind {S A B} (x : Eff S A) (k : A -> Eff S B) : Eff S B :=
  fun s => match x s with
           | (Return a, s') => k a s'
           | (Raise e, s') => (Raise e, s')
           end.

(** Code that logs and may raise. *)
Definition Logged (A : Type) := Eff Log A.

Definition emit (lv : Level) (msg : string) : Logged unit :=
  fun l => (Return tt, l ++ [(lv, msg)]).

End Py.

Import Py.

Notation "x <- c1 ;; c2" := (bind c1 (fun x => c2))
  (at level 61, c1 at next level, right associativity).
Notation "c1 ;;; c2" := (bind c1 (fun _ => c2))
  (at level 61, right associativity).
Notation "x <-- c1 ;; c2" := (obind c1 (fun x => c2))
  (at level 61, c1 at next level, right associativity).

(** ** [int / int] and [math.ceil]

    Python's true division of two [int]s yields the binary64 number
    nearest to the exact quotient (ties to even), whatever the size of
    the operands; [math.ceil] of a finite float is exact.  A finite
    binary64 value is kept as [mantissa * 2 ^ exponent]. *)

Module PyFloat.

Record float := mkFloat { mantissa : Z; exponent : Z }.

(** The integer nearest to [n / d] for [d > 0], ties to the even one. *)
Definition round_half_even (n d : Z) : Z :=
  let q := n / d in
  let r := n mod d in
  if 2 * r <? d then q
  else if d <? 2 * r then q + 1
  else if Z.even q then q else q + 1.

(** [a / (b * 2 ^ e)] as a fraction of integers. *)
Definition scaled (a b e : Z) : Z * Z :=
  if 0 <=? e then (a, b * 2 ^ e) else (a * 2 ^ (- e), b).

(** The exponent that puts the quotient's mantissa in [2^52, 2^53),
    held at the subnormal exponent -1074 from below. *)
Definition quotient_exponent (a b : Z) : Z :=
  let e0 := Z.log2 a - Z.log2 b - 53 in
  let '(n0, d0) := scaled a b e0 in
  let e1 := if n0 / d0 <? 2 ^ 53 then e0 else e0 + 1 in
  Z.max e1 (-1074).

(** The binary64 number nearest to [a / b], for [a > 0] and [b > 0]. *)
Definition nearest_binary64 (a b : Z) : float :=
  let e := quotient_exponent a b in
  let '(n, d) := scaled a b e in
  mkFloat (round_half_even n d) e.

(** The largest finite binary64 is [(2^53 - 1) * 2^971]. *)
Definition overflows (x : float) : bool :=
  (971 <? exponent x) || ((exponent x =? 971) && (2 ^ 53 <=? mantissa x)).

(** [a / b] on [int]s. *)
Definition int_true_divide (a b : Z) : Outcome float :=
  if b =? 0 then Raise (with_message ZeroDivisionError "division by zero")
  else if a =? 0 then Return (mkFloat 0 0)
  else
    let x := nearest_binary64 (Z.abs a) (Z.abs b) in
    if overflows x
    then Raise (with_message OverflowError
                  "integer division result too large for a float")
    else Return (mkFloat (Z.sgn a * Z.sgn b * mantissa x) (exponent x)).

(** [math.ceil(x)] on a finite float. *)
Definition math_ceil (x : float) : Z :=
  if 0 <=? exponent x then mantissa x * 2 ^ exponent x
  else - ((- mantissa x) / 2 ^ (- exponent x)).

End PyFloat.

(** ** Collaborators of [policies.py]

    [nucypher.crypto] (umbral keys, signatures, key fragments, keccak and
    the policy id), [maya] timestamps and [TreasureMap.derive_hrac] are
    imported by the source file, not defined in it. *)

(** [PublicKey], [Signature] and [VerifiedKeyFrag] of
    [nucypher.crypto.umbral_adapter], with [key_splitter]'s key length. *)
Class Umbral := {
  PublicKey : Type;
  PublicKey_bytes : PublicKey -> bytes;
  PublicKey_from_bytes : bytes -> Outcome PublicKey;
  PublicKey_serialized_size : nat;
  PublicKey_str : PublicKey -> string;
  Signature : Type;
  Signature_from_bytes : bytes -> Outcome Signature;
  VerifiedKeyFrag : Type
}.

(** [maya.MayaDT].  [iso8601_encoded t] is [t.iso8601().encode()] and
    [from_iso8601_decoded b] is
    [MayaDT.from_iso8601(iso8601_string=b.decode())]. *)
Class Maya := {
  MayaDT : Type;
  iso8601_encoded : MayaDT -> bytes;
  from_iso8601_decoded : bytes -> Outcome MayaDT
}.

(** [keccak_digest] and [construct_policy_id] of [nucypher.crypto.utils]. *)
Class CryptoUtils := {
  keccak_digest : bytes -> bytes;
  construct_policy_id : bytes -> bytes -> bytes
}.

(** ** [bytestring_splitter]

    The length-prefixed framing of the [bytestring_splitter] package:
    a [VariableLengthBytestring] is its payload behind a four-byte
    big-endian length. *)

Module Splitter.

Definition VARIABLE_HEADER_LENGTH : nat := 4.

Definition byte_of_Z (z : Z) : byte :=
  match Byte.of_N (Z.to_N (z mod 256)) with
  | Some b => b
  | None => x00
  end.

Definition Z_of_byte (b : byte) : Z := Z.of_N (Byte.to_N b).

(** The [len] low-order base-256 digits of [n], most significant first. *)
Fixpoint big_endian (len : nat) (n : Z) : bytes :=
  match len with
  | O => []
  | S k => big_endian k (n / 256) ++ [byte_of_Z n]
  end.

(** [n.to_bytes(len, "big")] for [n >= 0]. *)
Definition int_to_bytes (n : Z) (len : nat) : Outcome bytes :=
  if 256 ^ Z.of_nat len <=? n
  then Raise (with_message OverflowError "int too big to convert")
  else Return (big_endian len n).

(** [int.from_bytes(b, "big")]. *)
Definition int_from_bytes (b : bytes) : Z :=
  fold_left (fun acc x => acc * 256 + Z_of_byte x) b 0.

(** [bytes(VariableLengthBytestring(message))]. *)
Definition VariableLengthBytestring_bytes (message : bytes) : Outcome bytes :=
  header <-- int_to_bytes (Z.of_nat (List.length message)) VARIABLE_HEADER_LENGTH ;;
  Return (header ++ message).

(** Cut [n] bytes off the front; too short an input is an error. *)
Definition take (n : nat) (b : bytes) : Outcome (bytes * bytes) :=
  if (List.length b <? n)%nat
  then Raise (with_message BytestringSplittingError "not enough bytes")
  else Return (firstn n b, skipn n b).

(** Read one variable-length field. *)
Definition take_variable (b : bytes) : Outcome (bytes * bytes) :=
  hr <-- take VARIABLE_HEADER_LENGTH b ;;
  take (Z.to_nat (int_from_bytes (fst hr))) (snd hr).

End Splitter.

(** ** [nucypher.utilities.concurrency]

    Modelled from the spec: [WorkerPool] and [AllAtOnceFactory] of
    [nucypher/utilities/concurrency.py] are imported by [policies.py] and
    are not among the source files.  The design document gives the
    contract used here: a worker pool runs the supplied operation on each
    value its factory hands out; "an operation's outcome is recorded
    exactly once (success if op returns without error ...). A value
    producing an exception is recorded as a failure with the error
    detail"; [AllAtOnce] "returns its entire fixed input collection on
    the first call". *)

Module Concurrency.

Inductive ValueFactory (V : Type) :=
| AllAtOnceFactory (values : list V).

Definition factory_values {V} (f : ValueFactory V) : list V :=
  match f with AllAtOnceFactory values => values end.

(** The constructor's arguments and the two tallies. *)
Record WorkerPool (V R : Type) := mkWorkerPool {
  worker : V -> Logged R;
  value_factory : ValueFactory V;
  target_successes : Z;
  timeout : Z;
  stagger_timeout : Z;
  threadpool_size : Z;
  successes : dict V R;
  failures : dict V Exc
}.

Definition WorkerPool_init {V R} (worker : V -> Logged R)
    (value_factory : ValueFactory V)
    (target_successes timeout stagger_timeout threadpool_size : Z)
    : WorkerPool V R :=
  mkWorkerPool worker value_factory target_successes timeout
               stagger_timeout threadpool_size [] [].

Section Tasks.
Variables V R : Type.
Variable eqb : V -> V -> bool.

(** One task: run the worker on [v] and record how it ended. *)
Definition run_task (pool : WorkerPool V R) (v : V) (l : Log)
    : WorkerPool V R * Log :=
  match worker pool v l with
  | (Return r, l') =>
      (mkWorkerPool (worker pool) (value_factory pool)
         (target_successes pool) (timeout pool) (stagger_timeout pool)
         (threadpool_size pool)
         (dict_set eqb v r (successes pool)) (failures pool), l')
  | (Raise e, l') =>
      (mkWorkerPool (worker pool) (value_factory pool)
         (target_successes pool) (timeout pool) (stagger_timeout pool)
         (threadpool_size pool)
         (successes pool) (dict_set eqb v e (failures pool)), l')
  end.

(** The tasks of [vs], one after the other. *)
Fixpoint run_tasks (pool : WorkerPool V R) (vs : list V) (l : Log)
    : WorkerPool V R * Log :=
  match vs with
  | [] => (pool, l)
  | v :: rest => let '(pool', l') := run_task pool v l in
                 run_tasks pool' rest l'
  end.

(** Every value of the factory dispatched, each to completion. *)
Definition run_to_completion (pool : WorkerPool V R) (l : Log)
    : WorkerPool V R * Log :=
  run_tasks pool (factory_values (value_factory pool)) l.

End Tasks.

(** What a blocked caller sees of a running pool: the result of
    [block_until_target_successes()], of each later [get_successes()]
    (numbered in call order) and of [get_failures()].  The snapshots are
    inputs because tasks keep finishing between the calls. *)
Record PoolView (V R : Type) := mkPoolView {
  block_until_target_successes : Outcome (dict V R);
  get_successes : nat -> dict V R;
  get_failures : dict V Exc
}.

End Concurrency.

(** ** [nucypher/policy/policies.py] *)

Module Policies.

Import Splitter PyFloat Concurrency.

(** A node of the network as this file uses it: its [checksum_address]
    and its printed form in f-strings. *)
Record Ursula := mkUrsula { checksum_address : string; ursula_str : string }.

Definition Ursula_eqb (u v : Ursula) : bool :=
  String.eqb (checksum_address u) (checksum_address v)
  && String.eqb (ursula_str u) (ursula_str v).

(** A transport response: [status_code], [content] and its printed
    form, which every response has, and the attribute [status], which
    only some have: the response of a [requests] session has none, that
    of a test client has one. *)
Record Response := mkResponse {
  status_code : Z;
  status : option string;
  content : bytes;
  response_str : string
}.

(** [response.status]. *)
Definition getattr_status (response : Response) : Outcome string :=
  match status response with
  | Some text => Return text
  | None =>
      Raise (with_message AttributeError
               "'Response' object has no attribute 'status'")
  end.

Section Model.
Context {umbral : Umbral} {maya : Maya} {crypto : CryptoUtils}.

(** *** class Arrangement *)

Record Arrangement := mkArrangement {
  expiration : MayaDT;
  publisher_verifying_key : PublicKey
}.

Definition Arrangement_init (publisher_verifying_key : PublicKey)
    (expiration : MayaDT) : Arrangement :=
  mkArrangement expiration publisher_verifying_key.

(** [splitter = BytestringSplitter(key_splitter,
    (bytes, VariableLengthBytestring))]: a key of fixed length, then one
    variable-length field.  With a variable-length field the splitter
    does not check the total length, and the call does not ask for the
    remainder: bytes after the field are dropped. *)
Definition splitter (b : bytes) : Outcome (PublicKey * bytes) :=
  kr <-- take PublicKey_serialized_size b ;;
  key <-- PublicKey_from_bytes (fst kr) ;;
  er <-- take_variable (snd kr) ;;
  Return (key, fst er).

(** [__bytes__]. *)
Definition Arrangement_bytes (self : Arrangement) : Outcome bytes :=
  tail <-- VariableLengthBytestring_bytes (iso8601_encoded (expiration self)) ;;
  Return (PublicKey_bytes (publisher_verifying_key self) ++ tail).

(** [from_bytes]. *)
Definition Arrangement_from_bytes (arrangement_as_bytes : bytes)
    : Outcome Arrangement :=
  ke <-- splitter arrangement_as_bytes ;;
  expiration <-- from_iso8601_decoded (snd ke) ;;
  Return (Arrangement_init (fst ke) expiration).

(** [__repr__]. *)
Definition Arrangement_repr (self : Arrangement) : string :=
  "Arrangement(publisher=" +++ PublicKey_str (publisher_verifying_key self)
  +++ ")".

(** *** class TreasureMapPublisher *)

(** [network_middleware: RestMiddleware], by the two calls made on it. *)
Record RestMiddleware := mkRestMiddleware {
  mw_propose_arrangement : Ursula -> Arrangement -> Outcome Response;
  mw_put_treasure_map_on_node : Ursula -> bytes -> Outcome Response
}.

Record TreasureMapPublisher := mkTreasureMapPublisher {
  _total : Z;
  _block_until_this_many_are_complete : Z;
  _worker_pool : WorkerPool Ursula Response
}.

(** The closure [put_treasure_map_on_node] of [__init__].  The [try]
    covers the middleware call only; the message of the second warning
    reads [response.status] after it, before anything is logged. *)
Definition put_treasure_map_on_node (network_middleware : RestMiddleware)
    (treasure_map_bytes : bytes) (node : Ursula) : Logged Response :=
  match mw_put_treasure_map_on_node network_middleware node
          treasure_map_bytes with
  | Raise e =>
      emit WARN ("Putting treasure map on " +++ ursula_str node
                 +++ " failed: " +++ str_exc e) ;;;
      raise e
  | Return response =>
      (if negb (status_code response =? 201)
       then
         status_text <- lift (getattr_status response) ;;
         emit WARN ("Putting treasure map on " +++ ursula_str node
                    +++ " failed with response status: " +++ status_text)
       else ret tt) ;;;
      ret response
  end.

Definition default_percent_to_complete_before_release : Z := 5.
Definition default_threadpool_size : Z := 120.
Definition default_timeout : Z := 20.

(** [__init__].  [math.ceil(len(nodes) * percent / 100)] divides in
    floating point. *)
Definition TreasureMapPublisher_init (treasure_map_bytes : bytes)
    (nodes : list Ursula) (network_middleware : RestMiddleware)
    (percent_to_complete_before_release threadpool_size timeout : Z)
    : Outcome TreasureMapPublisher :=
  let total := Z.of_nat (List.length nodes) in
  x <-- int_true_divide (total * percent_to_complete_before_release) 100 ;;
  let block_until_this_many_are_complete := math_ceil x in
  Return (mkTreasureMapPublisher total block_until_this_many_are_complete
            (WorkerPool_init
               (put_treasure_map_on_node network_middleware treasure_map_bytes)
               (AllAtOnceFactory nodes)
               block_until_this_many_are_complete
               timeout 0 threadpool_size)).

(** [block_until_success_is_reasonably_likely].  [view] is what the
    three calls on [self._worker_pool] return. *)
Definition block_until_success_is_reasonably_likely
    (self : TreasureMapPublisher) (view : PoolView Ursula Response)
    : Logged (dict Ursula Response) :=
  _ <- lift (block_until_target_successes view) ;;
  let completed := get_successes view 0 in
  emit DEBUG ("The minimal amount of nodes ("
              +++ str_int (dict_len completed)
              +++ ") were contacted while blocking for treasure map publication.") ;;;
  let successes := get_successes view 1 in
  let responses :=
    dict_of_items String.eqb
      (map (fun us => (checksum_address (fst us), snd us))
           (dict_items successes)) in
  if negb (forallb (fun response => status_code response =? 201)
                   (dict_values responses))
  then
    let report :=
      join newline
        (map (fun a_s => fst a_s +++ ": " +++ response_str (snd a_s))
             (dict_items responses)) in
    emit DEBUG ("Policy enactment failed. Request statuses:" +++ newline
                +++ report) ;;;
    let claims_of_freeloading :=
      existsb (fun response => status_code response =? 402)
              (dict_values responses) in
    if claims_of_freeloading
    then raise (bare Unpaid)
    else raise (with_message EnactmentError report)
  else ret completed.

(** *** class Policy *)

(** [publisher.stamp] and [bob.stamp]: [as_umbral_pubkey()] and
    [bytes(stamp)]. *)
Record SignatureStamp := mkStamp {
  as_umbral_pubkey : PublicKey;
  stamp_bytes : bytes
}.

(** [publisher: Alice], by what this file reads and calls on it. *)
Record Alice := mkAlice {
  alice_stamp : SignatureStamp;
  known_nodes : dict string Ursula;
  verify_from : Ursula -> bytes -> Signature -> Outcome unit
}.

Record Bob := mkBob { bob_stamp : SignatureStamp }.

(** Modelled from the spec: [TreasureMap.derive_hrac] of
    [nucypher/policy/maps.py] is not among the source files.  The design
    document describes the hrac as a "hash of publisher key, recipient
    key, label"; the hash is [keccak_digest], which [policies.py]
    imports. *)
Definition derive_hrac (publisher_verifying_key bob_verifying_key : PublicKey)
    (label : bytes) : bytes :=
  keccak_digest (PublicKey_bytes publisher_verifying_key
                 ++ PublicKey_bytes bob_verifying_key ++ label).

Record Policy := mkPolicy {
  policy_m : Z;
  policy_n : Z;
  publisher : Alice;
  label : bytes;
  bob : Bob;
  kfrags : list VerifiedKeyFrag;
  public_key : PublicKey;
  policy_expiration : MayaDT;
  _id : bytes;
  hrac : bytes
}.

(** [Policy.__init__]. *)
Definition Policy_init (publisher : Alice) (label : bytes)
    (expiration : MayaDT) (bob : Bob) (kfrags : list VerifiedKeyFrag)
    (public_key : PublicKey) (m : Z) : Policy :=
  mkPolicy m (Z.of_nat (List.length kfrags)) publisher label bob kfrags
    public_key expiration
    (construct_policy_id label (stamp_bytes (bob_stamp bob)))
    (derive_hrac (as_umbral_pubkey (alice_stamp publisher))
                 (as_umbral_pubkey (bob_stamp bob)) label).

(** [Arrangement.from_publisher]. *)
Definition Arrangement_from_publisher (publisher : Alice)
    (expiration : MayaDT) : Arrangement :=
  Arrangement_init (as_umbral_pubkey (alice_stamp publisher)) expiration.

(** [_propose_arrangement].  The membership test and the lookup in
    [known_nodes] are one [dict_get]. *)
Definition _propose_arrangement (self : Policy) (address : string)
    (network_middleware : RestMiddleware) : Logged (Ursula * Arrangement) :=
  match dict_get String.eqb address (known_nodes (publisher self)) with
  | None => raise (with_message RuntimeError (address +++ " is not known"))
  | Some ursula =>
      let arrangement :=
        Arrangement_from_publisher (publisher self) (policy_expiration self) in
      emit DEBUG ("Proposing arrangement " +++ Arrangement_repr arrangement
                  +++ " to " +++ ursula_str ursula) ;;;
      negotiation_response <-
        lift (mw_propose_arrangement network_middleware ursula arrangement) ;;
      let status := status_code negotiation_response in
      (if status =? 200
       then
         let ursula_signature := content negotiation_response in
         message <- lift (Arrangement_bytes arrangement) ;;
         signature <- lift (Signature_from_bytes ursula_signature) ;;
         _ <- lift (verify_from (publisher self) ursula message signature) ;;
         emit DEBUG ("Arrangement accepted by " +++ ursula_str ursula)
       else
         let message := "Proposing arrangement to " +++ ursula_str ursula
                        +++ " failed with " +++ str_int status in
         emit DEBUG message ;;;
         raise (with_message RuntimeError message)) ;;;
      ret (ursula, arrangement)
  end.

(** *** class FederatedPolicy, class BlockchainPolicy *)

Record BlockchainPolicy := mkBlockchainPolicy {
  bp_policy : Policy;
  payment_periods : Z;
  bp_value : Z;
  bp_rate : Z
}.

(** A policy object is an instance of one of the two concrete classes. *)
Inductive PolicyObject :=
| Federated (self : Policy)
| Blockchain (self : BlockchainPolicy).

Definition as_policy (self : PolicyObject) : Policy :=
  match self with
  | Federated p => p
  | Blockchain bp => bp_policy bp
  end.

(** [_not_enough_ursulas_exception], as each class overrides it. *)
Definition _not_enough_ursulas_exception (self : PolicyObject) : ExcClass :=
  match self with
  | Federated _ => NotEnoughUrsulas
  | Blockchain _ => NotEnoughBlockchainUrsulas
  end.

(** What [_make_arrangements] gets back from its collaborators, in call
    order: [self._make_reservoir(...)] (the reservoir itself only feeds the
    pool), [publisher.block_until_number_of_known_nodes_is(...)], and the
    calls on the worker pool that runs [_propose_arrangement]. *)
Record ProposalRun := mkProposalRun {
  made_reservoir : Outcome unit;
  learned_nodes : Outcome unit;
  proposal_pool : PoolView string (Ursula * Arrangement)
}.

(** The [try] statement of [_make_arrangements]: the successes the
    blocking call returns, or the tally so far when it gives up with
    [OutOfValues] or [TimedOut]; any other exception propagates.  The
    [finally] clause cancels and joins the pool; neither call returns
    anything. *)
Definition successes_after_blocking
    (worker_pool : PoolView string (Ursula * Arrangement))
    : Outcome (dict string (Ursula * Arrangement)) :=
  match block_until_target_successes worker_pool with
  | Return successes => Return successes
  | Raise e =>
      if isinstance e OutOfValues || isinstance e TimedOut
      then Return (get_successes worker_pool 0)
      else Raise e
  end.

(** [_make_arrangements]. *)
Definition _make_arrangements (self : PolicyObject) (run : ProposalRun)
    : Logged (dict Ursula Arrangement) :=
  _ <- lift (made_reservoir run) ;;
  _ <- lift (learned_nodes run) ;;
  let worker_pool := proposal_pool run in
  successes <- lift (successes_after_blocking worker_pool) ;;
  let accepted_arrangements :=
    dict_of_items Ursula_eqb (dict_values successes) in
  let failures := get_failures worker_pool in
  let accepted_addresses :=
    join ", " (map checksum_address (dict_keys accepted_arrangements)) in
  if dict_len accepted_arrangements <? policy_n (as_policy self)
  then
    let rejected_proposals :=
      join newline
        (map (fun a_v => fst a_v +++ ": " +++ str_exc (snd a_v))
             (dict_items failures)) in
    emit DEBUG ("Could not find enough Ursulas to accept proposals."
                +++ newline +++ "Accepted: " +++ accepted_addresses
                +++ newline +++ "Rejected:" +++ newline
                +++ rejected_proposals) ;;;
    raise (bare (_not_enough_ursulas_exception self))
  else
    emit DEBUG ("Finished proposing arrangements; accepted: "
                +++ accepted_addresses) ;;;
    ret accepted_arrangements.

(** [a // b] on [int]s: floor division, an error on a zero divisor. *)
Definition floordiv (a b : Z) : Outcome Z :=
  if b =? 0
  then Raise (with_message ZeroDivisionError
                "integer division or modulo by zero")
  else Return (a / b).

(** [_validate_fee_value]. *)
Definition _validate_fee_value (self : BlockchainPolicy) : Outcome unit :=
  let value := bp_value self in
  let n := policy_n (bp_policy self) in
  per_node <-- floordiv value n ;;
  rate_per_period <-- floordiv per_node (payment_periods self) ;;
  let recalculated_value := payment_periods self * rate_per_period * n in
  if negb (recalculated_value =? value)
  then Raise (with_message ValueError
                ("Invalid policy value calculation - " +++ str_int value
                 +++ " can't be divided into " +++ str_int n
                 +++ " staker payments per period for "
                 +++ str_int (payment_periods self)
                 +++ " periods without a remainder"))
  else Return tt.

(** [BlockchainPolicy.__init__]: the base initialiser, the three fee
    attributes, then the fee check. *)
Definition BlockchainPolicy_init (value rate payment_periods : Z)
    (publisher : Alice) (label : bytes) (expiration : MayaDT) (bob : Bob)
    (kfrags : list VerifiedKeyFrag) (public_key : PublicKey) (m : Z)
    : Outcome BlockchainPolicy :=
  let self :=
    mkBlockchainPolicy
      (Policy_init publisher label expiration bob kfrags public_key m)
      payment_periods value rate in
  _ <-- _validate_fee_value self ;;
  Return self.

End Model.

(** The [dict(rate=rate, value=value)] that [generate_policy_parameters]
    returns. *)
Record PolicyParameters := mkParams { params_rate : Z; params_value : Z }.

(** [i is not None and i < 0]. *)
Definition is_negative (i : option Z) : bool :=
  match i with Some z => z <? 0 | None => false end.

(** [bool(i)] for an [int] or [None]. *)
Definition truthy (i : option Z) : bool :=
  match i with Some z => negb (z =? 0) | None => false end.

(** [i == 0] for an [int] or [None]. *)
Definition is_zero (i : option Z) : bool :=
  match i with Some z => z =? 0 | None => false end.

Definition str_opt_int (i : option Z) : string :=
  match i with Some z => str_int z | None => "None" end.

(** [generate_policy_parameters]. *)
Definition generate_policy_parameters (n payment_periods : Z)
    (value rate : option Z) : Outcome PolicyParameters :=
  if 0 <? Z.of_nat (List.length
                      (filter is_negative
                              [Some n; Some payment_periods; value; rate]))
  then Raise (with_message InvalidPolicyValue
                "Negative policy parameters are not allowed. Be positive.")
  else if negb (xorb (truthy value) (truthy rate))
          && negb (is_zero value || is_zero rate)
  then Raise (with_message InvalidPolicyValue
                ("Either 'value' or 'rate'  must be provided for policy. "
                 +++ "Got value: " +++ str_opt_int value
                 +++ " and rate: " +++ str_opt_int rate))
  else
    match value with
    | None =>
        match rate with
        | Some rate => Return (mkParams rate (rate * payment_periods * n))
        | None => Raise (with_message TypeError
                           "unsupported operand type(s) for *")
        end
    | Some value =>
        value_per_node <-- floordiv value n ;;
        if negb (value_per_node * n =? value)
        then Raise (with_message InvalidPolicyValue
                      ("Policy value of (" +++ str_int value
                       +++ " wei) cannot be divided by N (" +++ str_int n
                       +++ ") without a remainder."))
        else
          rate <-- floordiv value_per_node payment_periods ;;
          if negb (rate * payment_periods =? value_per_node)
          then Raise (with_message InvalidPolicyValue
                        ("Policy value of (" +++ str_int value_per_node
                         +++ " wei) per node cannot be divided by duration ("
                         +++ str_int payment_periods
                         +++ " periods) without a remainder."))
          else Return (mkParams rate value)
    end.

End Policies.

(** ** [nucypher/utilities/networking.py] *)

Module Networking.

(** A known node, by [node.rest_url()]. *)
Record Node := mkNode { rest_url : string }.

(** A [requests] response, by [status_code] and [text]. *)
Record HttpResponse := mkHttpResponse { status_code : Z; text : string }.

(** An exception of a collaborator: its class name and [args]. *)
Record ForeignExc := mkForeign { foreign_name : string; foreign_args : list string }.

Definition foreign (e : ForeignExc) : Exc :=
  mkExc (Foreign (foreign_name e)) (foreign_args e).

(** How a call on the network ends: with an exception that the tuple
    [RequestErrors] matches ([ConnectionError], [TimeoutError],
    [RequestException], [HTTPError] or a subclass of one), with any
    other exception, or with a response. *)
Inductive Reply (A : Type) :=
| RequestErrors (e : ForeignExc)
| OtherException (e : ForeignExc)
| Replied (a : A).
Arguments RequestErrors {A} e.
Arguments OtherException {A} e.
Arguments Replied {A} a.

(** The world outside the module: [requests.get(url, verify=certificate)],
    [RestMiddleware.TEACHER_NODES], [Ursula.from_teacher_uri], the
    teacher's [network_middleware.ping()],
    [StandardTokenEconomics._default_minimum_allowed_locked], and the
    choice [random.sample] makes from a population that is large enough. *)
Record World := mkWorld {
  Teacher : Type;
  requests_get : string -> option string -> Reply HttpResponse;
  TEACHER_NODES : dict string (list string);
  from_teacher_uri : string -> bool -> Z -> Reply Teacher;
  ping : Teacher -> Reply HttpResponse;
  _default_minimum_allowed_locked : Z;
  sample_choice : list Node -> nat -> list Node
}.

(** Network traffic, in the order it is sent. *)
Inductive Event :=
| HttpGet (url : string)
| TeacherConnect (teacher_uri : string)
| TeacherPing (teacher_uri : string).

Definition IO (A : Type) := Eff (list Event) A.

Definition perform (ev : Event) : IO unit :=
  fun t => (Return tt, t ++ [ev]).

(** Truth value of a [str] or [None]. *)
Definition str_truthy (s : option string) : bool :=
  match s with
  | Some EmptyString | None => false
  | Some (String _ _) => true
  end.

Section Sources.
Variable world : World.

(** [get_external_ip_from_url_source]. *)
Definition get_external_ip_from_url_source (url : string)
    (certificate : option string) : IO (option string) :=
  perform (HttpGet url) ;;;
  match requests_get world url certificate with
  | RequestErrors _ => ret None
  | OtherException e => raise (foreign e)
  | Replied response =>
      if status_code response =? 200
      then ret (Some (text response))
      else ret None
  end.

(** [get_external_ip_from_default_teacher].  A missing network
    ([KeyError]) or an empty teacher list ([IndexError]) returns [None];
    nothing else is caught. *)
Definition get_external_ip_from_default_teacher (network : string)
    (federated_only : bool) : IO (option string) :=
  match dict_get String.eqb network (TEACHER_NODES world) with
  | None | Some [] => ret None
  | Some (top_teacher_url :: _) =>
      perform (TeacherConnect top_teacher_url) ;;;
      match from_teacher_uri world top_teacher_url federated_only
              (_default_minimum_allowed_locked world) with
      | RequestErrors e | OtherException e => raise (foreign e)
      | Replied teacher =>
          perform (TeacherPing top_teacher_url) ;;;
          match ping world teacher with
          | RequestErrors e | OtherException e => raise (foreign e)
          | Replied response =>
              if status_code response =? 200
              then ret (Some (text response))
              else ret None
          end
      end
  end.

(** [random.sample(population, k)]. *)
Definition random_sample (population : list Node) (k : nat)
    : IO (list Node) :=
  if (List.length population <? k)%nat
  then raise (with_message ValueError
                "Sample larger than population or is negative")
  else ret (sample_choice world population k).

(** The [for node in sample] loop of [get_external_ip_from_known_nodes]. *)
Fixpoint first_reply (sample : list Node) : IO (option string) :=
  match sample with
  | [] => ret None
  | node :: rest =>
      ip <- get_external_ip_from_url_source (rest_url node) None ;;
      if str_truthy ip then ret ip else first_reply rest
  end.

(** [get_external_ip_from_known_nodes]. *)
Definition get_external_ip_from_known_nodes (known_nodes : list Node)
    (sample_size : nat) : IO (option string) :=
  sample <- random_sample known_nodes sample_size ;;
  first_reply sample.

Definition default_sample_size : nat := 3.

(** [get_external_ip_from_centralized_source]. *)
Definition get_external_ip_from_centralized_source : IO (option string) :=
  ip <- get_external_ip_from_url_source "https://ifconfig.me/" None ;;
  ret ip.

(** Truth value of [known_nodes], a list or [None]. *)
Definition nodes_truthy (known_nodes : option (list Node)) : bool :=
  match known_nodes with
  | Some (_ :: _) => true
  | Some [] | None => false
  end.

Definition nodes_of (known_nodes : option (list Node)) : list Node :=
  match known_nodes with Some ns => ns | None => [] end.

(** [determine_external_ip_address]. *)
Definition determine_external_ip_address (network : string)
    (known_nodes : option (list Node)) : IO (option string) :=
  let rest_host := None in
  rest_host <-
    (if nodes_truthy known_nodes
     then get_external_ip_from_known_nodes (nodes_of known_nodes)
            default_sample_size
     else ret rest_host) ;;
  rest_host <-
    (if negb (str_truthy rest_host)
     then get_external_ip_from_default_teacher network false
     else ret rest_host) ;;
  rest_host <-
    (if negb (str_truthy rest_host)
     then get_external_ip_from_centralized_source
     else ret rest_host) ;;
  if negb (str_truthy rest_host)
  then raise (with_message UnknownIPAddress
                "External IP address detection failed")
  else ret rest_host.

(** The cascade in the words of the design: consult the sources in
    order, return the first host that is not empty and stop there; with
    no source left, the address is unknown. *)
Fixpoint first_host (sources : list (IO (option string)))
    : IO (option string) :=
  match sources with
  | [] => raise (with_message UnknownIPAddress
                   "External IP address detection failed")
  | source :: rest =>
      host <- source ;;
      if str_truthy host then ret host else first_host rest
  end.

(** The sources [determine_external_ip_address] may consult, in order. *)
Definition sources (network : string) (known_nodes : option (list Node))
    : list (IO (option string)) :=
  (if nodes_truthy known_nodes
   then [get_external_ip_from_known_nodes (nodes_of known_nodes)
           default_sample_size]
   else [])
  ++ [get_external_ip_from_default_teacher network false;
      get_external_ip_from_centralized_source].

End Sources.

End Networking.

(** ** Stand-ins for the collaborators

    Small concrete collaborators, used to run the model on examples. *)

Module Fixtures.

Import Policies.
Local Open Scope string_scope.

(** Keys, signatures and key fragments as their serialised bytes; a key
    is 33 bytes long. *)
Definition bytes_umbral : Umbral := {|
  PublicKey := bytes;
  PublicKey_bytes := fun k => k;
  PublicKey_from_bytes := fun b =>
    if (List.length b =? 33)%nat then Return b
    else Raise (with_message ValueError "not a public key");
  PublicKey_serialized_size := 33;
  PublicKey_str := fun _ => "PublicKey";
  Signature := bytes;
  Signature_from_bytes := fun b => Return b;
  VerifiedKeyFrag := bytes
|}.

(** Timestamps as their ISO-8601 text. *)
Definition text_maya : Maya := {|
  MayaDT := string;
  iso8601_encoded := list_byte_of_string;
  from_iso8601_decoded := fun b => Return (string_of_list_byte b)
|}.

(** A digest and a policy id that only rearrange their input. *)
Definition toy_crypto : CryptoUtils := {|
  keccak_digest := fun b => rev b;
  construct_policy_id := fun label stamp => (label ++ stamp)%list
|}.

Definition key_of (first : byte) : bytes := first :: repeat x00 32.

Definition alice_key : bytes := key_of x02.
Definition bob_key : bytes := key_of x03.

Definition ursula_1 : Ursula := mkUrsula "0xA1" "Ursula-1".
Definition ursula_2 : Ursula := mkUrsula "0xA2" "Ursula-2".
Definition ursula_3 : Ursula := mkUrsula "0xA3" "Ursula-3".

Definition response_with (code : Z) (status : string) : Response :=
  mkResponse code (Some status) [] ("<Response [" +++ str_int code +++ "]>").

(** A response as a [requests] session gives it: no attribute
    [status]. *)
Definition requests_response (code : Z) : Response :=
  mkResponse code None [] ("<Response [" +++ str_int code +++ "]>").

Definition created : Response := response_with 201 "201 CREATED".
Definition ok : Response := response_with 200 "200 OK".
Definition payment_required : Response :=
  response_with 402 "402 PAYMENT REQUIRED".
Definition not_found : Response := response_with 404 "404 NOT FOUND".

(** A publisher that knows the three nodes and accepts every signature. *)
Definition alice : @Alice bytes_umbral := {|
  alice_stamp := @mkStamp bytes_umbral alice_key alice_key;
  known_nodes := [("0xA1", ursula_1); ("0xA2", ursula_2); ("0xA3", ursula_3)];
  verify_from := fun _ _ _ => Return tt
|}.

Definition bob : @Bob bytes_umbral :=
  @mkBob bytes_umbral (@mkStamp bytes_umbral bob_key bob_key).

Definition expiry : string := "2021-06-01T00:00:00Z".

Definition arrangement : @Arrangement bytes_umbral text_maya :=
  @mkArrangement bytes_umbral text_maya expiry alice_key.

(** A middleware whose peers all answer with the same response. *)
Definition answering (proposal publication : Response)
    : @RestMiddleware bytes_umbral text_maya := {|
  mw_propose_arrangement := fun _ _ => Return proposal;
  mw_put_treasure_map_on_node := fun _ _ => Return publication
|}.

(** A middleware on which the second node answers a publication with
    402, the third cannot be reached, and the first accepts. *)
Definition mixed_middleware : @RestMiddleware bytes_umbral text_maya := {|
  mw_propose_arrangement := fun _ _ => Return ok;
  mw_put_treasure_map_on_node := fun node _ =>
    if String.eqb (checksum_address node) "0xA2" then Return payment_required
    else if String.eqb (checksum_address node) "0xA3"
    then Raise (mkExc (Foreign "ConnectionError") ["connection refused"])
    else Return created
|}.

(** The same network through a [requests] session: the second node's
    402 comes in a response without the attribute [status]. *)
Definition requests_middleware : @RestMiddleware bytes_umbral text_maya := {|
  mw_propose_arrangement := fun _ _ => Return (requests_response 200);
  mw_put_treasure_map_on_node := fun node _ =>
    if String.eqb (checksum_address node) "0xA2"
    then Return (requests_response 402)
    else if String.eqb (checksum_address node) "0xA3"
    then Raise (mkExc (Foreign "ConnectionError") ["connection refused"])
    else Return (requests_response 201)
|}.

Definition one_share_policy : @Policy bytes_umbral text_maya :=
  @Policy_init bytes_umbral text_maya toy_crypto
    alice [x61] expiry bob [[x01]] alice_key 1.

Definition two_share_policy : @Policy bytes_umbral text_maya :=
  @Policy_init bytes_umbral text_maya toy_crypto
    alice [x61] expiry bob [[x01]; [x02]] alice_key 1.

(** A publisher over the three nodes, waiting for one of them. *)
Definition publisher_of_three : TreasureMapPublisher :=
  mkTreasureMapPublisher 3 1
    (Concurrency.WorkerPool_init
       (put_treasure_map_on_node mixed_middleware [x61])
       (Concurrency.AllAtOnceFactory [ursula_1; ursula_2; ursula_3])
       1 20 0 120).

(** A pool that reached its target with the tally [snapshot], which no
    longer changes. *)
Definition settled {V R : Type} (snapshot : dict V R)
    : Concurrency.PoolView V R :=
  Concurrency.mkPoolView (Return snapshot) (fun _ => snapshot) [].

(** A proposal pool that ran out of candidates with one acceptance
    and one refusal. *)
Definition short_of_peers
    : Concurrency.PoolView string (Ursula * @Arrangement bytes_umbral text_maya) :=
  Concurrency.mkPoolView
    (Raise (bare OutOfValues))
    (fun _ => [("0xA2", (ursula_2, arrangement))])
    [("0xA1", with_message RuntimeError
                "Proposing arrangement to Ursula-1 failed with 404")].

(** The run of [_make_arrangements] around that pool. *)
Definition short_run : @ProposalRun bytes_umbral text_maya :=
  @mkProposalRun bytes_umbral text_maya (Return tt) (Return tt) short_of_peers.

End Fixtures.

(** ** Vocabulary of the statements *)

Module Terms.

Import Policies.

(** The application status that a publication counts as accepted. *)
Definition accepted (r : Response) : bool := status_code r =? 201.

(** The application status "payment required". *)
Definition unpaid (r : Response) : bool := status_code r =? 402.

(** One peer's line of the status report: its address, then the
    response it sent. *)
Definition report_line (us : Ursula * Response) : string :=
  checksum_address (fst us) +++ ": " +++ response_str (snd us).

(** The status report over a tally of successes. *)
Definition status_report (successes : dict Ursula Response) : string :=
  join newline (map report_line successes).

(** The warning the publisher logs when the transport fails. *)
Definition transport_warning (node : Ursula) (e : Exc) : Level * string :=
  (WARN, "Putting treasure map on " +++ ursula_str node
         +++ " failed: " +++ str_exc e).

(** The warning the publisher logs on a status other than 201. *)
Definition status_warning (node : Ursula) (status_text : string)
    : Level * string :=
  (WARN, "Putting treasure map on " +++ ursula_str node
         +++ " failed with response status: " +++ status_text).

(** The error of reading [status] on a response that has none. *)
Definition no_status_attribute : Exc :=
  with_message AttributeError "'Response' object has no attribute 'status'".

Section Collaborators.
Context {umbral : Umbral} {maya : Maya}.

(** How the transport call for one node ends. *)
Definition sent (network_middleware : RestMiddleware)
    (treasure_map_bytes : bytes) (node : Ursula) : Outcome Response :=
  mw_put_treasure_map_on_node network_middleware node treasure_map_bytes.

(** How the worker ends on one node: as the transport call did, save
    that a response with a status code other than 201 and no attribute
    [status] ends in the error of reading it. *)
Definition delivered (network_middleware : RestMiddleware)
    (treasure_map_bytes : bytes) (node : Ursula) : Outcome Response :=
  match sent network_middleware treasure_map_bytes node with
  | Return response =>
      if status_code response =? 201 then Return response
      else match status response with
           | Some _ => Return response
           | None => Raise no_status_attribute
           end
  | Raise e => Raise e
  end.

(** The warnings one delivery leaves in the log. *)
Definition warnings_of (network_middleware : RestMiddleware)
    (treasure_map_bytes : bytes) (node : Ursula) : Log :=
  match sent network_middleware treasure_map_bytes node with
  | Return response =>
      if status_code response =? 201 then []
      else match status response with
           | Some status_text => [status_warning node status_text]
           | None => []
           end
  | Raise e => [transport_warning node e]
  end.

(** The tally of successes after one more delivery. *)
Definition record_success (network_middleware : RestMiddleware)
    (treasure_map_bytes : bytes) (d : dict Ursula Response) (node : Ursula)
    : dict Ursula Response :=
  match delivered network_middleware treasure_map_bytes node with
  | Return response => dict_set Ursula_eqb node response d
  | Raise _ => d
  end.

(** The tally of failures after one more delivery. *)
Definition record_failure (network_middleware : RestMiddleware)
    (treasure_map_bytes : bytes) (d : dict Ursula Exc) (node : Ursula)
    : dict Ursula Exc :=
  match delivered network_middleware treasure_map_bytes node with
  | Return _ => d
  | Raise e => dict_set Ursula_eqb node e d
  end.

(** The arrangements accepted in a tally of proposal successes, one per
    node. *)
Definition accepted_arrangements_of
    (successes : dict string (Ursula * Arrangement))
    : dict Ursula Arrangement :=
  dict_of_items Ursula_eqb (dict_values successes).

(** The debug entry written when too few nodes accepted: the accepted
    addresses on one line, then one line per rejected address with its
    error. *)
Definition not_enough_entry
    (accepted : dict Ursula Arrangement) (failures : dict string Exc)
    : Level * string :=
  (DEBUG,
   "Could not find enough Ursulas to accept proposals." +++ newline
   +++ "Accepted: "
   +++ join ", " (map checksum_address (dict_keys accepted))
   +++ newline +++ "Rejected:" +++ newline
   +++ join newline
         (map (fun a_v => fst a_v +++ ": " +++ str_exc (snd a_v)) failures)).

End Collaborators.

End Terms.

(** ** Vocabulary for the address cascade *)

Module NetworkTerms.

Import Networking.

(** What a source answers and what traffic it causes, taken on its own. *)
Definition answer (source : IO (option string)) : Outcome (option string) :=
  fst (source []).

Definition traffic (source : IO (option string)) : list Event :=
  snd (source []).

(** A source that was reached and gave no host. *)
Definition yields_no_host (source : IO (option string)) : Prop :=
  exists host, answer source = Return host /\ str_truthy host = false.

Definition unknown_ip : Exc :=
  with_message UnknownIPAddress "External IP address detection failed".

(** A computation whose answer does not depend on the traffic so far,
    and which only adds to it. *)
Definition oblivious {A} (c : IO A) : Prop :=
  forall t, c t = (fst (c []), t ++ snd (c [])).

(** A computation that never raises [UnknownIPAddress] itself. *)
Definition sober {A} (c : IO A) : Prop :=
  forall t e, fst (c t) = Raise e -> exc_class e <> UnknownIPAddress.

(** A world with one default teacher that answers 503, an address
    service that answers, and known nodes that cannot be reached. *)
Definition lonely_world : World := {|
  Teacher := unit;
  requests_get := fun url _ =>
    if String.eqb url "https://ifconfig.me/"
    then Replied (mkHttpResponse 200 "198.51.100.7")
    else RequestErrors (mkForeign "ConnectionError" []);
  TEACHER_NODES := [("mainnet"%string, ["https://teacher.example:9151"%string])];
  from_teacher_uri := fun _ _ _ => Replied tt;
  ping := fun _ => Replied (mkHttpResponse 503 "");
  _default_minimum_allowed_locked := 15000;
  sample_choice := fun population k => firstn k population
|}.

Definition node_at (host : string) : Node :=
  mkNode ("https://" +++ host +++ ":9151").

End NetworkTerms.

(** ** Enactment: the rest of [policies.py]

    [enact] and the methods it calls.  The collaborators met here for
    the first time are the treasure map and its encrypted form
    ([nucypher.policy.maps]), the revocation kit
    ([nucypher.crypto.kits]), the policy agent and its receipt, the
    transacting power, [POLICY_ID_LENGTH]
    ([nucypher.blockchain.eth.constants]), the serialisation of a key
    fragment and the [epoch] of a timestamp. *)

Module Enactment.

Import Concurrency Policies.

Class MapCollaborators {umbral : Umbral} {maya : Maya} := {
  TreasureMap : Type;
  treasure_map_m : TreasureMap -> Z;
  EncryptedTreasureMap : Type;
  EncryptedTreasureMap_bytes : EncryptedTreasureMap -> bytes;
  RevocationKit : Type;
  RevocationKit_len : RevocationKit -> Z;
  TransactingPower : Type;
  Receipt : Type;
  POLICY_ID_LENGTH : nat;
  VerifiedKeyFrag_bytes : VerifiedKeyFrag -> bytes;
  epoch : MayaDT -> Z
}.

(** What the outside world sees of an enactment, in order. *)
Inductive Action :=
| StartLearningLoop
| CreatePolicy (policy_id : bytes) (value end_timestamp : Z)
               (node_addresses : list string)
| StartPool
| CallInThread.

(** The state an enactment runs in: the log and the actions so far. *)
Record Effects := mkEffects { log : Log; actions : list Action }.

Definition act (a : Action) : Eff Effects unit :=
  fun s => (Return tt, mkEffects (log s) (actions s ++ [a])).

(** A logging computation run inside an enactment. *)
Definition logged {A} (c : Logged A) : Eff Effects A :=
  fun s => let '(r, l) := c (log s) in (r, mkEffects l (actions s)).

Section Model.
Context {umbral : Umbral} {maya : Maya} {crypto : CryptoUtils}
        {maps : MapCollaborators}.

(** [_make_enactment_payload], as each class defines it; [ID_LENGTH] is
    [POLICY_ID_LENGTH]. *)
Definition _make_enactment_payload (self : PolicyObject)
    (kfrag : VerifiedKeyFrag) : bytes :=
  match self with
  | Federated _ => VerifiedKeyFrag_bytes kfrag
  | Blockchain bp =>
      firstn POLICY_ID_LENGTH (hrac (bp_policy bp))
      ++ VerifiedKeyFrag_bytes kfrag
  end.

(** What one call of [enact] gets back from its collaborators. *)
Record EnactRun := mkEnactRun {
  (* self.publisher._learning_task.running *)
  learning_task_running : bool;
  (* self.publisher.start_learning_loop() *)
  start_learning_loop : Outcome unit;
  (* the collaborators of _make_arrangements *)
  proposals : ProposalRun;
  (* self.publisher.policy_agent.create_policy(policy_id, transacting_power,
     value, end_timestamp, node_addresses) *)
  create_policy : bytes -> Z -> Z -> list string -> Outcome Receipt;
  (* receipt['transactionHash'] *)
  transaction_hash : Receipt -> Outcome bytes;
  (* TreasureMap.construct_by_publisher(publisher, bob, label, ursulas,
     verified_kfrags, m) *)
  construct_by_publisher :
    Alice -> Bob -> bytes -> list Ursula -> list VerifiedKeyFrag -> Z ->
    Outcome TreasureMap;
  (* self.publisher._crypto_power.power_ups(TransactingPower) *)
  power_ups : Outcome TransactingPower;
  (* treasure_map.prepare_for_publication(publisher, bob[, blockchain_signer]) *)
  prepare_for_publication :
    TreasureMap -> Alice -> Bob -> option TransactingPower ->
    Outcome EncryptedTreasureMap;
  (* self.publisher.block_until_number_of_known_nodes_is(8, timeout=2, ...) *)
  block_until_eight_known : Outcome unit;
  (* self.bob.matching_nodes_among(self.publisher.known_nodes) *)
  matching_nodes_among : dict string Ursula -> Outcome (list Ursula);
  (* RevocationKit(treasure_map=treasure_map, signer=self.publisher.stamp) *)
  make_revocation_kit : TreasureMap -> SignatureStamp -> Outcome RevocationKit;
  (* reactor.running *)
  reactor_running : bool
}.

(** [TreasureMapPublisher.start]. *)
Definition TreasureMapPublisher_start (run : EnactRun)
    (self : TreasureMapPublisher) : Eff Effects unit :=
  logged (emit INFO "TreasureMapPublisher starting") ;;;
  act StartPool ;;;
  if reactor_running run then act CallInThread else ret tt.

Record EnactedPolicy := mkEnactedPolicy {
  enacted_id : bytes;
  enacted_hrac : bytes;
  enacted_label : bytes;
  enacted_public_key : PublicKey;
  enacted_treasure_map : EncryptedTreasureMap;
  treasure_map_publisher : TreasureMapPublisher;
  revocation_kit : RevocationKit;
  enacted_m : Z;
  enacted_n : Z;
  enacted_publisher_verifying_key : PublicKey
}.

(** [EnactedPolicy.__init__]. *)
Definition EnactedPolicy_init (id hrac label : bytes) (public_key : PublicKey)
    (m : Z) (treasure_map : EncryptedTreasureMap)
    (treasure_map_publisher : TreasureMapPublisher)
    (revocation_kit : RevocationKit) (publisher_verifying_key : PublicKey)
    : EnactedPolicy :=
  mkEnactedPolicy id hrac label public_key treasure_map
    treasure_map_publisher revocation_kit m
    (RevocationKit_len revocation_kit) publisher_verifying_key.

(** [EnactedPolicy.publish_treasure_map]. *)
Definition publish_treasure_map (run : EnactRun) (self : EnactedPolicy)
    : Eff Effects unit :=
  TreasureMapPublisher_start run (treasure_map_publisher self).

(** [BlockchainPolicy._publish_to_blockchain]. *)
Definition _publish_to_blockchain (run : EnactRun) (self : BlockchainPolicy)
    (ursulas : list Ursula) : Eff Effects bytes :=
  let addresses := map checksum_address ursulas in
  let policy_id := hrac (bp_policy self) in
  let end_timestamp := epoch (policy_expiration (bp_policy self)) in
  act (CreatePolicy policy_id (bp_value self) end_timestamp addresses) ;;;
  receipt <- lift (create_policy run policy_id (bp_value self)
                     end_timestamp addresses) ;;
  lift (transaction_hash run receipt).

(** [_enact_arrangements]: nothing for the base class, the ledger
    transaction for a blockchain policy. *)
Definition _enact_arrangements (run : EnactRun) (self : PolicyObject)
    (arrangements : dict Ursula Arrangement) : Eff Effects unit :=
  match self with
  | Federated _ => ret tt
  | Blockchain bp =>
      _ <- _publish_to_blockchain run bp (dict_keys arrangements) ;;
      ret tt
  end.

(** [_encrypt_treasure_map], as each class defines it. *)
Definition _encrypt_treasure_map (run : EnactRun) (self : PolicyObject)
    (treasure_map : TreasureMap) : Eff Effects EncryptedTreasureMap :=
  let policy := as_policy self in
  match self with
  | Federated _ =>
      lift (prepare_for_publication run treasure_map (publisher policy)
              (bob policy) None)
  | Blockchain _ =>
      transacting_power <- lift (power_ups run) ;;
      lift (prepare_for_publication run treasure_map (publisher policy)
              (bob policy) (Some transacting_power))
  end.

(** [_make_publisher]: the publisher is built with the defaults of
    [TreasureMapPublisher.__init__]. *)
Definition _make_publisher (run : EnactRun) (self : PolicyObject)
    (treasure_map : EncryptedTreasureMap)
    (network_middleware : RestMiddleware) : Eff Effects TreasureMapPublisher :=
  let policy := as_policy self in
  _ <- lift (block_until_eight_known run) ;;
  target_nodes <-
    lift (matching_nodes_among run (known_nodes (publisher policy))) ;;
  let treasure_map_bytes := EncryptedTreasureMap_bytes treasure_map in
  lift (TreasureMapPublisher_init treasure_map_bytes target_nodes
          network_middleware default_percent_to_complete_before_release
          default_threadpool_size default_timeout).

(** [enact]. *)
Definition enact (run : EnactRun) (self : PolicyObject)
    (network_middleware : RestMiddleware) (publish : bool)
    : Eff Effects EnactedPolicy :=
  let policy := as_policy self in
  (if negb (learning_task_running run)
   then act StartLearningLoop ;;; lift (start_learning_loop run)
   else ret tt) ;;;
  arrangements <- logged (_make_arrangements self (proposals run)) ;;
  _enact_arrangements run self arrangements ;;;
  treasure_map <-
    lift (construct_by_publisher run (publisher policy) (bob policy)
            (label policy) (dict_keys arrangements) (kfrags policy)
            (policy_m policy)) ;;
  enc_treasure_map <- _encrypt_treasure_map run self treasure_map ;;
  treasure_map_publisher <-
    _make_publisher run self enc_treasure_map network_middleware ;;
  revocation_kit <-
    lift (make_revocation_kit run treasure_map
            (alice_stamp (publisher policy))) ;;
  let enacted_policy :=
    EnactedPolicy_init (_id policy) (hrac policy) (label policy)
      (public_key policy) (treasure_map_m treasure_map) enc_treasure_map
      treasure_map_publisher revocation_kit
      (as_umbral_pubkey (alice_stamp (publisher policy))) in
  (if publish then publish_treasure_map run enacted_policy else ret tt) ;;;
  ret enacted_policy.

End Model.

End Enactment.

(** ** More vocabulary *)

Module MoreTerms.

Import Concurrency Policies Enactment.

Section Collaborators.
Context {umbral : Umbral} {maya : Maya} {crypto : CryptoUtils}
        {maps : MapCollaborators}.

(** The debug entry written once the publication quorum is reached. *)
Definition quorum_line (completed : dict Ursula Response) : Level * string :=
  (DEBUG, "The minimal amount of nodes ("
          +++ str_int (dict_len completed)
          +++ ") were contacted while blocking for treasure map publication.").

(** The debug entry written before a proposal is sent. *)
Definition proposing_line (arrangement : Arrangement) (ursula : Ursula)
    : Level * string :=
  (DEBUG, "Proposing arrangement " +++ Arrangement_repr arrangement
          +++ " to " +++ ursula_str ursula).

(** The debug entry written when enough nodes accepted. *)
Definition finished_line (accepted : dict Ursula Arrangement)
    : Level * string :=
  (DEBUG, "Finished proposing arrangements; accepted: "
          +++ join ", " (map checksum_address (dict_keys accepted))).

(** The info entry written when the publisher starts. *)
Definition starting_line : Level * string :=
  (INFO, "TreasureMapPublisher starting"%string).

(** The actions of the first step of [enact]. *)
Definition learning_actions (run : EnactRun) : list Action :=
  if learning_task_running run then [] else [StartLearningLoop].

(** The ledger transaction of a policy over the accepted nodes: none
    for a federated policy. *)
Definition ledger_actions (self : PolicyObject)
    (arrangements : dict Ursula Arrangement) : list Action :=
  match self with
  | Federated _ => []
  | Blockchain bp =>
      [CreatePolicy (hrac (bp_policy bp)) (bp_value bp)
         (epoch (policy_expiration (bp_policy bp)))
         (map checksum_address (dict_keys arrangements))]
  end.

(** The actions of starting the publisher. *)
Definition publishing_actions (run : EnactRun) (publish : bool)
    : list Action :=
  if publish
  then StartPool :: (if reactor_running run then [CallInThread] else [])
  else [].

End Collaborators.

Definition is_ledger_action (a : Action) : bool :=
  match a with CreatePolicy _ _ _ _ => true | _ => false end.

Definition is_publishing_action (a : Action) : bool :=
  match a with StartPool | CallInThread => true | _ => false end.

End MoreTerms.

Module MoreNetworkTerms.

Import Networking NetworkTerms.

(** The request sent to each node of a list. *)
Definition requests_to (nodes : list Node) : list Event :=
  map (fun node => HttpGet (rest_url node)) nodes.

(** A node that answers status 200 with the text [host]. *)
Definition replies_with (world : World) (node : Node) (host : string)
    : Prop :=
  exists response,
    requests_get world (rest_url node) None = Replied response
    /\ status_code response = 200 /\ text response = host.

(** A node that gives no host: a request error, a status other than
    200, or an empty text. *)
Definition gives_no_host (world : World) (node : Node) : Prop :=
  answer (get_external_ip_from_url_source world (rest_url node) None)
  = Return None
  \/ answer (get_external_ip_from_url_source world (rest_url node) None)
     = Return (Some EmptyString).

(** A world in which the second known node answers. *)
Definition friendly_world : World := {|
  Teacher := unit;
  requests_get := fun url _ =>
    if String.eqb url "https://b:9151"
    then Replied (mkHttpResponse 200 "203.0.113.9")
    else RequestErrors (mkForeign "ConnectionError" []);
  TEACHER_NODES := [("mainnet"%string, ["https://teacher.example:9151"%string;
                                         "https://other.example:9151"%string])];
  from_teacher_uri := fun _ _ _ => Replied tt;
  ping := fun _ => Replied (mkHttpResponse 200 "203.0.113.9");
  _default_minimum_allowed_locked := 15000;
  sample_choice := fun population k => firstn k population
|}.

End MoreNetworkTerms.

(** ** Stand-ins for the collaborators of an enactment *)

Module EnactmentFixtures.

Import Concurrency Policies Enactment Fixtures.
Local Open Scope string_scope.

(** A treasure map as the nodes it names and its threshold; an
    encrypted map, a receipt and a key fragment as bytes; a revocation
    kit as the nodes it covers. *)
Definition toy_maps : @MapCollaborators bytes_umbral text_maya := {|
  TreasureMap := (list Ursula * Z)%type;
  treasure_map_m := snd;
  EncryptedTreasureMap := bytes;
  EncryptedTreasureMap_bytes := fun b : bytes => b;
  RevocationKit := list Ursula;
  RevocationKit_len := fun kit : list Ursula => Z.of_nat (List.length kit);
  TransactingPower := unit;
  Receipt := bytes;
  POLICY_ID_LENGTH := 16;
  VerifiedKeyFrag_bytes := fun k : @VerifiedKeyFrag bytes_umbral => (k : bytes);
  epoch := fun _ : @MayaDT text_maya => 1622505600
|}.

(** A proposal pool in which the first two nodes accepted. *)
Definition two_acceptances : @ProposalRun bytes_umbral text_maya :=
  @mkProposalRun bytes_umbral text_maya (Return tt) (Return tt)
    (settled [("0xA1", (ursula_1, arrangement));
              ("0xA2", (ursula_2, arrangement))]).

(** A proposal pool that timed out after those two acceptances. *)
Definition timed_out_with_two : @ProposalRun bytes_umbral text_maya :=
  @mkProposalRun bytes_umbral text_maya (Return tt) (Return tt)
    (mkPoolView (Raise (bare TimedOut))
       (fun _ => [("0xA1", (ursula_1, arrangement));
                  ("0xA2", (ursula_2, arrangement))])
       []).

(** A proposal run whose reservoir cannot be built. *)
Definition no_reservoir : @ProposalRun bytes_umbral text_maya :=
  @mkProposalRun bytes_umbral text_maya
    (Raise (mkExc (Foreign "NotEnoughStakers") []))
    (Return tt) (settled []).

(** An enactment in which every collaborator does its part. *)
Definition smooth_run (proposals : @ProposalRun bytes_umbral text_maya)
    : @EnactRun bytes_umbral text_maya toy_maps :=
  @mkEnactRun bytes_umbral text_maya toy_maps
    false
    (Return tt)
    proposals
    (fun _ _ _ _ => Return ([xff] : bytes))
    (fun receipt : bytes => Return receipt)
    (fun _ _ _ ursulas _ m => Return (ursulas, m))
    (Return tt)
    (fun _ _ _ _ => Return ([x2a] : bytes))
    (Return tt)
    (fun known => Return (map snd known))
    (fun treasure_map : list Ursula * Z => fun _ => Return (fst treasure_map))
    true.

(** A blockchain policy over two shares: 30 wei for five periods. *)
Definition paid_policy : @BlockchainPolicy bytes_umbral text_maya :=
  mkBlockchainPolicy two_share_policy 5 30 3.

Definition fresh : Effects := mkEffects [] [].

End EnactmentFixtures.

(** * Properties *)

Unset Implicit Arguments.

(** Close a goal [exists msg, Raise (with_message C ...) = Raise
    (with_message C msg)]. *)
Ltac raised := eexists; unfold with_message; reflexivity.

(** Decide the branches of the cascade from the recorded truth values
    of the hosts. *)
Ltac settle :=
  repeat first
    [ progress cbn [negb]
    | match goal with
      | H : Networking.str_truthy ?h = _
        |- context [Networking.str_truthy ?h] => rewrite H
      end ];
  try reflexivity.

(** ** Fee arithmetic of the paid policy *)

Section FeeArithmetic.
Import Policies.
Context {umbral : Umbral} {maya : Maya} {crypto : CryptoUtils}.

Lemma floordiv_nonzero a b : b <> 0 -> floordiv a b = Return (a / b).
Proof.
  intros H. unfold floordiv.
  destruct (Z.eqb_spec b 0); [contradiction | reflexivity].
Qed.

Lemma no_negative_parameter n pp value rate :
  0 <= n -> 0 <= pp -> is_negative value = false -> is_negative rate = false ->
  filter is_negative [Some n; Some pp; value; rate] = [].
Proof.
  intros Hn Hp Hv Hr. simpl.
  destruct (Z.ltb_spec n 0); [lia|].
  destruct (Z.ltb_spec pp 0); [lia|].
  rewrite Hv, Hr. reflexivity.
Qed.

(** C5. For [n > 0], [payment_periods > 0] and a rate that is not
    negative, [generate_policy_parameters] called with the rate returns
    [value = rate * payment_periods * n], and called again with only that
    value it returns the same rate and value: the rate is recovered
    exactly, [(value // n) // payment_periods = rate]. *)
Theorem fee_round_trip (n payment_periods rate : Z) :
  0 < n -> 0 < payment_periods -> 0 <= rate ->
  let value := rate * payment_periods * n in
  generate_policy_parameters n payment_periods None (Some rate)
    = Return (mkParams rate value)
  /\ generate_policy_parameters n payment_periods (Some value) None
    = Return (mkParams rate value)
  /\ value / n / payment_periods = rate.
Proof.
  intros Hn Hp Hr value.
  assert (Hper : value / n = rate * payment_periods)
    by (unfold value; apply Z.div_mul; lia).
  assert (Hrate : rate * payment_periods / payment_periods = rate)
    by (apply Z.div_mul; lia).
  assert (Hv : 0 <= value) by (unfold value; nia).
  assert (Hneg1 : filter is_negative
                    [Some n; Some payment_periods; None; Some rate] = []).
  { apply no_negative_parameter; simpl; lia. }
  assert (Hneg2 : filter is_negative
                    [Some n; Some payment_periods; Some value; None] = []).
  { apply no_negative_parameter; simpl; lia. }
  repeat split.
  - unfold generate_policy_parameters. rewrite Hneg1.
    cbn -[String.append str_int Z.mul].
    destruct (Z.eqb_spec rate 0); reflexivity.
  - unfold generate_policy_parameters. rewrite Hneg2.
    cbn -[String.append str_int Z.mul Z.div floordiv].
    replace (negb (xorb (negb (value =? 0)) false)
             && negb ((value =? 0) || false)) with false
      by (destruct (value =? 0); reflexivity).
    rewrite floordiv_nonzero by lia. cbn [obind].
    rewrite Hper. fold value. rewrite Z.eqb_refl. cbn [negb].
    rewrite floordiv_nonzero by lia. cbn [obind].
    rewrite Hrate, Z.eqb_refl. reflexivity.
  - rewrite Hper. exact Hrate.
Qed.

(** Three peers, ten periods, 7 wei per peer and period: 210 wei. *)
Lemma fee_round_trip_witness :
  generate_policy_parameters 3 10 None (Some 7) = Return (mkParams 7 210)
  /\ generate_policy_parameters 3 10 (Some 210) None = Return (mkParams 7 210)
  /\ 210 / 3 / 10 = 7.
Proof.
  apply (fee_round_trip 3 10 7); lia.
Defined.

Lemma generate_rejects_remainder_per_node n pp value rate :
  n <> 0 -> value / n * n <> value ->
  exists msg, generate_policy_parameters n pp (Some value) rate
              = Raise (with_message InvalidPolicyValue msg).
Proof.
  intros Hn Hrem. unfold generate_policy_parameters.
  destruct (0 <? _); [raised|].
  destruct (negb _ && _); [raised|].
  rewrite floordiv_nonzero by assumption. cbn [obind].
  destruct (Z.eqb_spec (value / n * n) value); [contradiction|].
  cbn [negb]. raised.
Qed.

Lemma generate_rejects_remainder_per_period n pp value rate :
  n <> 0 -> pp <> 0 -> value / n / pp * pp <> value / n ->
  exists msg, generate_policy_parameters n pp (Some value) rate
              = Raise (with_message InvalidPolicyValue msg).
Proof.
  intros Hn Hp Hrem. unfold generate_policy_parameters.
  destruct (0 <? _); [raised|].
  destruct (negb _ && _); [raised|].
  rewrite floordiv_nonzero by assumption. cbn [obind].
  destruct (negb (value / n * n =? value)); [raised|].
  rewrite floordiv_nonzero by assumption. cbn [obind].
  destruct (Z.eqb_spec (value / n / pp * pp) (value / n)); [contradiction|].
  cbn [negb]. raised.
Qed.

Lemma generate_is_exact n pp value rate p :
  generate_policy_parameters n pp (Some value) rate = Return p ->
  params_value p = value /\ params_rate p * pp * n = value.
Proof.
  unfold generate_policy_parameters.
  destruct (0 <? _); [discriminate|].
  destruct (negb _ && _); [discriminate|].
  unfold floordiv.
  destruct (n =? 0); [discriminate|]. cbn [obind].
  destruct (Z.eqb_spec (value / n * n) value) as [E1|]; [|discriminate].
  cbn [negb].
  destruct (pp =? 0); [discriminate|]. cbn [obind].
  destruct (Z.eqb_spec (value / n / pp * pp) (value / n)) as [E2|];
    [|discriminate].
  cbn [negb]. intros [= <-]. cbn [params_rate params_value].
  split; [reflexivity | rewrite E2; exact E1].
Qed.

Lemma validation_outcome (self : BlockchainPolicy) :
  let n := policy_n (bp_policy self) in
  let pp := payment_periods self in
  n <> 0 -> pp <> 0 ->
  (pp * (bp_value self / n / pp) * n <> bp_value self ->
   exists msg, _validate_fee_value self = Raise (with_message ValueError msg))
  /\ (pp * (bp_value self / n / pp) * n = bp_value self ->
      _validate_fee_value self = Return tt).
Proof.
  intros n pp Hn Hp. unfold _validate_fee_value. fold n pp.
  rewrite floordiv_nonzero by assumption. cbn [obind].
  rewrite floordiv_nonzero by assumption. cbn [obind].
  destruct (Z.eqb_spec (pp * (bp_value self / n / pp) * n) (bp_value self));
    cbn [negb]; split; intros H; try contradiction; try reflexivity.
  raised.
Qed.

(** C6. Where the divisions are defined ([n] and [payment_periods] not
    zero), a value that leaves a remainder is never rounded:
    [generate_policy_parameters] raises [InvalidPolicyValue] when
    [value // n * n <> value] or
    [(value // n) // payment_periods * payment_periods <> value // n],
    and whatever it returns for a given value is exact; constructing a
    [BlockchainPolicy] over [n] key fragments fails (with the
    [ValueError] of [_validate_fee_value]) when
    [payment_periods * (value // n // payment_periods) * n <> value],
    and succeeds only on an exact value. *)
Theorem uneven_value_is_rejected (n payment_periods value : Z) :
  n <> 0 -> payment_periods <> 0 ->
  (forall rate,
      value / n * n <> value
      \/ value / n / payment_periods * payment_periods <> value / n ->
      exists msg,
        generate_policy_parameters n payment_periods (Some value) rate
        = Raise (with_message InvalidPolicyValue msg))
  /\ (forall rate p,
         generate_policy_parameters n payment_periods (Some value) rate
         = Return p ->
         params_value p = value
         /\ params_rate p * payment_periods * n = value)
  /\ (forall rate publisher label expiration bob kfrags public_key m,
         Z.of_nat (List.length kfrags) = n ->
         payment_periods * (value / n / payment_periods) * n <> value ->
         exists msg,
           BlockchainPolicy_init value rate payment_periods publisher label
             expiration bob kfrags public_key m
           = Raise (with_message ValueError msg))
  /\ (forall rate publisher label expiration bob kfrags public_key m self,
         Z.of_nat (List.length kfrags) = n ->
         BlockchainPolicy_init value rate payment_periods publisher label
           expiration bob kfrags public_key m = Return self ->
         payment_periods * (value / n / payment_periods) * n = value).
Proof.
  intros Hn Hp. repeat split.
  - intros rate [H | H].
    + now apply generate_rejects_remainder_per_node.
    + now apply generate_rejects_remainder_per_period.
  - eapply generate_is_exact; eassumption.
  - eapply generate_is_exact; eassumption.
  - intros rate publisher label expiration bob kfrags public_key m Hlen Hrem.
    unfold BlockchainPolicy_init.
    set (self := mkBlockchainPolicy _ _ _ _).
    destruct (validation_outcome self) as [Hbad _].
    + cbn. lia.
    + exact Hp.
    + destruct Hbad as [msg E].
      * cbn. rewrite Hlen. exact Hrem.
      * exists msg. rewrite E. reflexivity.
  - intros rate publisher label expiration bob kfrags public_key m self
           Hlen Hinit.
    unfold BlockchainPolicy_init in Hinit.
    set (bp := mkBlockchainPolicy _ _ _ _) in Hinit.
    destruct (Z.eq_dec (payment_periods * (value / n / payment_periods) * n)
                       value) as [E | E]; [exact E|].
    destruct (validation_outcome bp) as [Hbad _].
    + cbn. lia.
    + exact Hp.
    + destruct Hbad as [msg E'].
      * cbn. rewrite Hlen. exact E.
      * rewrite E' in Hinit. discriminate.
Qed.

End FeeArithmetic.

(** Ten wei cannot be split among three peers: both entry points refuse
    it, each with its own error class. *)
Lemma uneven_value_is_rejected_witness :
  (exists msg, Policies.generate_policy_parameters 3 1 (Some 10) None
               = Raise (with_message InvalidPolicyValue msg))
  /\ (exists msg,
         @Policies.BlockchainPolicy_init
           Fixtures.bytes_umbral Fixtures.text_maya Fixtures.toy_crypto
           10 3 1 Fixtures.alice [x61] Fixtures.expiry Fixtures.bob
           [[x01]; [x02]; [x03]] Fixtures.alice_key 2
         = Raise (with_message ValueError msg)).
Proof.
  destruct (@uneven_value_is_rejected
              Fixtures.bytes_umbral Fixtures.text_maya Fixtures.toy_crypto
              3 1 10 ltac:(lia) ltac:(lia)) as (G & _ & C & _).
  split.
  - apply G. left. vm_compute. discriminate.
  - apply C; [reflexivity | vm_compute; discriminate].
Defined.

(** ** The publication quorum *)

Section Quorum.
Import PyFloat Concurrency Policies.

(** Rounding to the nearest integer moves a quotient by at most a half. *)
Lemma round_half_even_error n d :
  0 < d -> - d <= 2 * (d * round_half_even n d - n) <= d.
Proof.
  intros Hd. unfold round_half_even.
  pose proof (Z.div_mod n d ltac:(lia)) as E.
  pose proof (Z.mod_pos_bound n d Hd) as B.
  destruct (Z.ltb_spec (2 * (n mod d)) d).
  - nia.
  - destruct (Z.ltb_spec d (2 * (n mod d))).
    + nia.
    + destruct (Z.even (n / d)); nia.
Qed.

(** [math.ceil] of [m * 2 ^ (- s)] is the least integer above it. *)
Lemma ceil_of_negative_exponent m s :
  0 < s ->
  let c := math_ceil (mkFloat m (- s)) in
  2 ^ s * (c - 1) < m <= 2 ^ s * c.
Proof.
  intros Hs c. subst c. unfold math_ceil. cbn [exponent mantissa].
  destruct (Z.leb_spec 0 (- s)); [lia|].
  rewrite Z.opp_involutive.
  assert (HP : 0 < 2 ^ s) by (apply Z.pow_pos_nonneg; lia).
  pose proof (Z.div_mod (- m) (2 ^ s) ltac:(lia)) as E.
  pose proof (Z.mod_pos_bound (- m) (2 ^ s) HP) as B.
  nia.
Qed.

(** A dividend below [2 ^ 53] over 100 has at least six fraction bits. *)
Lemma quotient_exponent_small a :
  0 < a < 2 ^ 53 ->
  -59 <= quotient_exponent a 100 <= -6.
Proof.
  intros Ha. unfold quotient_exponent.
  assert (L0 : 0 <= Z.log2 a) by apply Z.log2_nonneg.
  assert (L1 : Z.log2 a < 53) by (apply Z.log2_lt_pow2; lia).
  change (Z.log2 100) with 6.
  destruct (scaled a 100 (Z.log2 a - 6 - 53)) as [n0 d0].
  destruct (n0 / d0 <? 2 ^ 53); lia.
Qed.

(** With six fraction bits the rounding error (at most [2 ^ -7]) is
    smaller than the distance [1 / 100] from a hundredth to the nearest
    integer, so the float's ceiling is the quotient's. *)
Lemma divide_by_100_then_ceil a :
  0 <= a < 2 ^ 53 ->
  exists x, int_true_divide a 100 = Return x
            /\ 100 * (math_ceil x - 1) < a <= 100 * math_ceil x.
Proof.
  intros Ha. unfold int_true_divide.
  change (100 =? 0) with false. cbv iota.
  destruct (Z.eqb_spec a 0) as [-> | Hnz].
  { eexists; split; [reflexivity|]. cbv. split; [reflexivity | discriminate]. }
  assert (Hpos : 0 < a < 2 ^ 53) by lia.
  rewrite (Z.abs_eq a) by lia. change (Z.abs 100) with 100.
  pose proof (quotient_exponent_small a Hpos) as He.
  unfold nearest_binary64.
  set (e := quotient_exponent a 100) in *.
  unfold scaled. destruct (Z.leb_spec 0 e); [lia|].
  unfold overflows. cbn [exponent mantissa].
  destruct (Z.ltb_spec 971 e); [lia|].
  destruct (Z.eqb_spec e 971); [lia|].
  cbn [orb andb].
  eexists; split; [reflexivity|].
  rewrite (Z.sgn_pos a) by lia. change (Z.sgn 100) with 1.
  rewrite !Z.mul_1_l.
  set (s := - e). replace e with (- s) by (unfold s; lia).
  set (m := round_half_even (a * 2 ^ s) 100).
  pose proof (ceil_of_negative_exponent m s ltac:(unfold s; lia)) as Hc.
  cbv zeta in Hc.
  set (c := math_ceil (mkFloat m (- s))) in *.
  pose proof (round_half_even_error (a * 2 ^ s) 100 ltac:(lia)) as Hr.
  fold m in Hr.
  assert (HP : 64 <= 2 ^ s).
  { change 64 with (2 ^ 6). apply Z.pow_le_mono_r; unfold s; lia. }
  set (P := 2 ^ s) in *. clearbody P m c. nia.
Qed.

Context {umbral : Umbral} {maya : Maya}.

(** C2. A publisher built over [total] nodes with a percentage between
    0 and 100 gets, as [_block_until_this_many_are_complete] and as its
    pool's [target_successes], the least integer [c] with
    [total * p <= 100 * c], that is the ceiling of [total * p / 100].
    (The bound on [total] keeps the float division exact enough; no list
    in memory comes near it.) *)
Theorem publisher_quorum_is_ceiling (treasure_map_bytes : bytes)
    (nodes : list Ursula) (network_middleware : RestMiddleware)
    (p threadpool_size timeout : Z) :
  let total := Z.of_nat (List.length nodes) in
  0 <= p <= 100 -> total < 2 ^ 46 ->
  exists publisher c,
    TreasureMapPublisher_init treasure_map_bytes nodes network_middleware
      p threadpool_size timeout = Return publisher
    /\ _total publisher = total
    /\ _block_until_this_many_are_complete publisher = c
    /\ target_successes (_worker_pool publisher) = c
    /\ 100 * (c - 1) < total * p <= 100 * c.
Proof.
  intros total Hp Htotal.
  assert (Hrange : 0 <= total * p < 2 ^ 53).
  { assert (0 <= total) by (unfold total; lia).
    change (2 ^ 53) with (128 * 2 ^ 46). nia. }
  destruct (divide_by_100_then_ceil (total * p) Hrange) as (x & Hdiv & Hceil).
  unfold TreasureMapPublisher_init. fold total. rewrite Hdiv. cbn [obind].
  eexists. exists (math_ceil x).
  split; [reflexivity|].
  cbn [_total _block_until_this_many_are_complete _worker_pool
       WorkerPool_init target_successes].
  repeat split; lia.
Qed.

End Quorum.

(** Twenty peers at the default five percent: the quorum is one. *)
Lemma quorum_of_twenty_peers_at_five_percent :
  exists publisher,
    Policies.TreasureMapPublisher_init [x61]
      (repeat Fixtures.ursula_1 20) Fixtures.mixed_middleware
      Policies.default_percent_to_complete_before_release
      Policies.default_threadpool_size Policies.default_timeout
    = Return publisher
    /\ Concurrency.target_successes (Policies._worker_pool publisher) = 1.
Proof.
  destruct (publisher_quorum_is_ceiling [x61]
              (repeat Fixtures.ursula_1 20) Fixtures.mixed_middleware
              Policies.default_percent_to_complete_before_release
              Policies.default_threadpool_size Policies.default_timeout)
    as (publisher & c & Hinit & _ & _ & Htarget & Hc).
  - unfold Policies.default_percent_to_complete_before_release. lia.
  - vm_compute. reflexivity.
  - exists publisher. split; [exact Hinit|].
    rewrite Htarget.
    change (Z.of_nat (List.length (repeat Fixtures.ursula_1 20))) with 20
      in Hc.
    unfold Policies.default_percent_to_complete_before_release in Hc. lia.
Defined.

(** ** Serialisation of an arrangement *)

Section Codec.
Import Splitter Policies.

Lemma Z_of_byte_of_Z z : Z_of_byte (byte_of_Z z) = z mod 256.
Proof.
  unfold Z_of_byte, byte_of_Z.
  pose proof (Z.mod_pos_bound z 256 ltac:(lia)) as B.
  pose proof (Byte.to_of_N_option_map (Z.to_N (z mod 256))) as H.
  destruct (N.leb_spec (Z.to_N (z mod 256)) 255) as [_ | Hgt]; [|lia].
  destruct (Byte.of_N (Z.to_N (z mod 256))) as [b|]; [|discriminate].
  cbn in H. injection H as ->. lia.
Qed.

Lemma int_from_bytes_snoc b x :
  int_from_bytes (b ++ [x]) = int_from_bytes b * 256 + Z_of_byte x.
Proof. unfold int_from_bytes. rewrite fold_left_app. reflexivity. Qed.

Lemma big_endian_length len n : List.length (big_endian len n) = len.
Proof.
  revert n. induction len as [|k IH]; intros n; cbn [big_endian].
  - reflexivity.
  - rewrite length_app, IH. cbn. lia.
Qed.

Lemma int_from_bytes_big_endian len n :
  0 <= n -> int_from_bytes (big_endian len n) = n mod 256 ^ Z.of_nat len.
Proof.
  revert n. induction len as [|k IH]; intros n Hn.
  - cbn. rewrite Z.mod_1_r. reflexivity.
  - cbn [big_endian]. rewrite int_from_bytes_snoc, Z_of_byte_of_Z.
    rewrite IH by (apply Z.div_pos; lia).
    rewrite Nat2Z.inj_succ, Z.pow_succ_r by lia.
    rewrite Z.rem_mul_r by (try lia; apply Z.pow_pos_nonneg; lia).
    lia.
Qed.

Lemma firstn_length_app (a b : bytes) : firstn (List.length a) (a ++ b) = a.
Proof. induction a as [|x a IH]; cbn; [reflexivity | now rewrite IH]. Qed.

Lemma skipn_length_app (a b : bytes) : skipn (List.length a) (a ++ b) = b.
Proof. induction a as [|x a IH]; cbn; [reflexivity | exact IH]. Qed.

Lemma take_app (a b : bytes) :
  take (List.length a) (a ++ b) = Return (a, b).
Proof.
  unfold take. rewrite length_app.
  destruct (Nat.ltb_spec (List.length a + List.length b) (List.length a));
    [lia|].
  now rewrite firstn_length_app, skipn_length_app.
Qed.

Lemma take_variable_framed (message rest : bytes) :
  Z.of_nat (List.length message) < 2 ^ 32 ->
  exists framed,
    VariableLengthBytestring_bytes message = Return framed
    /\ take_variable (framed ++ rest) = Return (message, rest).
Proof.
  intros Hlen. unfold VariableLengthBytestring_bytes, int_to_bytes.
  change (256 ^ Z.of_nat VARIABLE_HEADER_LENGTH) with (2 ^ 32).
  destruct (Z.leb_spec (2 ^ 32) (Z.of_nat (List.length message))); [lia|].
  cbn [obind]. eexists; split; [reflexivity|].
  unfold take_variable. rewrite <- app_assoc.
  set (header := big_endian VARIABLE_HEADER_LENGTH _).
  replace VARIABLE_HEADER_LENGTH with (List.length header) at 1
    by apply big_endian_length.
  rewrite take_app. cbn [obind fst snd].
  unfold header. rewrite int_from_bytes_big_endian by lia.
  change (256 ^ Z.of_nat VARIABLE_HEADER_LENGTH) with (2 ^ 32).
  rewrite Z.mod_small by lia. rewrite Nat2Z.id. apply take_app.
Qed.

Context {umbral : Umbral} {maya : Maya}.

(** C9. The bytes of an arrangement are determined by its publisher
    verifying key and its expiration, and [Arrangement.from_bytes] reads
    them back as the same key and the same expiration.  The hypotheses
    state what is asked of the collaborators at this arrangement: the
    key serialises to [key_splitter]'s length and parses back, the
    timestamp's ISO-8601 text parses back, and that text fits the
    four-byte length prefix. *)
Theorem arrangement_round_trip (a : Arrangement) :
  List.length (PublicKey_bytes (publisher_verifying_key a))
    = PublicKey_serialized_size ->
  PublicKey_from_bytes (PublicKey_bytes (publisher_verifying_key a))
    = Return (publisher_verifying_key a) ->
  from_iso8601_decoded (iso8601_encoded (expiration a))
    = Return (expiration a) ->
  Z.of_nat (List.length (iso8601_encoded (expiration a))) < 2 ^ 32 ->
  exists b,
    Arrangement_bytes a = Return b
    /\ Arrangement_from_bytes b = Return a
    /\ (forall a',
           publisher_verifying_key a' = publisher_verifying_key a ->
           expiration a' = expiration a ->
           Arrangement_bytes a' = Return b).
Proof.
  intros Hsize Hkey Htime Hlen.
  destruct (take_variable_framed (iso8601_encoded (expiration a)) [] Hlen)
    as (framed & Hframe & Htake).
  rewrite app_nil_r in Htake.
  exists (PublicKey_bytes (publisher_verifying_key a) ++ framed).
  assert (Hbytes : Arrangement_bytes a
                   = Return (PublicKey_bytes (publisher_verifying_key a)
                             ++ framed)).
  { unfold Arrangement_bytes. rewrite Hframe. reflexivity. }
  split; [exact Hbytes|]. split.
  - unfold Arrangement_from_bytes, splitter.
    rewrite <- Hsize, take_app. cbn [obind fst snd].
    rewrite Hkey. cbn [obind]. rewrite Htake. cbn [obind fst snd].
    rewrite Htime. cbn [obind]. destruct a; reflexivity.
  - intros a' Hk He. destruct a, a'; cbn in Hk, He. subst. exact Hbytes.
Qed.
End Codec.

(** The publisher's key with an expiry on 1 June 2021. *)
Lemma arrangement_round_trip_witness :
  exists b,
    Policies.Arrangement_bytes Fixtures.arrangement = Return b
    /\ Policies.Arrangement_from_bytes b = Return Fixtures.arrangement.
Proof.
  destruct (arrangement_round_trip Fixtures.arrangement)
    as (b & Hb & Hback & _).
  - reflexivity.
  - reflexivity.
  - reflexivity.
  - vm_compute. reflexivity.
  - exists b. split; assumption.
Defined.

(** ** Dictionaries *)

Section DictFacts.
Variables K V : Type.
Variable eqb : K -> K -> bool.
Hypothesis eqb_eq : forall x y, eqb x y = true <-> x = y.

Lemma eqb_refl_true k : eqb k k = true.
Proof. now apply eqb_eq. Qed.

Lemma eqb_neq_false k k' : k <> k' -> eqb k k' = false.
Proof.
  intros H. destruct (eqb k k') eqn:E; [|reflexivity].
  apply eqb_eq in E. contradiction.
Qed.

Lemma dict_get_set_same k (v : V) d :
  dict_get eqb k (dict_set eqb k v d) = Some v.
Proof.
  induction d as [|[k' v'] d IH]; cbn.
  - now rewrite eqb_refl_true.
  - destruct (eqb k k') eqn:E; cbn; rewrite E; [reflexivity | exact IH].
Qed.

Lemma dict_get_set_other k k' (v : V) d :
  k <> k' -> dict_get eqb k (dict_set eqb k' v d) = dict_get eqb k d.
Proof.
  intros Hne. induction d as [|[k'' v''] d IH]; cbn.
  - now rewrite eqb_neq_false.
  - destruct (eqb k' k'') eqn:E; cbn.
    + apply eqb_eq in E. subst k''. now rewrite eqb_neq_false.
    + now rewrite IH.
Qed.

Lemma dict_set_fresh k (v : V) d :
  ~ In k (map fst d) -> dict_set eqb k v d = d ++ [(k, v)].
Proof.
  induction d as [|[k' v'] d IH]; cbn; intros Hfresh.
  - reflexivity.
  - rewrite eqb_neq_false by intuition congruence.
    rewrite IH by tauto. reflexivity.
Qed.

Lemma dict_of_items_from acc (items : list (K * V)) :
  NoDup (map fst (acc ++ items)) ->
  fold_left (fun d kv => dict_set eqb (fst kv) (snd kv) d) items acc
  = acc ++ items.
Proof.
  revert acc. induction items as [|[k v] items IH]; intros acc Hnd; cbn.
  - now rewrite app_nil_r.
  - rewrite dict_set_fresh.
    + rewrite IH; rewrite <- app_assoc; [reflexivity | exact Hnd].
    + rewrite map_app in Hnd. cbn in Hnd.
      apply NoDup_remove_2 in Hnd. intros Hin. apply Hnd.
      apply in_or_app. now left.
Qed.

Lemma dict_of_items_distinct (items : list (K * V)) :
  NoDup (map fst items) -> dict_of_items eqb items = items.
Proof. intros H. unfold dict_of_items. now rewrite dict_of_items_from. Qed.

End DictFacts.

(** ** Publication of the treasure map *)

Section Publication.
Import Concurrency Policies Terms.
Context {umbral : Umbral} {maya : Maya}.

(** With pairwise distinct peer addresses the per-address dictionary
    [responses] lists the successes one for one. *)
Lemma publication_outcome self view log quorum :
  block_until_target_successes view = Return quorum ->
  let successes := get_successes view 1 in
  NoDup (map (fun us => checksum_address (fst us)) successes) ->
  fst (block_until_success_is_reasonably_likely self view log)
  = if forallb accepted (map snd successes)
    then Return (get_successes view 0)
    else if existsb unpaid (map snd successes)
         then Raise (bare Unpaid)
         else Raise (with_message EnactmentError
                       (status_report successes)).
Proof.
  intros Hblock successes Hdistinct.
  unfold block_until_success_is_reasonably_likely.
  unfold bind at 1. unfold lift. rewrite Hblock.
  unfold bind at 1. unfold emit at 1.
  fold successes. unfold dict_items.
  rewrite dict_of_items_distinct.
  2: apply String.eqb_eq.
  2: { rewrite map_map. exact Hdistinct. }
  unfold dict_values. rewrite !map_map. cbn [fst snd].
  change (map (fun x : Ursula * Response => snd x) successes)
    with (map snd successes).
  change (forallb (fun response => status_code response =? 201))
    with (forallb accepted).
  change (existsb (fun response => status_code response =? 402))
    with (existsb unpaid).
  destruct (forallb accepted (map snd successes)); cbn [negb].
  - reflexivity.
  - unfold bind, emit.
    destruct (existsb unpaid (map snd successes)); reflexivity.
Qed.

(** C1. Once [block_until_target_successes] has returned (the minimum
    quorum of delivery attempts is complete), and the recorded peers
    having pairwise distinct addresses,
    [block_until_success_is_reasonably_likely] returns the completed
    set when every recorded success has status 201; raises [Unpaid] when
    at least one has status 402; and raises [EnactmentError] with the
    per-peer status report when some status is not 201 and none is
    402. *)
Theorem publication_verdict self view log quorum :
  block_until_target_successes view = Return quorum ->
  let completed := get_successes view 0 in
  let successes := get_successes view 1 in
  NoDup (map (fun us => checksum_address (fst us)) successes) ->
  let outcome :=
    fst (block_until_success_is_reasonably_likely self view log) in
  ((forall u r, In (u, r) successes -> status_code r = 201) ->
   outcome = Return completed)
  /\ ((exists u r, In (u, r) successes /\ status_code r = 402) ->
      outcome = Raise (bare Unpaid))
  /\ ((exists u r, In (u, r) successes /\ status_code r <> 201) ->
      (forall u r, In (u, r) successes -> status_code r <> 402) ->
      outcome = Raise (with_message EnactmentError
                         (status_report successes))).
Proof.
  intros Hblock completed successes Hdistinct outcome.
  assert (Hout := publication_outcome self view log quorum Hblock Hdistinct).
  fold successes outcome in Hout.
  assert (Hall : forallb accepted (map snd successes) = true
                 <-> forall u r, In (u, r) successes -> status_code r = 201).
  { rewrite forallb_forall. split.
    - intros H u r Hin. apply Z.eqb_eq. apply (H r).
      apply in_map_iff. now exists (u, r).
    - intros H r Hin. apply in_map_iff in Hin.
      destruct Hin as ([u r'] & <- & Hin). apply Z.eqb_eq. eapply H; eauto. }
  assert (Hany : existsb unpaid (map snd successes) = true
                 <-> exists u r, In (u, r) successes /\ status_code r = 402).
  { rewrite existsb_exists. split.
    - intros (r & Hin & Hr). apply in_map_iff in Hin.
      destruct Hin as ([u r'] & <- & Hin).
      exists u, r'. split; [exact Hin | now apply Z.eqb_eq].
    - intros (u & r & Hin & Hr). exists r. split.
      + apply in_map_iff. now exists (u, r).
      + now apply Z.eqb_eq. }
  repeat split.
  - intros H. apply Hall in H. now rewrite H in Hout.
  - intros H. pose proof H as (u & r & Hin & Hr).
    destruct (forallb accepted (map snd successes)) eqn:E.
    + pose proof (proj1 Hall eq_refl u r Hin). lia.
    + apply Hany in H. now rewrite H in Hout.
  - intros (u & r & Hin & Hr) Hnone.
    destruct (forallb accepted (map snd successes)) eqn:E.
    + pose proof (proj1 Hall eq_refl u r Hin). contradiction.
    + destruct (existsb unpaid (map snd successes)) eqn:E'.
      * destruct (proj1 Hany eq_refl) as (u' & r' & Hin' & Hr').
        now apply Hnone in Hin'.
      * exact Hout.
Qed.
End Publication.

(** Three peers at the quorum, the second answering 402: the caller
    sees [Unpaid]. *)
Lemma one_unpaid_peer_at_quorum :
  fst (Policies.block_until_success_is_reasonably_likely
         Fixtures.publisher_of_three
         (Fixtures.settled
            [(Fixtures.ursula_1, Fixtures.created);
             (Fixtures.ursula_2, Fixtures.payment_required);
             (Fixtures.ursula_3, Fixtures.created)])
         [])
  = Raise (bare Unpaid).
Proof.
  refine (proj1 (proj2 (publication_verdict Fixtures.publisher_of_three
                          (Fixtures.settled _) [] _ eq_refl _)) _).
  - cbn. repeat constructor; cbn; intuition discriminate.
  - exists Fixtures.ursula_2, Fixtures.payment_required.
    split; [cbn; tauto | reflexivity].
Defined.

(** ** Arrangement proposals *)

Section Proposal.
Import Concurrency Policies Terms.
Context {umbral : Umbral} {maya : Maya} {crypto : CryptoUtils}.

(** The outcome of one proposal, by the status of the answer. *)
Lemma proposal_outcome self address network_middleware ursula response log :
  dict_get String.eqb address (known_nodes (publisher self)) = Some ursula ->
  let arrangement :=
    Arrangement_from_publisher (publisher self) (policy_expiration self) in
  mw_propose_arrangement network_middleware ursula arrangement
    = Return response ->
  fst (_propose_arrangement self address network_middleware log)
  = if status_code response =? 200
    then message <-- Arrangement_bytes arrangement ;;
         signature <-- Signature_from_bytes (content response) ;;
         _ <-- verify_from (publisher self) ursula message signature ;;
         Return (ursula, arrangement)
    else Raise (with_message RuntimeError
                  ("Proposing arrangement to " +++ ursula_str ursula
                   +++ " failed with " +++ str_int (status_code response))).
Proof.
  intros Hknown arrangement Hanswer.
  unfold _propose_arrangement. rewrite Hknown. fold arrangement.
  unfold bind at 1. unfold emit at 1.
  unfold bind at 1. unfold lift at 1. rewrite Hanswer.
  destruct (status_code response =? 200).
  - unfold bind, lift, emit, ret.
    destruct (Arrangement_bytes arrangement) as [message|]; cbn [obind];
      [|reflexivity].
    destruct (Signature_from_bytes (content response)) as [signature|];
      cbn [obind]; [|reflexivity].
    destruct (verify_from (publisher self) ursula message signature)
      as [[]|]; reflexivity.
  - reflexivity.
Qed.

(** C4, as amended. The two calls read the status code differently.
    A proposal is accepted on status 200 only (and then exactly when the
    signature parses and verifies); any other status, 201 included, is a
    failed proposal raising [RuntimeError].  A publication is accepted
    on status 201 only; 402 is "payment required" ([Unpaid]); any other
    status, 200 included, is a generic rejection ([EnactmentError]). *)
Theorem status_codes_by_call :
  (forall self address network_middleware ursula response log,
      dict_get String.eqb address (known_nodes (publisher self))
        = Some ursula ->
      let arrangement :=
        Arrangement_from_publisher (publisher self) (policy_expiration self) in
      mw_propose_arrangement network_middleware ursula arrangement
        = Return response ->
      let outcome :=
        fst (_propose_arrangement self address network_middleware log) in
      (status_code response = 200 ->
       outcome
       = (message <-- Arrangement_bytes arrangement ;;
          signature <-- Signature_from_bytes (content response) ;;
          _ <-- verify_from (publisher self) ursula message signature ;;
          Return (ursula, arrangement)))
      /\ (status_code response <> 200 ->
          outcome
          = Raise (with_message RuntimeError
                     ("Proposing arrangement to " +++ ursula_str ursula
                      +++ " failed with "
                      +++ str_int (status_code response)))))
  /\ (forall self view log quorum peer response,
         block_until_target_successes view = Return quorum ->
         get_successes view 1 = [(peer, response)] ->
         let outcome :=
           fst (block_until_success_is_reasonably_likely self view log) in
         (status_code response = 201 ->
          outcome = Return (get_successes view 0))
         /\ (status_code response = 402 -> outcome = Raise (bare Unpaid))
         /\ (status_code response <> 201 -> status_code response <> 402 ->
             outcome = Raise (with_message EnactmentError
                                (report_line (peer, response))))).
Proof.
  split.
  - intros self address network_middleware ursula response log Hknown
           arrangement Hanswer outcome.
    pose proof (proposal_outcome self address network_middleware ursula
                  response log Hknown Hanswer) as Hout.
    fold arrangement outcome in Hout.
    split; intros Hs.
    + rewrite Hs in Hout. exact Hout.
    + destruct (Z.eqb_spec (status_code response) 200); [contradiction|].
      exact Hout.
  - intros self view log quorum peer response Hblock Hsnap outcome.
    pose proof (publication_outcome self view log quorum Hblock) as Hout.
    cbv zeta in Hout. rewrite Hsnap in Hout.
    specialize (Hout ltac:(cbn; repeat constructor; cbn; tauto)).
    fold outcome in Hout. cbn [map snd forallb existsb] in Hout.
    unfold accepted, unpaid, status_report in Hout.
    cbn [map join String.concat] in Hout.
    rewrite andb_true_r, orb_false_r in Hout.
    repeat split.
    + intros Hs. rewrite Hs in Hout. exact Hout.
    + intros Hs. rewrite Hs in Hout. exact Hout.
    + intros H1 H2.
      destruct (Z.eqb_spec (status_code response) 201); [contradiction|].
      destruct (Z.eqb_spec (status_code response) 402); [contradiction|].
      exact Hout.
Qed.

(** C3, as amended. When fewer than [n] nodes accepted,
    [_make_arrangements] raises the error of the policy's class,
    [NotEnoughUrsulas] for a federated policy and
    [NotEnoughBlockchainUrsulas] for a blockchain policy, with no
    argument; the accepted and the rejected addresses are written to the
    debug log just before. *)
Theorem not_enough_peers_error self run log successes :
  made_reservoir run = Return tt ->
  learned_nodes run = Return tt ->
  successes_after_blocking (proposal_pool run) = Return successes ->
  let accepted := accepted_arrangements_of successes in
  dict_len accepted < policy_n (as_policy self) ->
  _make_arrangements self run log
  = (Raise (bare (_not_enough_ursulas_exception self)),
     log ++ [not_enough_entry accepted (get_failures (proposal_pool run))])
  /\ _not_enough_ursulas_exception self
     = match self with
       | Federated _ => NotEnoughUrsulas
       | Blockchain _ => NotEnoughBlockchainUrsulas
       end.
Proof.
  intros Hres Hlearn Hsucc accepted Hfew.
  split; [|destruct self; reflexivity].
  unfold _make_arrangements.
  unfold bind at 1. unfold lift at 1. rewrite Hres.
  unfold bind at 1. unfold lift at 1. rewrite Hlearn.
  unfold bind at 1. unfold lift at 1. rewrite Hsucc.
  fold (accepted_arrangements_of successes). fold accepted.
  destruct (Z.ltb_spec (dict_len accepted) (policy_n (as_policy self)));
    [|lia].
  reflexivity.
Qed.
End Proposal.

(** A proposal answered with 201 is refused, and a publication answered
    with 200 is a generic rejection: neither call accepts both codes. *)
Lemma proposal_answered_201_is_refused :
  fst (Policies._propose_arrangement Fixtures.one_share_policy "0xA1"
         (Fixtures.answering Fixtures.created Fixtures.created) [])
  = Raise (with_message RuntimeError
             "Proposing arrangement to Ursula-1 failed with 201")
  /\ fst (Policies.block_until_success_is_reasonably_likely
            Fixtures.publisher_of_three
            (Fixtures.settled [(Fixtures.ursula_1, Fixtures.ok)]) [])
     = Raise (with_message EnactmentError "0xA1: <Response [200]>").
Proof. split; vm_compute; reflexivity. Qed.

(** A proposal answered with 200 is accepted; a publication answered
    with 402 is unpaid. *)
Lemma status_codes_by_call_witness :
  fst (Policies._propose_arrangement Fixtures.one_share_policy "0xA1"
         (Fixtures.answering Fixtures.ok Fixtures.created) [])
  = Return (Fixtures.ursula_1, Fixtures.arrangement)
  /\ fst (Policies.block_until_success_is_reasonably_likely
            Fixtures.publisher_of_three
            (Fixtures.settled
               [(Fixtures.ursula_2, Fixtures.payment_required)]) [])
     = Raise (bare Unpaid).
Proof.
  destruct (@status_codes_by_call Fixtures.bytes_umbral Fixtures.text_maya)
    as [Hpropose Hpublish].
  split.
  - refine (proj1 (Hpropose Fixtures.one_share_policy "0xA1"%string
                     (Fixtures.answering Fixtures.ok Fixtures.created)
                     Fixtures.ursula_1 Fixtures.ok [] eq_refl eq_refl)
                  eq_refl).
  - refine (proj1 (proj2 (Hpublish Fixtures.publisher_of_three
                            (Fixtures.settled _) [] _
                            Fixtures.ursula_2 Fixtures.payment_required
                            eq_refl eq_refl))
                  eq_refl).
Defined.

(** One node of two accepted, one refused: the error that is raised
    has no argument, so it names neither address. *)
Lemma not_enough_peers_error_is_bare :
  fst (Policies._make_arrangements
         (Policies.Federated Fixtures.two_share_policy)
         Fixtures.short_run [])
  = Raise (mkExc NotEnoughUrsulas []).
Proof. vm_compute. reflexivity. Qed.

(** The same run: the addresses are in the debug log. *)
Lemma not_enough_peers_error_witness :
  Policies._make_arrangements
    (Policies.Federated Fixtures.two_share_policy) Fixtures.short_run []
  = (Raise (bare NotEnoughUrsulas),
     [Terms.not_enough_entry
        [(Fixtures.ursula_2, Fixtures.arrangement)]
        [("0xA1"%string,
          with_message RuntimeError
            "Proposing arrangement to Ursula-1 failed with 404")]]).
Proof.
  refine (proj1 (not_enough_peers_error
                   (Policies.Federated Fixtures.two_share_policy)
                   Fixtures.short_run []
                   [("0xA2"%string, (Fixtures.ursula_2, Fixtures.arrangement))]
                   eq_refl eq_refl eq_refl _)).
  vm_compute. reflexivity.
Defined.

(** ** What the pool records of a publication *)

Section Recording.
Import Concurrency Policies Terms.
Context {umbral : Umbral} {maya : Maya}.

Lemma Ursula_eqb_eq u v : Ursula_eqb u v = true <-> u = v.
Proof.
  unfold Ursula_eqb. rewrite andb_true_iff, !String.eqb_eq.
  destruct u, v; cbn. split; [intros [-> ->] | intros [= -> ->]]; auto.
Qed.

Variable network_middleware : RestMiddleware.
Variable treasure_map_bytes : bytes.

Local Abbreviation sent := (Terms.sent network_middleware treasure_map_bytes).
Local Abbreviation delivered :=
  (Terms.delivered network_middleware treasure_map_bytes).
Local Abbreviation put :=
  (put_treasure_map_on_node network_middleware treasure_map_bytes).
Local Abbreviation warnings_of :=
  (Terms.warnings_of network_middleware treasure_map_bytes).
Local Abbreviation record_success :=
  (Terms.record_success network_middleware treasure_map_bytes).
Local Abbreviation record_failure :=
  (Terms.record_failure network_middleware treasure_map_bytes).

(** What the worker does on one node, by the transport's answer. *)
Lemma put_outcome node log :
  put node log = (delivered node, log ++ warnings_of node).
Proof.
  unfold put, put_treasure_map_on_node, delivered, warnings_of.
  fold (sent node).
  destruct (sent node) as [response | e]; [|reflexivity].
  destruct (status_code response =? 201); cbn [negb].
  - cbn. now rewrite app_nil_r.
  - unfold bind, lift, getattr_status, ret, emit.
    destruct (status response); [reflexivity|].
    now rewrite app_nil_r.
Qed.

Lemma run_tasks_put pool nodes log :
  worker pool = put ->
  let '(pool', log') := run_tasks Ursula_eqb pool nodes log in
  successes pool' = fold_left record_success nodes (successes pool)
  /\ failures pool' = fold_left record_failure nodes (failures pool)
  /\ log' = log ++ flat_map warnings_of nodes.
Proof.
  revert pool log. induction nodes as [|node nodes IH]; intros pool log Hput.
  - cbn. now rewrite app_nil_r.
  - cbn [run_tasks]. unfold run_task. rewrite Hput, put_outcome.
    cbn [fold_left flat_map]. unfold record_success at 2, record_failure at 2.
    destruct (delivered node) as [response | e].
    + match goal with |- context [run_tasks _ ?p _ ?l] =>
        specialize (IH p l eq_refl); destruct (run_tasks Ursula_eqb p nodes l)
      end.
      cbn [successes failures] in IH. now rewrite <- app_assoc in IH.
    + match goal with |- context [run_tasks _ ?p _ ?l] =>
        specialize (IH p l eq_refl); destruct (run_tasks Ursula_eqb p nodes l)
      end.
      cbn [successes failures] in IH. now rewrite <- app_assoc in IH.
Qed.

Lemma recorded_failure node e nodes d :
  delivered node = Raise e ->
  In node nodes \/ dict_get Ursula_eqb node d = Some e ->
  dict_get Ursula_eqb node (fold_left record_failure nodes d) = Some e.
Proof.
  intros Hsent. revert d. induction nodes as [|v nodes IH]; intros d Hin.
  - destruct Hin as [[] | H]. exact H.
  - cbn [fold_left]. apply IH.
    destruct Hin as [[-> | Hin] | Hd].
    + right. unfold record_failure. rewrite Hsent.
      apply dict_get_set_same, Ursula_eqb_eq.
    + now left.
    + right. unfold record_failure.
      destruct (delivered v) as [r | e'] eqn:Ev; [exact Hd|].
      destruct (Ursula_eqb node v) eqn:E.
      * apply Ursula_eqb_eq in E. subst v.
        rewrite Hsent in Ev. injection Ev as <-.
        apply dict_get_set_same, Ursula_eqb_eq.
      * rewrite dict_get_set_other; [exact Hd | apply Ursula_eqb_eq |].
        intros ->. rewrite (proj2 (Ursula_eqb_eq v v) eq_refl) in E.
        discriminate.
Qed.

Lemma never_a_success node e nodes d :
  delivered node = Raise e ->
  dict_get Ursula_eqb node (fold_left record_success nodes d)
  = dict_get Ursula_eqb node d.
Proof.
  intros Hsent. revert d. induction nodes as [|v nodes IH]; intros d.
  - reflexivity.
  - cbn [fold_left]. rewrite IH. unfold record_success.
    destruct (delivered v) as [r | e'] eqn:Ev; [|reflexivity].
    apply dict_get_set_other; [apply Ursula_eqb_eq|].
    intros ->. rewrite Hsent in Ev. discriminate.
Qed.

(** C7, the defect.  A node is reached and answers with a status code
    other than 201, in a response that has no attribute [status].  The
    worker then raises [AttributeError] where it builds the message of
    its warning, and has logged nothing.  Run to completion, the pool of
    the publisher records the node as a failure with that error and not
    as a success. *)
Theorem answer_without_status_is_a_recorded_failure (nodes : list Ursula)
    (p threadpool_size timeout : Z) (publisher : TreasureMapPublisher)
    (log : Log) (node : Ursula) (response : Response) :
  TreasureMapPublisher_init treasure_map_bytes nodes network_middleware
    p threadpool_size timeout = Return publisher ->
  In node nodes ->
  mw_put_treasure_map_on_node network_middleware node treasure_map_bytes
    = Return response ->
  status_code response <> 201 ->
  status response = None ->
  let pool := _worker_pool publisher in
  let done := run_to_completion Ursula_eqb pool log in
  (forall l, worker pool node l = (Raise no_status_attribute, l))
  /\ dict_get Ursula_eqb node (failures (fst done))
     = Some no_status_attribute
  /\ dict_get Ursula_eqb node (successes (fst done)) = None.
Proof.
  intros Hinit Hin Hsent Hcode Hstatus pool done.
  unfold TreasureMapPublisher_init in Hinit.
  destruct (PyFloat.int_true_divide _ 100) as [x|]; [|discriminate].
  cbn [obind] in Hinit. injection Hinit as <-.
  cbn [_worker_pool] in pool.
  assert (Hworker : worker pool = put) by reflexivity.
  assert (Hdelivered : delivered node = Raise no_status_attribute).
  { unfold delivered, Terms.sent. rewrite Hsent.
    destruct (Z.eqb_spec (status_code response) 201); [contradiction|].
    now rewrite Hstatus. }
  assert (Hquiet : warnings_of node = []).
  { unfold warnings_of, Terms.sent. rewrite Hsent.
    destruct (Z.eqb_spec (status_code response) 201); [contradiction|].
    now rewrite Hstatus. }
  split; [|split].
  - intros l. rewrite Hworker, put_outcome, Hdelivered, Hquiet.
    now rewrite app_nil_r.
  - pose proof (run_tasks_put pool nodes log Hworker) as Hrun.
    change (run_tasks Ursula_eqb pool nodes log) with done in Hrun.
    destruct done as [pool' log']. destruct Hrun as (_ & Hf & _).
    cbn [fst]. rewrite Hf.
    apply recorded_failure; [exact Hdelivered | now left].
  - pose proof (run_tasks_put pool nodes log Hworker) as Hrun.
    change (run_tasks Ursula_eqb pool nodes log) with done in Hrun.
    destruct done as [pool' log']. destruct Hrun as (Hs & _ & _).
    cbn [fst]. rewrite Hs.
    now rewrite (never_a_success node no_status_attribute).
Qed.

End Recording.

(** Three nodes: the first accepts, the third cannot be reached, and
    the second answers 402 in a response without the attribute
    [status].  The second is recorded as a failure too. *)
Lemma answer_without_status_is_a_recorded_failure_witness :
  exists publisher,
    Policies.TreasureMapPublisher_init [x61]
      [Fixtures.ursula_1; Fixtures.ursula_2; Fixtures.ursula_3]
      Fixtures.requests_middleware 5 120 20 = Return publisher
    /\ dict_get Policies.Ursula_eqb Fixtures.ursula_2
         (Concurrency.failures
            (fst (Concurrency.run_to_completion Policies.Ursula_eqb
                    (Policies._worker_pool publisher) [])))
       = Some Terms.no_status_attribute
    /\ dict_get Policies.Ursula_eqb Fixtures.ursula_2
         (Concurrency.successes
            (fst (Concurrency.run_to_completion Policies.Ursula_eqb
                    (Policies._worker_pool publisher) [])))
       = None.
Proof.
  destruct (Policies.TreasureMapPublisher_init [x61]
              [Fixtures.ursula_1; Fixtures.ursula_2; Fixtures.ursula_3]
              Fixtures.requests_middleware 5 120 20)
    as [publisher|] eqn:Hinit; [|vm_compute in Hinit; discriminate].
  exists publisher. split; [reflexivity|].
  destruct (@answer_without_status_is_a_recorded_failure
              Fixtures.bytes_umbral Fixtures.text_maya
              Fixtures.requests_middleware [x61]
              [Fixtures.ursula_1; Fixtures.ursula_2; Fixtures.ursula_3]
              5 120 20 publisher [] Fixtures.ursula_2
              (Fixtures.requests_response 402)
              Hinit (or_intror (or_introl eq_refl)) eq_refl
              ltac:(cbn; lia) eq_refl)
    as (_ & Hfailure & Hsuccess).
  split; [exact Hfailure | exact Hsuccess].
Defined.

(** ** Detection of the external address *)

Section Cascade.
Import Networking NetworkTerms.
Variable world : World.

Lemma oblivious_ret {A} (a : A) : oblivious (ret a).
Proof. intros t. cbn. now rewrite app_nil_r. Qed.

Lemma oblivious_raise {A} e : oblivious (@raise _ A e).
Proof. intros t. cbn. now rewrite app_nil_r. Qed.

Lemma oblivious_perform ev : oblivious (perform ev).
Proof. intros t. reflexivity. Qed.

Lemma oblivious_bind {A B} (c : IO A) (k : A -> IO B) :
  oblivious c -> (forall a, oblivious (k a)) -> oblivious (bind c k).
Proof.
  intros Hc Hk t. unfold bind. rewrite (Hc t).
  destruct (c []) as [[a | e] tc]; cbn [fst snd].
  - rewrite (Hk a (t ++ tc)), (Hk a tc). cbn [fst snd].
    now rewrite app_assoc.
  - reflexivity.
Qed.

Lemma oblivious_url_source url certificate :
  oblivious (get_external_ip_from_url_source world url certificate).
Proof.
  unfold get_external_ip_from_url_source.
  apply oblivious_bind; [apply oblivious_perform | intros _].
  destruct (requests_get world url certificate) as [e | e | response].
  - apply oblivious_ret.
  - apply oblivious_raise.
  - destruct (status_code response =? 200); apply oblivious_ret.
Qed.

Lemma oblivious_first_reply sample : oblivious (first_reply world sample).
Proof.
  induction sample as [|node rest IH]; cbn [first_reply].
  - apply oblivious_ret.
  - apply oblivious_bind; [apply oblivious_url_source | intros ip].
    destruct (str_truthy ip); [apply oblivious_ret | exact IH].
Qed.

Lemma oblivious_known_nodes known_nodes k :
  oblivious (get_external_ip_from_known_nodes world known_nodes k).
Proof.
  unfold get_external_ip_from_known_nodes, random_sample.
  apply oblivious_bind; [|intros; apply oblivious_first_reply].
  destruct (_ <? _)%nat; [apply oblivious_raise | apply oblivious_ret].
Qed.

Lemma oblivious_teacher network federated_only :
  oblivious (get_external_ip_from_default_teacher world network federated_only).
Proof.
  unfold get_external_ip_from_default_teacher.
  destruct (dict_get _ _ _) as [[|top rest]|]; try apply oblivious_ret.
  apply oblivious_bind; [apply oblivious_perform | intros _].
  destruct (from_teacher_uri _ _ _ _) as [e | e | teacher];
    try apply oblivious_raise.
  apply oblivious_bind; [apply oblivious_perform | intros _].
  destruct (ping world teacher) as [e | e | response];
    try apply oblivious_raise.
  destruct (status_code response =? 200); apply oblivious_ret.
Qed.

Lemma oblivious_centralized :
  oblivious (get_external_ip_from_centralized_source world).
Proof.
  unfold get_external_ip_from_centralized_source.
  apply oblivious_bind; [apply oblivious_url_source | intros; apply oblivious_ret].
Qed.

Lemma oblivious_sources network known_nodes :
  Forall oblivious (sources world network known_nodes).
Proof.
  unfold sources. apply Forall_app. split.
  - destruct (nodes_truthy known_nodes); repeat constructor.
    apply oblivious_known_nodes.
  - repeat constructor; [apply oblivious_teacher | apply oblivious_centralized].
Qed.

Lemma sober_ret {A} (a : A) : sober (ret a).
Proof. intros t e. discriminate. Qed.

Lemma sober_perform ev : sober (perform ev).
Proof. intros t e. discriminate. Qed.

Lemma sober_foreign {A} e : sober (@raise _ A (foreign e)).
Proof. intros t e' [= <-]. discriminate. Qed.

Lemma sober_bind {A B} (c : IO A) (k : A -> IO B) :
  sober c -> (forall a, sober (k a)) -> sober (bind c k).
Proof.
  intros Hc Hk t e. unfold bind.
  destruct (c t) as [[a | e'] tc] eqn:E.
  - apply Hk.
  - cbn. intros [= <-]. apply (Hc t). now rewrite E.
Qed.

Lemma sober_url_source url certificate :
  sober (get_external_ip_from_url_source world url certificate).
Proof.
  unfold get_external_ip_from_url_source.
  apply sober_bind; [apply sober_perform | intros _].
  destruct (requests_get world url certificate) as [e | e | response].
  - apply sober_ret.
  - apply sober_foreign.
  - destruct (status_code response =? 200); apply sober_ret.
Qed.

Lemma sober_first_reply sample : sober (first_reply world sample).
Proof.
  induction sample as [|node rest IH]; cbn [first_reply].
  - apply sober_ret.
  - apply sober_bind; [apply sober_url_source | intros ip].
    destruct (str_truthy ip); [apply sober_ret | exact IH].
Qed.

Lemma sober_known_nodes known_nodes k :
  sober (get_external_ip_from_known_nodes world known_nodes k).
Proof.
  unfold get_external_ip_from_known_nodes, random_sample.
  apply sober_bind; [|intros; apply sober_first_reply].
  destruct (_ <? _)%nat; [|apply sober_ret].
  intros t e [= <-]. discriminate.
Qed.

Lemma sober_teacher network federated_only :
  sober (get_external_ip_from_default_teacher world network federated_only).
Proof.
  unfold get_external_ip_from_default_teacher.
  destruct (dict_get _ _ _) as [[|top rest]|]; try apply sober_ret.
  apply sober_bind; [apply sober_perform | intros _].
  destruct (from_teacher_uri _ _ _ _) as [e | e | teacher];
    try apply sober_foreign.
  apply sober_bind; [apply sober_perform | intros _].
  destruct (ping world teacher) as [e | e | response];
    try apply sober_foreign.
  destruct (status_code response =? 200); apply sober_ret.
Qed.

Lemma sober_centralized :
  sober (get_external_ip_from_centralized_source world).
Proof.
  unfold get_external_ip_from_centralized_source.
  apply sober_bind; [apply sober_url_source | intros; apply sober_ret].
Qed.

Lemma sober_sources network known_nodes :
  Forall sober (sources world network known_nodes).
Proof.
  unfold sources. apply Forall_app. split.
  - destruct (nodes_truthy known_nodes); repeat constructor.
    apply sober_known_nodes.
  - repeat constructor; [apply sober_teacher | apply sober_centralized].
Qed.

(** The function is the cascade over its sources. *)
Lemma determine_is_first_host network known_nodes t :
  determine_external_ip_address world network known_nodes t
  = first_host (sources world network known_nodes) t.
Proof.
  unfold determine_external_ip_address, sources.
  destruct (nodes_truthy known_nodes); cbn [app first_host];
    unfold bind, ret, raise.
  - destruct (get_external_ip_from_known_nodes _ _ _ t) as [[h1 | e] t1];
      [|reflexivity].
    destruct (str_truthy h1) eqn:E1; settle.
    destruct (get_external_ip_from_default_teacher _ _ _ t1)
      as [[h2 | e] t2]; [|reflexivity].
    destruct (str_truthy h2) eqn:E2; settle.
    destruct (get_external_ip_from_centralized_source _ t2)
      as [[h3 | e] t3]; [|reflexivity].
    destruct (str_truthy h3) eqn:E3; settle.
  - cbn [str_truthy negb].
    destruct (get_external_ip_from_default_teacher _ _ _ t)
      as [[h2 | e] t2]; [|reflexivity].
    destruct (str_truthy h2) eqn:E2; settle.
    destruct (get_external_ip_from_centralized_source _ t2)
      as [[h3 | e] t3]; [|reflexivity].
    destruct (str_truthy h3) eqn:E3; settle.
Qed.

Lemma oblivious_first_host srcs :
  Forall oblivious srcs -> oblivious (first_host srcs).
Proof.
  induction 1 as [|s rest Hs Hrest IH]; cbn [first_host].
  - apply oblivious_raise.
  - apply oblivious_bind; [exact Hs | intros h].
    destruct (str_truthy h); [apply oblivious_ret | exact IH].
Qed.

(** One step of the cascade, by the answer of its first source. *)
Lemma first_host_step s rest :
  oblivious s -> Forall oblivious rest ->
  first_host (s :: rest) []
  = match answer s with
    | Return host =>
        if str_truthy host then (Return host, traffic s)
        else (fst (first_host rest []),
              traffic s ++ snd (first_host rest []))
    | Raise e => (Raise e, traffic s)
    end.
Proof.
  intros Hs Hrest. cbn [first_host]. unfold bind, answer, traffic.
  destruct (s []) as [[host | e] ts]; cbn [fst snd]; [|reflexivity].
  destruct (str_truthy host); [reflexivity|].
  apply (oblivious_first_host rest Hrest).
Qed.

Lemma first_host_returns srcs host :
  Forall oblivious srcs ->
  fst (first_host srcs []) = Return host ->
  str_truthy host = true
  /\ exists before source after,
       srcs = before ++ source :: after
       /\ Forall yields_no_host before
       /\ answer source = Return host
       /\ snd (first_host srcs []) = flat_map traffic before ++ traffic source.
Proof.
  induction 1 as [|s rest Hs Hrest IH]; [discriminate|].
  rewrite (first_host_step s rest Hs Hrest).
  destruct (answer s) as [h | e] eqn:Ea; [|discriminate].
  destruct (str_truthy h) eqn:Eh; cbn [fst snd].
  - intros [= ->]. split; [exact Eh|].
    exists [], s, rest. cbn. repeat split; auto.
  - intros Hrest_answer. destruct (IH Hrest_answer)
      as (Htruthy & before & source & after & -> & Hnone & Hans & Htraffic).
    split; [exact Htruthy|].
    exists (s :: before), source, after. repeat split.
    + constructor; [now exists h | exact Hnone].
    + exact Hans.
    + cbn [flat_map]. rewrite Htraffic. now rewrite app_assoc.
Qed.

Lemma first_host_unknown srcs :
  Forall oblivious srcs -> Forall sober srcs ->
  (exists e, fst (first_host srcs []) = Raise e
             /\ exc_class e = UnknownIPAddress)
  <-> Forall yields_no_host srcs.
Proof.
  intros Hobl. induction Hobl as [|s rest Hs Hrest IH]; intros Hsober.
  - split; [constructor | intros _]. now exists unknown_ip.
  - inversion Hsober as [|? ? Hsober_s Hsober_rest]; subst.
    rewrite (first_host_step s rest Hs Hrest).
    destruct (answer s) as [h | e] eqn:Ea.
    + destruct (str_truthy h) eqn:Eh; cbn [fst].
      * split.
        -- intros (e & [=] & _).
        -- intros Hall. inversion Hall as [|? ? (h' & Hh' & Hfalse) _]; subst.
           rewrite Ea in Hh'. injection Hh' as <-. congruence.
      * rewrite (IH Hsober_rest). split.
        -- intros Hall. constructor; [now exists h | exact Hall].
        -- intros Hall. now inversion Hall.
    + cbn [fst]. split.
      * intros (e' & [= <-] & Hclass).
        exfalso. exact (Hsober_s [] e Ea Hclass).
      * intros Hall. inversion Hall as [|? ? (h' & Hh' & _) _]; subst.
        rewrite Ea in Hh'. discriminate.
Qed.

(** C10. [determine_external_ip_address] runs the cascade over its
    sources in a fixed order: the known-nodes sample (only when
    [known_nodes] is not empty), then the network's default teacher,
    then the centralized service.  It returns the first host that is not
    empty: every source before the one that gave it yielded no host, and
    the traffic is that of those sources and of no later one.  It raises
    [UnknownIPAddress] exactly when every source of the cascade yields
    no host. *)
Theorem external_ip_cascade network known_nodes t :
  let cascade := sources world network known_nodes in
  let result := determine_external_ip_address world network known_nodes t in
  cascade
  = (if nodes_truthy known_nodes
     then [get_external_ip_from_known_nodes world (nodes_of known_nodes)
             default_sample_size]
     else [])
    ++ [get_external_ip_from_default_teacher world network false;
        get_external_ip_from_centralized_source world]
  /\ result = first_host cascade t
  /\ (forall host,
         fst result = Return host ->
         str_truthy host = true
         /\ exists before source after,
              cascade = before ++ source :: after
              /\ Forall yields_no_host before
              /\ answer source = Return host
              /\ snd result
                 = t ++ flat_map traffic before ++ traffic source)
  /\ ((exists e, fst result = Raise e /\ exc_class e = UnknownIPAddress)
      <-> Forall yields_no_host cascade).
Proof.
  intros cascade result.
  pose proof (oblivious_sources network known_nodes) as Hobl.
  pose proof (sober_sources network known_nodes) as Hsober.
  fold cascade in Hobl, Hsober.
  assert (Hresult : result = first_host cascade t)
    by apply determine_is_first_host.
  assert (Hfrom : result = (fst (first_host cascade []),
                            t ++ snd (first_host cascade []))).
  { rewrite Hresult. apply (oblivious_first_host cascade Hobl). }
  split; [reflexivity|]. split; [exact Hresult|]. split.
  - intros host Hhost. rewrite Hfrom in Hhost |- *. cbn [fst snd] in *.
    destruct (first_host_returns cascade host Hobl Hhost)
      as (Htruthy & before & source & after & Hsplit & Hnone & Hans & Htr).
    split; [exact Htruthy|].
    exists before, source, after. rewrite Htr. auto.
  - rewrite Hfrom. cbn [fst].
    apply (first_host_unknown cascade Hobl Hsober).
Qed.
End Cascade.

(** The model on the world of [NetworkTerms.lonely_world]. *)

(** Without known nodes the teacher is asked first; it answers 503, so
    the centralized service gives the address. *)
Example address_from_the_centralized_source :
  Networking.determine_external_ip_address NetworkTerms.lonely_world
    "mainnet" None []
  = (Return (Some "198.51.100.7"%string),
     [Networking.TeacherConnect "https://teacher.example:9151";
      Networking.TeacherPing "https://teacher.example:9151";
      Networking.HttpGet "https://ifconfig.me/"]).
Proof. vm_compute. reflexivity. Qed.

(** On an unknown network and with no address service the address is
    unknown. *)
Example address_unknown_when_every_source_is_silent :
  fst (Networking.determine_external_ip_address
         (Networking.mkWorld
            (fun _ _ => Networking.RequestErrors
                          (Networking.mkForeign "ConnectionError" []))
            []
            (fun _ _ _ => Networking.Replied tt)
            (fun _ => Networking.Replied (Networking.mkHttpResponse 200 ""))
            0 (fun population k => firstn k population))
         "mainnet" None [])
  = Raise NetworkTerms.unknown_ip.
Proof. vm_compute. reflexivity. Qed.

(** Three known nodes are sampled before anything else; they cannot be
    reached here, so the cascade goes on. *)
Example address_after_unreachable_nodes :
  Networking.determine_external_ip_address NetworkTerms.lonely_world
    "mainnet"
    (Some [NetworkTerms.node_at "a"; NetworkTerms.node_at "b";
           NetworkTerms.node_at "c"]) []
  = (Return (Some "198.51.100.7"%string),
     [Networking.HttpGet "https://a:9151";
      Networking.HttpGet "https://b:9151";
      Networking.HttpGet "https://c:9151";
      Networking.TeacherConnect "https://teacher.example:9151";
      Networking.TeacherPing "https://teacher.example:9151";
      Networking.HttpGet "https://ifconfig.me/"]).
Proof. vm_compute. reflexivity. Qed.

(** Fewer known nodes than the sample size: [random.sample] raises, and
    its [ValueError] ends the call before any source is asked. *)
Example two_known_nodes_end_the_call :
  Networking.determine_external_ip_address NetworkTerms.lonely_world
    "mainnet"
    (Some [NetworkTerms.node_at "a"; NetworkTerms.node_at "b"]) []
  = (Raise (with_message ValueError
              "Sample larger than population or is negative"), []).
Proof. vm_compute. reflexivity. Qed.

(** The fee arithmetic on concrete inputs. *)

Example value_and_rate_together_are_refused :
  Policies.generate_policy_parameters 3 10 (Some 210) (Some 7)
  = Raise (with_message InvalidPolicyValue
             "Either 'value' or 'rate'  must be provided for policy. Got value: 210 and rate: 7").
Proof. vm_compute. reflexivity. Qed.

Example neither_value_nor_rate_is_refused :
  Policies.generate_policy_parameters 3 10 None None
  = Raise (with_message InvalidPolicyValue
             "Either 'value' or 'rate'  must be provided for policy. Got value: None and rate: None").
Proof. vm_compute. reflexivity. Qed.

Example a_free_policy_is_allowed :
  Policies.generate_policy_parameters 3 10 None (Some 0)
  = Return (Policies.mkParams 0 0)
  /\ Policies.generate_policy_parameters 3 10 (Some 0) (Some 0)
     = Return (Policies.mkParams 0 0).
Proof. split; vm_compute; reflexivity. Qed.

Example a_negative_rate_is_refused :
  Policies.generate_policy_parameters 3 10 None (Some (-7))
  = Raise (with_message InvalidPolicyValue
             "Negative policy parameters are not allowed. Be positive.").
Proof. vm_compute. reflexivity. Qed.

Example a_value_over_no_peer_divides_by_zero :
  Policies.generate_policy_parameters 0 10 (Some 210) None
  = Raise (with_message ZeroDivisionError
             "integer division or modulo by zero").
Proof. vm_compute. reflexivity. Qed.

(** The quorum computation on concrete inputs. *)

Example quorum_of_seven_peers_at_thirty_percent :
  obind (PyFloat.int_true_divide (7 * 30) 100)
        (fun x => Return (PyFloat.math_ceil x))
  = Return 3.
Proof. vm_compute. reflexivity. Qed.

(** Far outside the range of a percentage the float division loses the
    fraction: one node at [100 * 2 ^ 53 + 1] percent gives [2 ^ 53],
    one less than the exact ceiling. *)
Example quorum_beyond_float_precision :
  obind (PyFloat.int_true_divide (1 * (100 * 2 ^ 53 + 1)) 100)
        (fun x => Return (PyFloat.math_ceil x))
  = Return (2 ^ 53).
Proof. vm_compute. reflexivity. Qed.

(** ** More on the fee arithmetic *)

Section FeeEdges.
Import Policies.
Context {umbral : Umbral} {maya : Maya} {crypto : CryptoUtils}.

Lemma some_negative_parameter (params : list (option Z)) i :
  In i params -> is_negative i = true ->
  (0 <? Z.of_nat (List.length (filter is_negative params))) = true.
Proof.
  intros Hin Hneg.
  assert (Hf : In i (filter is_negative params)) by (apply filter_In; auto).
  destruct (filter is_negative params); [contradiction | cbn; lia].
Qed.

(** X1. [generate_policy_parameters] refuses any negative parameter
    ([n], [payment_periods], a given value or a given rate) with
    [InvalidPolicyValue], before it looks at anything else. *)
Theorem negative_parameters_are_refused (n payment_periods : Z)
    (value rate : option Z) :
  n < 0 \/ payment_periods < 0
  \/ is_negative value = true \/ is_negative rate = true ->
  generate_policy_parameters n payment_periods value rate
  = Raise (with_message InvalidPolicyValue
             "Negative policy parameters are not allowed. Be positive.").
Proof.
  intros H. unfold generate_policy_parameters.
  assert (Hsome : exists i,
             In i [Some n; Some payment_periods; value; rate]
             /\ is_negative i = true).
  { destruct H as [H | [H | [H | H]]].
    - exists (Some n). split; [cbn; tauto | cbn; lia].
    - exists (Some payment_periods). split; [cbn; tauto | cbn; lia].
    - exists value. split; [cbn; tauto | exact H].
    - exists rate. split; [cbn; tauto | exact H]. }
  destruct Hsome as (i & Hin & Hneg).
  rewrite (some_negative_parameter _ i Hin Hneg). reflexivity.
Qed.

(** Non-negative parameters pass the first check. *)
Lemma nonnegative_parameters_pass n pp value rate :
  0 <= n -> 0 <= pp -> is_negative value = false -> is_negative rate = false ->
  (0 <? Z.of_nat (List.length
                    (filter is_negative [Some n; Some pp; value; rate])))
  = false.
Proof.
  intros. rewrite no_negative_parameter by assumption. reflexivity.
Qed.

(** X2. With no negative parameter, giving neither value nor rate, or
    giving both with neither of them zero, is refused with
    [InvalidPolicyValue]; the message quotes what was given. *)
Theorem value_and_rate_exclude_each_other (n payment_periods : Z)
    (value rate : option Z) :
  0 <= n -> 0 <= payment_periods ->
  (value = None /\ rate = None)
  \/ (exists v r, value = Some v /\ rate = Some r /\ 0 < v /\ 0 < r) ->
  generate_policy_parameters n payment_periods value rate
  = Raise (with_message InvalidPolicyValue
             ("Either 'value' or 'rate'  must be provided for policy. "
              +++ "Got value: " +++ str_opt_int value
              +++ " and rate: " +++ str_opt_int rate)).
Proof.
  intros Hn Hp H. unfold generate_policy_parameters.
  destruct H as [[-> ->] | (v & r & -> & -> & Hv & Hr)].
  - rewrite nonnegative_parameters_pass by (cbn; lia). reflexivity.
  - rewrite nonnegative_parameters_pass by (cbn; lia).
    cbn [truthy is_zero].
    destruct (Z.eqb_spec v 0); [lia|]. destruct (Z.eqb_spec r 0); [lia|].
    reflexivity.
Qed.

(** What [generate_policy_parameters] returns is exact, whichever of
    value and rate it was given. *)
Lemma generated_parameters_are_exact n pp value rate p :
  generate_policy_parameters n pp value rate = Return p ->
  params_rate p * pp * n = params_value p.
Proof.
  destruct value as [v|].
  - intros H. apply generate_is_exact in H. destruct H as [-> H]. exact H.
  - unfold generate_policy_parameters.
    destruct (0 <? _); [discriminate|].
    destruct (negb _ && _); [discriminate|].
    destruct rate as [r|]; [|discriminate].
    intros [= <-]. reflexivity.
Qed.

Lemma generated_parameters_are_not_negative n pp value rate p :
  generate_policy_parameters n pp value rate = Return p ->
  0 <= n /\ 0 <= pp /\ is_negative value = false /\ is_negative rate = false.
Proof.
  unfold generate_policy_parameters.
  destruct (0 <? _) eqn:E; [discriminate|]. intros _.
  cbn [filter] in E.
  destruct (is_negative (Some n)) eqn:E1;
    [cbn in E; destruct (is_negative (Some pp)), (is_negative value),
       (is_negative rate); cbn in E; lia|].
  destruct (is_negative (Some pp)) eqn:E2;
    [cbn in E; destruct (is_negative value), (is_negative rate);
       cbn in E; lia|].
  destruct (is_negative value) eqn:E3;
    [cbn in E; destruct (is_negative rate); cbn in E; lia|].
  destruct (is_negative rate) eqn:E4; [cbn in E; lia|].
  cbn in E1, E2. repeat split; lia.
Qed.

(** X3. The round trip from the value: when [generate_policy_parameters]
    accepts a value (for [n > 0] and [payment_periods > 0]) it returns
    that value, and calling it again with only the returned rate gives
    the same parameters back. *)
Theorem value_round_trip (n payment_periods value : Z) (p : PolicyParameters) :
  0 < n -> 0 < payment_periods ->
  generate_policy_parameters n payment_periods (Some value) None = Return p ->
  params_value p = value
  /\ generate_policy_parameters n payment_periods None (Some (params_rate p))
     = Return p.
Proof.
  intros Hn Hp Hgen.
  pose proof (generate_is_exact _ _ _ _ _ Hgen) as [Hvalue Hexact].
  pose proof (generated_parameters_are_not_negative _ _ _ _ _ Hgen)
    as (_ & _ & Hv & _).
  cbn in Hv. split; [exact Hvalue|].
  assert (Hrate : 0 <= params_rate p) by nia.
  unfold generate_policy_parameters.
  rewrite nonnegative_parameters_pass by (cbn; lia).
  destruct p as [r v]. cbn [params_rate params_value] in *. subst v.
  cbn [truthy is_zero xorb negb andb orb].
  destruct (r =? 0); cbn [negb andb orb]; rewrite Hexact; reflexivity.
Qed.

(** X4. Parameters that come out of [generate_policy_parameters] for
    [n > 0] peers and [payment_periods > 0] pass the fee check of
    [BlockchainPolicy.__init__] over [n] key fragments: the policy is
    constructed and holds that value, rate and duration. *)
Theorem generated_parameters_construct (n payment_periods : Z)
    (value rate : option Z) (p : PolicyParameters)
    (publisher : Alice) (label : bytes) (expiration : MayaDT) (bob : Bob)
    (kfrags : list VerifiedKeyFrag) (public_key : PublicKey) (m : Z) :
  Z.of_nat (List.length kfrags) = n -> 0 < n -> 0 < payment_periods ->
  generate_policy_parameters n payment_periods value rate = Return p ->
  exists self,
    BlockchainPolicy_init (params_value p) (params_rate p) payment_periods
      publisher label expiration bob kfrags public_key m = Return self
    /\ bp_value self = params_value p
    /\ bp_rate self = params_rate p
    /\ Policies.payment_periods self = payment_periods
    /\ policy_n (bp_policy self) = n.
Proof.
  intros Hlen Hn Hp Hgen.
  pose proof (generated_parameters_are_exact _ _ _ _ _ Hgen) as Hexact.
  unfold BlockchainPolicy_init.
  set (self := mkBlockchainPolicy _ _ _ _).
  destruct (validation_outcome self) as [_ Hgood].
  - cbn. lia.
  - cbn. lia.
  - rewrite Hgood.
    + exists self. cbn. repeat split; auto.
    + cbn. rewrite Hlen, <- Hexact.
      rewrite Z.div_mul by lia. rewrite Z.div_mul by lia. lia.
Qed.

(** X5. For [n > 0] and [payment_periods > 0], [_validate_fee_value]
    passes exactly when the value is a multiple of
    [n * payment_periods], and raises [ValueError] otherwise.  Nothing
    else is asked of the value: its sign is not looked at. *)
Theorem fee_check_is_divisibility (self : BlockchainPolicy) :
  let n := policy_n (bp_policy self) in
  let periods := Policies.payment_periods self in
  0 < n -> 0 < periods ->
  (_validate_fee_value self = Return tt
   <-> bp_value self mod (n * periods) = 0)
  /\ (bp_value self mod (n * periods) <> 0 ->
      exists msg,
        _validate_fee_value self = Raise (with_message ValueError msg)).
Proof.
  intros n periods Hn Hp.
  destruct (validation_outcome self) as [Hbad Hgood];
    [fold n; lia | fold periods; lia |].
  fold n periods in Hbad, Hgood.
  assert (Hdiv : bp_value self / n / periods = bp_value self / (n * periods))
    by (apply Z.div_div; lia).
  rewrite Hdiv in Hbad, Hgood.
  pose proof (Z.div_mod (bp_value self) (n * periods) ltac:(nia)) as Hdm.
  split; [split|].
  - intros Hok.
    destruct (Z.eq_dec (periods * (bp_value self / (n * periods)) * n)
                       (bp_value self)) as [E | E]; [nia|].
    destruct (Hbad E) as [msg Hmsg]. rewrite Hmsg in Hok. discriminate.
  - intros Hmod. apply Hgood. nia.
  - intros Hmod. apply Hbad. nia.
Qed.

(** X6. Constructing a [BlockchainPolicy] over no key fragment, or with
    a duration of zero periods, ends in the [ZeroDivisionError] of the
    fee check, which is not a [ValueError]: the caller gets no
    validation error. *)
Theorem construction_divides_by_zero (value rate periods : Z)
    (publisher : Alice) (label : bytes) (expiration : MayaDT) (bob : Bob)
    (kfrags : list VerifiedKeyFrag) (public_key : PublicKey) (m : Z) :
  kfrags = [] \/ periods = 0 ->
  exists e,
    BlockchainPolicy_init value rate periods publisher label expiration bob
      kfrags public_key m = Raise e
    /\ exc_class e = ZeroDivisionError
    /\ isinstance e ValueError = false.
Proof.
  intros H. unfold BlockchainPolicy_init, _validate_fee_value.
  cbn [bp_value bp_policy Policies.payment_periods policy_n Policy_init].
  unfold floordiv.
  destruct (Z.eqb_spec (Z.of_nat (List.length kfrags)) 0) as [E | E].
  - eexists. split; [reflexivity|]. split; reflexivity.
  - destruct H as [-> | ->]; [cbn in E; lia|].
    eexists. split; [reflexivity|]. split; reflexivity.
Qed.

(** X7. [BlockchainPolicy.__init__] stores the rate it is given and
    never checks it: if construction succeeds with one rate, it succeeds
    with any other, and the result differs in the stored rate only. *)
Theorem construction_ignores_the_rate (value rate rate' periods : Z)
    (publisher : Alice) (label : bytes) (expiration : MayaDT) (bob : Bob)
    (kfrags : list VerifiedKeyFrag) (public_key : PublicKey) (m : Z)
    (self : BlockchainPolicy) :
  BlockchainPolicy_init value rate periods publisher label expiration bob
    kfrags public_key m = Return self ->
  bp_rate self = rate
  /\ BlockchainPolicy_init value rate' periods publisher label expiration bob
       kfrags public_key m
     = Return (mkBlockchainPolicy (bp_policy self)
                 (Policies.payment_periods self) (bp_value self) rate').
Proof.
  unfold BlockchainPolicy_init, _validate_fee_value.
  cbn [bp_value bp_policy Policies.payment_periods policy_n Policy_init].
  destruct (floordiv value _) as [per_node|]; [|discriminate]. cbn [obind].
  destruct (floordiv per_node periods) as [q|]; [|discriminate]. cbn [obind].
  destruct (negb _); [discriminate|]. cbn [obind].
  intros [= <-]. split; reflexivity.
Qed.
End FeeEdges.

Lemma negative_parameters_are_refused_witness :
  Policies.generate_policy_parameters (-3) 10 None (Some 7)
  = Raise (with_message InvalidPolicyValue
             "Negative policy parameters are not allowed. Be positive.").
Proof.
  apply (negative_parameters_are_refused (-3) 10 None (Some 7)).
  left. lia.
Defined.

Lemma value_and_rate_exclude_each_other_witness :
  Policies.generate_policy_parameters 3 10 (Some 210) (Some 7)
  = Raise (with_message InvalidPolicyValue
             "Either 'value' or 'rate'  must be provided for policy. Got value: 210 and rate: 7").
Proof.
  apply (value_and_rate_exclude_each_other 3 10 (Some 210) (Some 7));
    [lia | lia |].
  right. exists 210, 7. repeat split; lia.
Defined.

Lemma value_round_trip_witness :
  Policies.generate_policy_parameters 3 10 None (Some 7)
  = Return (Policies.mkParams 7 210).
Proof.
  apply (value_round_trip 3 10 210 (Policies.mkParams 7 210));
    [lia | lia | reflexivity].
Defined.

Lemma generated_parameters_construct_witness :
  exists self,
    @Policies.BlockchainPolicy_init
      Fixtures.bytes_umbral Fixtures.text_maya Fixtures.toy_crypto
      210 7 10 Fixtures.alice [x61] Fixtures.expiry Fixtures.bob
      [[x01]; [x02]; [x03]] Fixtures.alice_key 2 = Return self
    /\ Policies.bp_value self = 210 /\ Policies.bp_rate self = 7.
Proof.
  destruct (@generated_parameters_construct
              Fixtures.bytes_umbral Fixtures.text_maya Fixtures.toy_crypto
              3 10 None (Some 7) (Policies.mkParams 7 210)
              Fixtures.alice [x61] Fixtures.expiry Fixtures.bob
              [[x01]; [x02]; [x03]] Fixtures.alice_key 2
              eq_refl ltac:(lia) ltac:(lia) eq_refl)
    as (self & Hinit & Hvalue & Hrate & _).
  exists self. repeat split; assumption.
Defined.

Lemma fee_check_is_divisibility_witness :
  @Policies._validate_fee_value Fixtures.bytes_umbral Fixtures.text_maya
    (Policies.mkBlockchainPolicy Fixtures.two_share_policy 5 (-30) 0)
  = Return tt.
Proof.
  apply (proj1 (@fee_check_is_divisibility
                  Fixtures.bytes_umbral Fixtures.text_maya
                  (Policies.mkBlockchainPolicy Fixtures.two_share_policy
                     5 (-30) 0)
                  ltac:(cbn; lia) ltac:(cbn; lia))).
  reflexivity.
Defined.

Lemma construction_divides_by_zero_witness :
  exists e,
    @Policies.BlockchainPolicy_init
      Fixtures.bytes_umbral Fixtures.text_maya Fixtures.toy_crypto
      210 7 10 Fixtures.alice [x61] Fixtures.expiry Fixtures.bob
      [] Fixtures.alice_key 2 = Raise e
    /\ exc_class e = ZeroDivisionError.
Proof.
  destruct (@construction_divides_by_zero
              Fixtures.bytes_umbral Fixtures.text_maya Fixtures.toy_crypto
              210 7 10 Fixtures.alice [x61] Fixtures.expiry Fixtures.bob
              [] Fixtures.alice_key 2 (or_introl eq_refl))
    as (e & Hraise & Hclass & _).
  exists e. split; [exact Hraise | exact Hclass].
Defined.

Lemma construction_ignores_the_rate_witness :
  @Policies.BlockchainPolicy_init
    Fixtures.bytes_umbral Fixtures.text_maya Fixtures.toy_crypto
    210 1000 10 Fixtures.alice [x61] Fixtures.expiry Fixtures.bob
    [[x01]; [x02]; [x03]] Fixtures.alice_key 2
  = Return (Policies.mkBlockchainPolicy
              (@Policies.Policy_init
                 Fixtures.bytes_umbral Fixtures.text_maya Fixtures.toy_crypto
                 Fixtures.alice [x61] Fixtures.expiry Fixtures.bob
                 [[x01]; [x02]; [x03]] Fixtures.alice_key 2)
              10 210 1000).
Proof.
  refine (proj2 (@construction_ignores_the_rate
                   Fixtures.bytes_umbral Fixtures.text_maya
                   Fixtures.toy_crypto
                   210 7 1000 10 Fixtures.alice [x61] Fixtures.expiry
                   Fixtures.bob [[x01]; [x02]; [x03]] Fixtures.alice_key 2
                   _ eq_refl)).
Defined.

(** ** More on dictionaries *)

Section MoreDictFacts.
Variables K V : Type.
Variable eqb : K -> K -> bool.
Hypothesis eqb_eq : forall x y, eqb x y = true <-> x = y.

Lemma dict_set_in k (v : V) d x :
  In x (dict_set eqb k v d) -> x = (k, v) \/ In x d.
Proof.
  induction d as [|[k' v'] d IH]; cbn.
  - intros [<- | []]. now left.
  - destruct (eqb k k') eqn:E; cbn.
    + apply eqb_eq in E. subst k'. intros [<- | H]; auto.
    + intros [<- | H]; auto. destruct (IH H); auto.
Qed.

Lemma dict_set_keys k (v : V) d :
  NoDup (dict_keys d) -> NoDup (dict_keys (dict_set eqb k v d)).
Proof.
  unfold dict_keys.
  induction d as [|[k' v'] d IH]; cbn; intros Hnd.
  - repeat constructor. intros [].
  - destruct (eqb k k') eqn:E; cbn; [exact Hnd|].
    inversion Hnd as [|? ? Hnotin Hrest]; subst. constructor.
    + intros Hin. apply in_map_iff in Hin. destruct Hin as (x & Hx & Hin).
      apply dict_set_in in Hin. destruct Hin as [-> | Hin].
      * cbn in Hx. subst k'. rewrite (proj2 (eqb_eq k k) eq_refl) in E.
        discriminate.
      * apply Hnotin. apply in_map_iff. now exists x.
    + now apply IH.
Qed.

Lemma dict_of_items_fold acc (items : list (K * V)) :
  let d := fold_left (fun d kv => dict_set eqb (fst kv) (snd kv) d)
                     items acc in
  (NoDup (dict_keys acc) -> NoDup (dict_keys d))
  /\ (forall x, In x d -> In x acc \/ In x items).
Proof.
  revert acc. induction items as [|[k v] items IH]; intros acc; cbn.
  - split; auto.
  - destruct (IH (dict_set eqb k v acc)) as [Hnd Hin]. split.
    + intros H. apply Hnd. now apply dict_set_keys.
    + intros x Hx. destruct (Hin x Hx) as [H | H]; auto.
      apply dict_set_in in H. destruct H as [-> | H]; auto.
Qed.

Lemma dict_of_items_keys (items : list (K * V)) :
  NoDup (dict_keys (dict_of_items eqb items)).
Proof.
  apply (proj1 (dict_of_items_fold [] items)). constructor.
Qed.

Lemma dict_of_items_in (items : list (K * V)) x :
  In x (dict_of_items eqb items) -> In x items.
Proof.
  intros H. destruct (proj2 (dict_of_items_fold [] items) x H) as [[] | H'].
  exact H'.
Qed.

End MoreDictFacts.

(** ** More on publication *)

Section MorePublication.
Import PyFloat Concurrency Policies Terms MoreTerms.
Context {umbral : Umbral} {maya : Maya}.

(** X8. [TreasureMapPublisher.__init__] with a percentage between 0
    and 100 over fewer than 2^46 nodes always builds a publisher; its
    quorum lies between 0 and the number of nodes, is 0 exactly when
    there is no node or the percentage is 0, and is every node at 100
    percent. *)
Theorem quorum_stays_within_the_nodes (treasure_map_bytes : bytes)
    (nodes : list Ursula) (network_middleware : RestMiddleware)
    (p threadpool_size timeout : Z) :
  let total := Z.of_nat (List.length nodes) in
  0 <= p <= 100 -> total < 2 ^ 46 ->
  exists publisher,
    TreasureMapPublisher_init treasure_map_bytes nodes network_middleware
      p threadpool_size timeout = Return publisher
    /\ let quorum := target_successes (_worker_pool publisher) in
       0 <= quorum <= total
       /\ (quorum = 0 <-> total = 0 \/ p = 0)
       /\ (p = 100 -> quorum = total).
Proof.
  intros total Hp Htotal.
  assert (Hnn : 0 <= total) by (unfold total; lia).
  assert (Hrange : 0 <= total * p < 2 ^ 53).
  { change (2 ^ 53) with (128 * 2 ^ 46). nia. }
  destruct (divide_by_100_then_ceil (total * p) Hrange) as (x & Hdiv & Hceil).
  unfold TreasureMapPublisher_init. fold total. rewrite Hdiv. cbn [obind].
  eexists. split; [reflexivity|].
  cbn [_worker_pool WorkerPool_init target_successes].
  set (c := math_ceil x) in *. clearbody c.
  repeat split; nia.
Qed.

(** X9. [block_until_success_is_reasonably_likely] ends in one of four
    ways.  An exception of the blocking call leaves it unchanged and
    nothing is logged.  Otherwise the quorum entry is logged first and
    the call returns the successes, raises [Unpaid] or raises
    [EnactmentError]; when every recorded response has status 201 it
    returns the successes and logs nothing more. *)
Theorem publication_ends_in_four_ways self view log :
  let result := block_until_success_is_reasonably_likely self view log in
  let completed := get_successes view 0 in
  (forall e, block_until_target_successes view = Raise e ->
             result = (Raise e, log))
  /\ (forall quorum, block_until_target_successes view = Return quorum ->
        (fst result = Return completed
         \/ fst result = Raise (bare Unpaid)
         \/ exists report,
              fst result = Raise (with_message EnactmentError report))
        /\ (exists more, snd result = log ++ quorum_line completed :: more)
        /\ ((forall u r, In (u, r) (get_successes view 1) ->
                         status_code r = 201) ->
            result = (Return completed, log ++ [quorum_line completed]))).
Proof.
  intros result completed. split.
  - intros e He. unfold result, block_until_success_is_reasonably_likely.
    unfold bind at 1. unfold lift. rewrite He. reflexivity.
  - intros quorum Hq.
    unfold result, block_until_success_is_reasonably_likely.
    unfold bind at 1. unfold lift. rewrite Hq.
    unfold bind at 1. unfold emit at 1. fold completed.
    change (log ++ [(DEBUG, _)]) with (log ++ [quorum_line completed]).
    set (responses := dict_of_items String.eqb _).
    destruct (forallb _ (dict_values responses)) eqn:Hall; cbn [negb].
    + repeat split.
      * now left.
      * exists []. reflexivity.
    + assert (Hsome : ~ (forall u r, In (u, r) (get_successes view 1) ->
                                     status_code r = 201)).
      { intros H. enough (E : forallb (fun response => status_code response =? 201)
                                 (dict_values responses) = true)
          by (rewrite E in Hall; discriminate).
        apply forallb_forall. intros r Hr. apply Z.eqb_eq.
        apply in_map_iff in Hr. destruct Hr as ([a r'] & <- & Hin).
        apply dict_of_items_in in Hin; [|apply String.eqb_eq].
        apply in_map_iff in Hin. destruct Hin as ([u r''] & [= <- <-] & Hin).
        eapply H; exact Hin. }
      unfold bind, emit.
      destruct (existsb _ (dict_values responses)); cbn [fst snd raise].
      * split; [right; now left|]. split; [|intros H; contradiction].
        rewrite <- app_assoc. eexists; reflexivity.
      * split; [right; right; eexists; reflexivity|].
        split; [|intros H; contradiction].
        rewrite <- app_assoc. eexists; reflexivity.
Qed.

End MorePublication.

Section PublicationWitnesses.
Import Concurrency Policies Fixtures.

(** Half of three nodes: a quorum of two. *)
Lemma quorum_stays_within_the_nodes_witness :
  exists publisher,
    TreasureMapPublisher_init [x61] [ursula_1; ursula_2; ursula_3]
      mixed_middleware 50 10 20 = Return publisher
    /\ 0 <= target_successes (_worker_pool publisher) <= 3.
Proof.
  destruct (quorum_stays_within_the_nodes [x61]
              [ursula_1; ursula_2; ursula_3] mixed_middleware 50 10 20
              ltac:(lia) ltac:(cbn; lia))
    as (publisher & Hinit & Hrange & _).
  exists publisher. split; [exact Hinit | exact Hrange].
Defined.

End PublicationWitnesses.

(** ** More on proposals *)

Section MoreProposal.
Import Concurrency Policies Terms MoreTerms.
Context {umbral : Umbral} {maya : Maya} {crypto : CryptoUtils}.

(** X10. [_propose_arrangement] for an address the publisher does not
    know raises [RuntimeError] naming the address, before anything is
    logged or sent; when the middleware raises, that exception
    propagates after the debug entry of the proposal. *)
Theorem proposal_fails_before_an_answer self address network_middleware log :
  (dict_get String.eqb address (known_nodes (publisher self)) = None ->
   _propose_arrangement self address network_middleware log
   = (Raise (with_message RuntimeError (address +++ " is not known")), log))
  /\ (forall ursula e,
         dict_get String.eqb address (known_nodes (publisher self))
           = Some ursula ->
         let arrangement :=
           Arrangement_from_publisher (publisher self)
             (policy_expiration self) in
         mw_propose_arrangement network_middleware ursula arrangement
           = Raise e ->
         _propose_arrangement self address network_middleware log
         = (Raise e, log ++ [proposing_line arrangement ursula])).
Proof.
  split.
  - intros Hunknown. unfold _propose_arrangement. rewrite Hunknown.
    reflexivity.
  - intros ursula e Hknown arrangement Hraise.
    unfold _propose_arrangement. rewrite Hknown. fold arrangement.
    unfold bind at 1. unfold emit at 1.
    unfold bind at 1. unfold lift at 1. rewrite Hraise. reflexivity.
Qed.

(** X11. Whenever [_propose_arrangement] returns a node and an
    arrangement, the node is the one known under the address, the
    arrangement is the publisher's with the policy's expiration, the
    node answered status 200, and the publisher verified the node's
    signature over the arrangement's bytes. *)
Theorem proposal_returns_only_verified_acceptances
    self address network_middleware log ursula arrangement :
  fst (_propose_arrangement self address network_middleware log)
    = Return (ursula, arrangement) ->
  dict_get String.eqb address (known_nodes (publisher self)) = Some ursula
  /\ arrangement
     = Arrangement_from_publisher (publisher self) (policy_expiration self)
  /\ exists response message signature,
       mw_propose_arrangement network_middleware ursula arrangement
         = Return response
       /\ status_code response = 200
       /\ Arrangement_bytes arrangement = Return message
       /\ Signature_from_bytes (content response) = Return signature
       /\ verify_from (publisher self) ursula message signature = Return tt.
Proof.
  intros Hret.
  destruct (dict_get String.eqb address (known_nodes (publisher self)))
    as [u|] eqn:Hknown.
  2: { unfold _propose_arrangement in Hret. rewrite Hknown in Hret.
       discriminate. }
  set (a := Arrangement_from_publisher (publisher self)
              (policy_expiration self)) in *.
  destruct (mw_propose_arrangement network_middleware u a)
    as [response | e] eqn:Hanswer.
  2: { unfold _propose_arrangement in Hret. rewrite Hknown in Hret.
       fold a in Hret. unfold bind at 1 in Hret. unfold emit at 1 in Hret.
       unfold bind at 1 in Hret. unfold lift at 1 in Hret.
       rewrite Hanswer in Hret. discriminate. }
  rewrite (proposal_outcome self address network_middleware u response log
             Hknown Hanswer) in Hret.
  fold a in Hret.
  destruct (Z.eqb_spec (status_code response) 200) as [Hs|]; [|discriminate].
  destruct (Arrangement_bytes a) as [message|] eqn:Hm; [|discriminate].
  cbn [obind] in Hret.
  destruct (Signature_from_bytes (content response)) as [signature|] eqn:Hsig;
    [|discriminate].
  cbn [obind] in Hret.
  destruct (verify_from (publisher self) u message signature) as [[]|] eqn:Hv;
    [|discriminate].
  cbn [obind] in Hret. injection Hret as <- <-.
  split; [reflexivity|]. split; [reflexivity|].
  exists response, message, signature. auto.
Qed.

(** X12. When the proposal pool ends with at least [n] acceptances,
    [_make_arrangements] returns them and logs only the closing debug
    entry; no node occurs twice among them, and each comes from a
    success of the pool. *)
Theorem enough_acceptances_are_returned self run log successes :
  made_reservoir run = Return tt ->
  learned_nodes run = Return tt ->
  successes_after_blocking (proposal_pool run) = Return successes ->
  let accepted := accepted_arrangements_of successes in
  policy_n (as_policy self) <= dict_len accepted ->
  _make_arrangements self run log
  = (Return accepted, log ++ [finished_line accepted])
  /\ NoDup (dict_keys accepted)
  /\ (forall ursula arrangement,
         In (ursula, arrangement) accepted ->
         exists address, In (address, (ursula, arrangement)) successes).
Proof.
  intros Hres Hlearn Hsucc accepted Henough. split; [|split].
  - unfold _make_arrangements.
    unfold bind at 1. unfold lift at 1. rewrite Hres.
    unfold bind at 1. unfold lift at 1. rewrite Hlearn.
    unfold bind at 1. unfold lift at 1. rewrite Hsucc.
    fold (accepted_arrangements_of successes). fold accepted.
    destruct (Z.ltb_spec (dict_len accepted) (policy_n (as_policy self)));
      [lia|].
    reflexivity.
  - apply dict_of_items_keys, Ursula_eqb_eq.
  - intros u a Hin. apply dict_of_items_in in Hin; [|apply Ursula_eqb_eq].
    unfold dict_values in Hin. apply in_map_iff in Hin.
    destruct Hin as ([address ua] & Hua & Hin). cbn in Hua. subst ua.
    now exists address.
Qed.

(** X13. A pool that gives up with [OutOfValues] or [TimedOut] does
    not fail [_make_arrangements] by itself: with at least [n]
    acceptances in the tally the call still returns them. *)
Theorem giving_up_with_enough_acceptances_succeeds self run log e :
  made_reservoir run = Return tt ->
  learned_nodes run = Return tt ->
  block_until_target_successes (proposal_pool run) = Raise e ->
  exc_class e = OutOfValues \/ exc_class e = TimedOut ->
  let accepted :=
    accepted_arrangements_of (get_successes (proposal_pool run) 0) in
  policy_n (as_policy self) <= dict_len accepted ->
  fst (_make_arrangements self run log) = Return accepted.
Proof.
  intros Hres Hlearn Hblock Hclass accepted Henough.
  unfold _make_arrangements.
  unfold bind at 1. unfold lift at 1. rewrite Hres.
  unfold bind at 1. unfold lift at 1. rewrite Hlearn.
  unfold bind at 1. unfold lift at 1.
  unfold successes_after_blocking. rewrite Hblock.
  assert (Hcaught : isinstance e OutOfValues || isinstance e TimedOut = true).
  { unfold isinstance. destruct Hclass as [-> | ->]; reflexivity. }
  rewrite Hcaught.
  fold (accepted_arrangements_of (get_successes (proposal_pool run) 0)).
  fold accepted.
  destruct (Z.ltb_spec (dict_len accepted) (policy_n (as_policy self)));
    [lia|].
  reflexivity.
Qed.

(** X14. An exception of the reservoir, of learning the handpicked
    nodes, or of the pool other than [OutOfValues] and [TimedOut] leaves
    [_make_arrangements] unchanged, and nothing is logged. *)
Theorem other_failures_of_the_run_propagate self run log e :
  (made_reservoir run = Raise e
   \/ (made_reservoir run = Return tt /\ learned_nodes run = Raise e)
   \/ (made_reservoir run = Return tt /\ learned_nodes run = Return tt
       /\ block_until_target_successes (proposal_pool run) = Raise e
       /\ isinstance e OutOfValues = false
       /\ isinstance e TimedOut = false)) ->
  _make_arrangements self run log = (Raise e, log).
Proof.
  intros H. unfold _make_arrangements.
  destruct H as [H | [[H1 H2] | (H1 & H2 & H3 & H4 & H5)]].
  - unfold bind at 1. unfold lift at 1. now rewrite H.
  - unfold bind at 1. unfold lift at 1. rewrite H1.
    unfold bind at 1. unfold lift at 1. now rewrite H2.
  - unfold bind at 1. unfold lift at 1. rewrite H1.
    unfold bind at 1. unfold lift at 1. rewrite H2.
    unfold bind at 1. unfold lift at 1.
    unfold successes_after_blocking. rewrite H3, H4, H5. reflexivity.
Qed.

End MoreProposal.

Section ProposalWitnesses.
Import Concurrency Policies Terms Fixtures EnactmentFixtures.
Local Open Scope string_scope.

(** The first node accepts and its signature verifies. *)
Lemma proposal_returns_only_verified_acceptances_witness :
  dict_get String.eqb "0xA1" (known_nodes (publisher one_share_policy))
  = Some ursula_1
  /\ arrangement
     = Arrangement_from_publisher (publisher one_share_policy)
         (policy_expiration one_share_policy).
Proof.
  destruct (proposal_returns_only_verified_acceptances one_share_policy
              "0xA1" (answering ok created) [] ursula_1 arrangement eq_refl)
    as (Hknown & Harrangement & _).
  split; assumption.
Defined.

(** Two acceptances for a policy of two shares. *)
Lemma enough_acceptances_are_returned_witness :
  fst (_make_arrangements (Federated two_share_policy) two_acceptances [])
  = Return [(ursula_1, arrangement); (ursula_2, arrangement)].
Proof.
  destruct (enough_acceptances_are_returned (Federated two_share_policy)
              two_acceptances []
              [("0xA1", (ursula_1, arrangement));
               ("0xA2", (ursula_2, arrangement))]
              eq_refl eq_refl eq_refl ltac:(vm_compute; discriminate))
    as (Hresult & _).
  rewrite Hresult. reflexivity.
Defined.

(** The pool timed out, but both shares were accepted. *)
Lemma giving_up_with_enough_acceptances_succeeds_witness :
  fst (_make_arrangements (Federated two_share_policy) timed_out_with_two [])
  = Return [(ursula_1, arrangement); (ursula_2, arrangement)].
Proof.
  apply (giving_up_with_enough_acceptances_succeeds
           (Federated two_share_policy) timed_out_with_two []
           (bare TimedOut) eq_refl eq_refl eq_refl (or_intror eq_refl)).
  vm_compute. discriminate.
Defined.

(** The reservoir cannot be built. *)
Lemma other_failures_of_the_run_propagate_witness :
  _make_arrangements (Federated two_share_policy) no_reservoir []
  = (Raise (mkExc (Foreign "NotEnoughStakers") []), []).
Proof.
  apply (other_failures_of_the_run_propagate (Federated two_share_policy)
           no_reservoir [] (mkExc (Foreign "NotEnoughStakers") [])).
  left. reflexivity.
Defined.

End ProposalWitnesses.

(** ** More on the bytes of an arrangement *)

Section MoreCodec.
Import Splitter Policies.
Context {umbral : Umbral} {maya : Maya}.

Lemma app_equal_lengths (a a' b b' : bytes) :
  List.length a = List.length a' -> a ++ b = a' ++ b' -> a = a' /\ b = b'.
Proof.
  intros Hlen Heq. split.
  - rewrite <- (firstn_length_app a b), Heq, Hlen. apply firstn_length_app.
  - rewrite <- (skipn_length_app a b), Heq, Hlen. apply skipn_length_app.
Qed.

Lemma framed_layout (message framed : bytes) :
  VariableLengthBytestring_bytes message = Return framed ->
  exists header, List.length header = 4%nat /\ framed = header ++ message.
Proof.
  unfold VariableLengthBytestring_bytes, int_to_bytes.
  destruct (_ <=? _); [discriminate|]. cbn [obind]. intros H.
  injection H as <-.
  exists (big_endian VARIABLE_HEADER_LENGTH
            (Z.of_nat (List.length message))).
  split; [apply big_endian_length | reflexivity].
Qed.

(** X15. The bytes of an arrangement determine its fields: two
    arrangements whose keys serialize to the same length and whose
    bytes are equal have the same key bytes and the same encoded
    expiration; the bytes are the key, a header of four bytes and the
    encoded expiration. *)
Theorem arrangement_bytes_are_unambiguous (a a' : Arrangement) (b : bytes) :
  List.length (PublicKey_bytes (publisher_verifying_key a))
    = List.length (PublicKey_bytes (publisher_verifying_key a')) ->
  Arrangement_bytes a = Return b ->
  Arrangement_bytes a' = Return b ->
  PublicKey_bytes (publisher_verifying_key a)
    = PublicKey_bytes (publisher_verifying_key a')
  /\ iso8601_encoded (expiration a) = iso8601_encoded (expiration a')
  /\ List.length b
     = (List.length (PublicKey_bytes (publisher_verifying_key a)) + 4
        + List.length (iso8601_encoded (expiration a)))%nat.
Proof.
  intros Hlen Ha Ha'. unfold Arrangement_bytes in Ha, Ha'.
  destruct (VariableLengthBytestring_bytes (iso8601_encoded (expiration a)))
    as [framed|] eqn:Hf; [|discriminate].
  destruct (VariableLengthBytestring_bytes (iso8601_encoded (expiration a')))
    as [framed'|] eqn:Hf'; [|discriminate].
  cbn [obind] in Ha, Ha'. injection Ha as <-. injection Ha' as Heq.
  symmetry in Heq.
  destruct (app_equal_lengths _ _ _ _ Hlen Heq) as [Hkey Hframed].
  destruct (framed_layout _ _ Hf) as (h & Hh & ->).
  destruct (framed_layout _ _ Hf') as (h' & Hh' & ->).
  destruct (app_equal_lengths h h' _ _ ltac:(congruence) Hframed) as [_ Hmsg].
  repeat split; [exact Hkey | exact Hmsg |].
  rewrite !length_app, Hh. lia.
Qed.

End MoreCodec.

Section CodecWitnesses.
Import Policies Fixtures.

(** The arrangement of the fixtures: 33 bytes of key, 4 of header and
    20 of timestamp. *)
Lemma arrangement_bytes_are_unambiguous_witness :
  exists b,
    Arrangement_bytes arrangement = Return b /\ List.length b = 57%nat.
Proof.
  assert (H : exists b, Arrangement_bytes arrangement = Return b)
    by (eexists; reflexivity).
  destruct H as (b & Hb).
  destruct (arrangement_bytes_are_unambiguous arrangement arrangement b
              eq_refl Hb Hb) as (_ & _ & Hlen).
  exists b. split; [exact Hb | exact Hlen].
Defined.

End CodecWitnesses.

(** ** More on the sources of the external address *)

Section MoreCascade.
Import Networking NetworkTerms MoreNetworkTerms.
Variable world : World.

Lemma url_source_alone url certificate :
  get_external_ip_from_url_source world url certificate []
  = (match requests_get world url certificate with
     | RequestErrors _ => Return None
     | OtherException e => Raise (foreign e)
     | Replied response =>
         if status_code response =? 200 then Return (Some (text response))
         else Return None
     end, [HttpGet url]).
Proof.
  unfold get_external_ip_from_url_source, bind, perform. cbn [app].
  destruct (requests_get world url certificate) as [e | e | response];
    try reflexivity.
  destruct (status_code response =? 200); reflexivity.
Qed.

Lemma first_reply_step node rest :
  first_reply world (node :: rest) []
  = match answer (get_external_ip_from_url_source world (rest_url node) None)
    with
    | Return ip =>
        if str_truthy ip then (Return ip, [HttpGet (rest_url node)])
        else (fst (first_reply world rest []),
              HttpGet (rest_url node) :: snd (first_reply world rest []))
    | Raise e => (Raise e, [HttpGet (rest_url node)])
    end.
Proof.
  cbn [first_reply]. unfold bind at 1, answer.
  rewrite url_source_alone. cbn [fst snd].
  destruct (requests_get world (rest_url node) None) as [e | e | response].
  - cbn [str_truthy]. apply (oblivious_first_reply world rest [_]).
  - reflexivity.
  - destruct (status_code response =? 200).
    + destruct (str_truthy (Some (text response))); [reflexivity|].
      apply (oblivious_first_reply world rest [_]).
    + cbn [str_truthy]. apply (oblivious_first_reply world rest [_]).
Qed.

Lemma first_reply_asks_in_order (sample : list Node) :
  let result := first_reply world sample [] in
  exists asked rest,
    sample = asked ++ rest
    /\ snd result = requests_to asked
    /\ match fst result with
       | Return (Some host) =>
           host <> EmptyString
           /\ exists before node,
                asked = before ++ [node]
                /\ Forall (gives_no_host world) before
                /\ replies_with world node host
       | Return None => rest = [] /\ Forall (gives_no_host world) asked
       | Raise e =>
           exists before node failure,
             asked = before ++ [node]
             /\ Forall (gives_no_host world) before
             /\ requests_get world (rest_url node) None
                = OtherException failure
             /\ e = foreign failure
       end.
Proof.
  induction sample as [|node sample IH]; intros result.
  - exists [], []. cbn. repeat split; constructor.
  - unfold result. rewrite first_reply_step.
    unfold answer. rewrite url_source_alone. cbn [fst].
    destruct (requests_get world (rest_url node) None)
      as [e | e | response] eqn:Hreq.
    + (* request error: go on *)
      cbn [str_truthy]. cbv zeta in IH.
      destruct IH as (asked & rest & -> & Htraffic & Hres).
      exists (node :: asked), rest. cbn [fst snd].
      assert (Hnode : gives_no_host world node).
      { left. unfold answer. rewrite url_source_alone, Hreq. reflexivity. }
      split; [reflexivity|]. split; [cbn; now rewrite Htraffic|].
      destruct (fst (first_reply world (asked ++ rest) [])) as [[host|]|e'].
      * destruct Hres as (Hne & before & n' & -> & Hbefore & Hreply).
        split; [exact Hne|]. exists (node :: before), n'.
        repeat split; auto.
      * destruct Hres as [-> Hall]. split; auto.
      * destruct Hres as (before & n' & failure & -> & Hbefore & Hfail & ->).
        exists (node :: before), n', failure. repeat split; auto.
    + exists [node], sample. cbn. repeat split.
      exists [], node, e. repeat split; auto.
    + destruct (Z.eqb_spec (status_code response) 200) as [Hs | Hs].
      * destruct (text response) as [|c host'] eqn:Htext; cbn [str_truthy].
        -- cbv zeta in IH.
           destruct IH as (asked & rest & -> & Htraffic & Hres).
           exists (node :: asked), rest. cbn [fst snd].
           assert (Hnode : gives_no_host world node).
           { right. unfold answer. rewrite url_source_alone, Hreq.
             destruct (Z.eqb_spec (status_code response) 200); [|contradiction].
             now rewrite Htext. }
           split; [reflexivity|]. split; [cbn; now rewrite Htraffic|].
           destruct (fst (first_reply world (asked ++ rest) []))
             as [[host|]|e'].
           ++ destruct Hres as (Hne & before & n' & -> & Hbefore & Hreply).
              split; [exact Hne|]. exists (node :: before), n'.
              repeat split; auto.
           ++ destruct Hres as [-> Hall]. split; auto.
           ++ destruct Hres
                as (before & n' & failure & -> & Hbefore & Hfail & ->).
              exists (node :: before), n', failure. repeat split; auto.
        -- exists [node], sample. cbn [fst snd]. repeat split.
           ++ discriminate.
           ++ exists [], node. repeat split; [constructor|].
              exists response. auto.
      * cbn [str_truthy]. cbv zeta in IH.
        destruct IH as (asked & rest & -> & Htraffic & Hres).
        exists (node :: asked), rest. cbn [fst snd].
        assert (Hnode : gives_no_host world node).
        { left. unfold answer. rewrite url_source_alone, Hreq.
          destruct (Z.eqb_spec (status_code response) 200); [contradiction|].
          reflexivity. }
        split; [reflexivity|]. split; [cbn; now rewrite Htraffic|].
        destruct (fst (first_reply world (asked ++ rest) [])) as [[host|]|e'].
        -- destruct Hres as (Hne & before & n' & -> & Hbefore & Hreply).
           split; [exact Hne|]. exists (node :: before), n'.
           repeat split; auto.
        -- destruct Hres as [-> Hall]. split; auto.
        -- destruct Hres as (before & n' & failure & -> & Hbefore & Hfail & ->).
           exists (node :: before), n', failure. repeat split; auto.
Qed.

(** X16. With at least [sample_size] known nodes,
    [get_external_ip_from_known_nodes] asks the nodes of the sample in
    order, one request each, and stops at the first that gives a host
    or fails otherwise than by a request error: the traffic is the
    requests to a prefix of the sample; a host returned is not empty
    and is the text of the last node asked, which answered 200, after
    nodes that gave none; [None] means the whole sample was asked and
    gave none. *)
Theorem sample_is_asked_in_order (nodes : list Node) (sample_size : nat) :
  (sample_size <= List.length nodes)%nat ->
  let sample := sample_choice world nodes sample_size in
  let result := get_external_ip_from_known_nodes world nodes sample_size [] in
  exists asked rest,
    sample = asked ++ rest
    /\ snd result = requests_to asked
    /\ match fst result with
       | Return (Some host) =>
           host <> EmptyString
           /\ exists before node,
                asked = before ++ [node]
                /\ Forall (gives_no_host world) before
                /\ replies_with world node host
       | Return None => rest = [] /\ Forall (gives_no_host world) asked
       | Raise e =>
           exists before node failure,
             asked = before ++ [node]
             /\ Forall (gives_no_host world) before
             /\ requests_get world (rest_url node) None
                = OtherException failure
             /\ e = foreign failure
       end.
Proof.
  intros Hsize sample result.
  assert (Hloop : result = first_reply world sample []).
  { unfold result, get_external_ip_from_known_nodes, random_sample, bind.
    destruct (Nat.ltb_spec (List.length nodes) sample_size); [lia|].
    reflexivity. }
  rewrite Hloop. apply first_reply_asks_in_order.
Qed.

(** X17. With one or two known nodes the sample of three cannot be
    drawn: [get_external_ip_from_known_nodes] raises [ValueError]
    without a request, and so does [determine_external_ip_address],
    which asks no other source. *)
Theorem too_few_known_nodes_end_the_call network (nodes : list Node) t :
  (0 < List.length nodes < default_sample_size)%nat ->
  get_external_ip_from_known_nodes world nodes default_sample_size t
  = (Raise (with_message ValueError
              "Sample larger than population or is negative"), t)
  /\ determine_external_ip_address world network (Some nodes) t
     = (Raise (with_message ValueError
                 "Sample larger than population or is negative"), t).
Proof.
  intros Hlen.
  assert (Hknown :
            get_external_ip_from_known_nodes world nodes default_sample_size t
            = (Raise (with_message ValueError
                        "Sample larger than population or is negative"), t)).
  { unfold get_external_ip_from_known_nodes, random_sample, bind.
    destruct (Nat.ltb_spec (List.length nodes) default_sample_size); [|lia].
    reflexivity. }
  split; [exact Hknown|].
  unfold determine_external_ip_address.
  destruct nodes as [|node nodes]; [cbn in Hlen; lia|].
  cbn [nodes_truthy nodes_of]. unfold bind at 1. rewrite Hknown. reflexivity.
Qed.

Lemma teacher_traffic_bound network federated_only :
  (List.length (traffic (get_external_ip_from_default_teacher world network
                           federated_only)) <= 2)%nat.
Proof.
  unfold traffic, get_external_ip_from_default_teacher.
  destruct (dict_get String.eqb network (TEACHER_NODES world))
    as [[|top others]|]; [cbn; lia | | cbn; lia].
  unfold bind, perform. cbn [app].
  destruct (from_teacher_uri world top federated_only
              (_default_minimum_allowed_locked world))
    as [e | e | teacher]; [cbn; lia | cbn; lia |].
  destruct (ping world teacher) as [e | e | response];
    [cbn; lia | cbn; lia |].
  destruct (status_code response =? 200); cbn; lia.
Qed.

(** X18. [get_external_ip_from_default_teacher] contacts no one for a
    network without teachers; otherwise it connects to the first teacher
    of the network only, pings it at most once, and a host it returns
    is the text of that teacher's answer with status 200. *)
Theorem only_the_first_teacher_is_asked network federated_only :
  let result :=
    get_external_ip_from_default_teacher world network federated_only [] in
  match dict_get String.eqb network (TEACHER_NODES world) with
  | None | Some [] => result = (Return None, [])
  | Some (top_teacher_url :: _) =>
      (snd result = [TeacherConnect top_teacher_url]
       \/ snd result = [TeacherConnect top_teacher_url;
                        TeacherPing top_teacher_url])
      /\ forall host,
           fst result = Return (Some host) ->
           exists teacher response,
             from_teacher_uri world top_teacher_url federated_only
               (_default_minimum_allowed_locked world) = Replied teacher
             /\ ping world teacher = Replied response
             /\ status_code response = 200
             /\ text response = host
  end.
Proof.
  intros result. unfold result, get_external_ip_from_default_teacher.
  destruct (dict_get String.eqb network (TEACHER_NODES world))
    as [[|top others]|]; try reflexivity.
  unfold bind, perform. cbn [app].
  destruct (from_teacher_uri world top federated_only
              (_default_minimum_allowed_locked world))
    as [e | e | teacher] eqn:Hteacher.
  - split; [now left | discriminate].
  - split; [now left | discriminate].
  - destruct (ping world teacher) as [e | e | response] eqn:Hping.
    + split; [now right | discriminate].
    + split; [now right | discriminate].
    + destruct (Z.eqb_spec (status_code response) 200) as [Hs | Hs].
      * split; [now right|]. intros host [= <-].
        exists teacher, response. auto.
      * split; [now right | discriminate].
Qed.

Lemma first_host_traffic_bound srcs :
  Forall oblivious srcs ->
  (List.length (snd (first_host srcs []))
   <= list_sum (map (fun s => List.length (traffic s)) srcs))%nat.
Proof.
  induction 1 as [|s rest Hs Hrest IH]; [cbn; lia|].
  rewrite (first_host_step s rest Hs Hrest).
  unfold list_sum in *. cbn [map fold_right].
  destruct (answer s) as [h | e]; [|cbn [snd]; lia].
  destruct (str_truthy h); cbn [snd]; [lia|].
  rewrite length_app. lia.
Qed.

Lemma first_reply_traffic_bound sample :
  (List.length (snd (first_reply world sample [])) <= List.length sample)%nat.
Proof.
  induction sample as [|node sample IH]; [cbn; lia|].
  rewrite first_reply_step.
  destruct (answer _) as [ip | e]; [|cbn; lia].
  destruct (str_truthy ip); cbn [snd List.length]; lia.
Qed.

(** X19. Provided the sample drawn has at most three nodes,
    [determine_external_ip_address] only extends the trace, by at
    most six events: three requests to known nodes, a connection and a
    ping to the teacher, and one request to the centralized source;
    without known nodes, by at most three. *)
Theorem at_most_six_requests network known_nodes t :
  (List.length (sample_choice world (nodes_of known_nodes)
                  default_sample_size) <= default_sample_size)%nat ->
  exists more,
    snd (determine_external_ip_address world network known_nodes t)
    = t ++ more
    /\ (List.length more <= 6)%nat
    /\ (nodes_truthy known_nodes = false -> (List.length more <= 3)%nat).
Proof.
  intros Hsample.
  rewrite determine_is_first_host.
  pose proof (oblivious_sources world network known_nodes) as Hobl.
  rewrite (oblivious_first_host _ Hobl t). cbn [snd].
  eexists. split; [reflexivity|].
  pose proof (first_host_traffic_bound _ Hobl) as Hbound.
  assert (Hteacher :
            (List.length (traffic (get_external_ip_from_default_teacher
                                     world network false)) <= 2)%nat).
  { apply teacher_traffic_bound. }
  assert (Hcentral :
            List.length (traffic (get_external_ip_from_centralized_source
                                    world)) = 1%nat).
  { unfold traffic, get_external_ip_from_centralized_source, bind.
    rewrite url_source_alone.
    destruct (requests_get world _ None) as [e | e | response];
      try reflexivity.
    destruct (status_code response =? 200); reflexivity. }
  unfold sources in Hbound.
  destruct (nodes_truthy known_nodes) eqn:Htruthy;
    unfold list_sum in Hbound; cbn [app map fold_right] in Hbound.
  - split; [|discriminate].
    assert (Hknown :
              (List.length (traffic (get_external_ip_from_known_nodes world
                                       (nodes_of known_nodes)
                                       default_sample_size)) <= 3)%nat).
    { unfold traffic, get_external_ip_from_known_nodes, random_sample,
        bind, ret, raise.
      destruct (_ <? _)%nat; [cbn; lia|]. cbv beta iota.
      pose proof (first_reply_traffic_bound
                    (sample_choice world (nodes_of known_nodes)
                       default_sample_size)) as H.
      unfold default_sample_size in *. lia. }
    unfold sources. rewrite Htruthy. cbn [app]. lia.
  - unfold sources. rewrite Htruthy. cbn [app]. split; intros; lia.
Qed.
End MoreCascade.

Section CascadeWitnesses.
Import Networking NetworkTerms MoreNetworkTerms.
Local Open Scope string_scope.

(** Three known nodes, of which the second answers. *)
Lemma sample_is_asked_in_order_witness :
  exists asked rest,
    [node_at "a"; node_at "b"; node_at "c"] = (asked ++ rest)%list
    /\ snd (get_external_ip_from_known_nodes friendly_world
              [node_at "a"; node_at "b"; node_at "c"] 3 [])
       = requests_to asked.
Proof.
  destruct (sample_is_asked_in_order friendly_world
              [node_at "a"; node_at "b"; node_at "c"] 3
              ltac:(cbn; lia))
    as (asked & rest & Hsplit & Htraffic & _).
  exists asked, rest. split; [exact Hsplit | exact Htraffic].
Defined.

(** Two known nodes. *)
Lemma too_few_known_nodes_end_the_call_witness :
  determine_external_ip_address lonely_world "mainnet"
    (Some [node_at "a"; node_at "b"]) []
  = (Raise (with_message ValueError
              "Sample larger than population or is negative"), []).
Proof.
  apply (too_few_known_nodes_end_the_call lonely_world "mainnet"
           [node_at "a"; node_at "b"] []).
  unfold default_sample_size. cbn. lia.
Defined.

(** Three known nodes and a teacher. *)
Lemma at_most_six_requests_witness :
  exists more,
    snd (determine_external_ip_address friendly_world "mainnet"
           (Some [node_at "a"; node_at "b"; node_at "c"]) [])
    = more
    /\ (List.length more <= 6)%nat.
Proof.
  destruct (at_most_six_requests friendly_world "mainnet"
              (Some [node_at "a"; node_at "b"; node_at "c"]) []
              ltac:(unfold default_sample_size; cbn; lia))
    as (more & Htrace & Hbound & _).
  exists more. split; [exact Htrace | exact Hbound].
Defined.

End CascadeWitnesses.

(** ** Enactment *)

Section Enact.
Import Concurrency Policies Enactment Terms MoreTerms.
Context {umbral : Umbral} {maya : Maya} {crypto : CryptoUtils}
        {maps : MapCollaborators}.

Lemma bind_inv {S A B} (c : Eff S A) (k : A -> Eff S B) s r s2 :
  bind c k s = (r, s2) ->
  (exists a s1, c s = (Return a, s1) /\ k a s1 = (r, s2))
  \/ (exists e, c s = (Raise e, s2) /\ r = Raise e).
Proof.
  unfold bind. destruct (c s) as [[a | e] s1].
  - intros H. left. now exists a, s1.
  - intros [= <- <-]. right. now exists e.
Qed.

Lemma lift_inv {S A} (x : Outcome A) (s : S) r s1 :
  lift x s = (r, s1) -> r = x /\ s1 = s.
Proof. unfold lift. now intros [= <- <-]. Qed.

(** The first step: the learning loop is started when it is not
    running. *)
Lemma learning_step (run : EnactRun) s r s1 :
  (if negb (learning_task_running run)
   then act StartLearningLoop ;;; lift (start_learning_loop run)
   else ret tt) s = (r, s1) ->
  s1 = mkEffects (log s) (actions s ++ learning_actions run)
  /\ r = (if learning_task_running run then Return tt
          else start_learning_loop run).
Proof.
  unfold learning_actions.
  destruct (learning_task_running run); cbn [negb].
  - intros [= <- <-]. rewrite app_nil_r. now destruct s.
  - unfold bind, act, lift. intros H.
    destruct (start_learning_loop run) as [[]|e];
      injection H as <- <-; auto.
Qed.

Lemma logged_inv {A} (c : Logged A) s r s1 :
  logged c s = (r, s1) ->
  c (log s) = (r, log s1) /\ actions s1 = actions s.
Proof.
  unfold logged. destruct (c (log s)) as [r' l]. now intros [= <- <-].
Qed.

Lemma ledger_step run self arrangements s r s1 :
  _enact_arrangements run self arrangements s = (r, s1) ->
  s1 = mkEffects (log s) (actions s ++ ledger_actions self arrangements).
Proof.
  unfold _enact_arrangements, ledger_actions.
  destruct self as [p | bp].
  - intros [= <- <-]. rewrite app_nil_r. now destruct s.
  - unfold _publish_to_blockchain, bind, act, lift, ret.
    destruct (create_policy run _ _ _ _) as [receipt | e].
    + destruct (transaction_hash run receipt); now intros [= <- <-].
    + now intros [= <- <-].
Qed.

Lemma encrypt_step run self treasure_map s r s1 :
  _encrypt_treasure_map run self treasure_map s = (r, s1) -> s1 = s.
Proof.
  unfold _encrypt_treasure_map. destruct self.
  - intros H. now apply lift_inv in H.
  - unfold bind, lift. destruct (power_ups run); now intros [= <- <-].
Qed.

Lemma make_publisher_step run self enc network_middleware s r s1 :
  _make_publisher run self enc network_middleware s = (r, s1) ->
  s1 = s
  /\ forall made, r = Return made ->
       exists target_nodes,
         matching_nodes_among run (known_nodes (publisher (as_policy self)))
         = Return target_nodes
         /\ TreasureMapPublisher_init (EncryptedTreasureMap_bytes enc)
              target_nodes network_middleware
              default_percent_to_complete_before_release
              default_threadpool_size default_timeout
            = Return made.
Proof.
  unfold _make_publisher, bind, lift.
  destruct (block_until_eight_known run) as [[]|e].
  2: { intros [= <- <-]. split; [reflexivity | discriminate]. }
  destruct (matching_nodes_among run _) as [targets|e].
  2: { intros [= <- <-]. split; [reflexivity | discriminate]. }
  intros [= <- <-]. split; [reflexivity|].
  intros made Hmade. now exists targets.
Qed.

Lemma publish_step run (enacted : EnactedPolicy) (publish : bool) s :
  (if publish then publish_treasure_map run enacted else ret tt) s
  = (Return tt,
     mkEffects (log s ++ (if publish then [starting_line] else []))
               (actions s ++ publishing_actions run publish)).
Proof.
  unfold publishing_actions. destruct publish.
  - unfold publish_treasure_map, TreasureMapPublisher_start, bind, logged,
      emit, act. cbn [log actions].
    destruct (reactor_running run); cbn [log actions ret];
      rewrite <- ?app_assoc; reflexivity.
  - cbn. rewrite !app_nil_r. now destruct s.
Qed.

(** X20. When [enact] returns, [_make_arrangements] returned at least
    [n] arrangements and the treasure map was built over exactly their
    nodes; the actions happened in this order: the learning loop if it
    was not running, the ledger transaction of a blockchain policy over
    those nodes, then the start of the publisher if [publish] is set;
    and the log is that of [_make_arrangements] followed by the
    publisher's entry. *)
Theorem enactment_succeeds_in_order run self network_middleware publish s
    enacted s' :
  enact run self network_middleware publish s = (Return enacted, s') ->
  exists arrangements treasure_map log1,
    _make_arrangements self (proposals run) (log s)
      = (Return arrangements, log1)
    /\ policy_n (as_policy self) <= dict_len arrangements
    /\ construct_by_publisher run (publisher (as_policy self))
         (bob (as_policy self)) (label (as_policy self))
         (dict_keys arrangements) (kfrags (as_policy self))
         (policy_m (as_policy self)) = Return treasure_map
    /\ actions s'
       = actions s ++ learning_actions run
         ++ ledger_actions self arrangements
         ++ publishing_actions run publish
    /\ log s' = log1 ++ (if publish then [starting_line] else []).
Proof.
  intros H. unfold enact in H.
  apply bind_inv in H. destruct H as [(u0 & s1 & H1 & H) | (e & _ & [=])].
  apply learning_step in H1. destruct H1 as [-> _].
  apply bind_inv in H. destruct H as [(arr & s2 & H2 & H) | (e & _ & [=])].
  apply logged_inv in H2. cbn [log actions] in H2. destruct H2 as [Harr Hact2].
  apply bind_inv in H. destruct H as [(u3 & s3 & H3 & H) | (e & _ & [=])].
  apply ledger_step in H3. subst s3.
  apply bind_inv in H. destruct H as [(tm & s4 & H4 & H) | (e & _ & [=])].
  apply lift_inv in H4. destruct H4 as [Htm ->].
  apply bind_inv in H. destruct H as [(enc & s5 & H5 & H) | (e & _ & [=])].
  apply encrypt_step in H5. subst s5.
  apply bind_inv in H. destruct H as [(pub & s6 & H6 & H) | (e & _ & [=])].
  apply make_publisher_step in H6. destruct H6 as [-> _].
  apply bind_inv in H. destruct H as [(kit & s7 & H7 & H) | (e & _ & [=])].
  apply lift_inv in H7. destruct H7 as [_ ->].
  apply bind_inv in H. destruct H as [(u8 & s8 & H8 & H) | (e & _ & [=])].
  rewrite publish_step in H8. injection H8 as _ <-.
  injection H as _ <-. cbn [log actions].
  exists arr, tm, (log s2). repeat split.
  - exact Harr.
  - unfold _make_arrangements in Harr.
    repeat (apply bind_inv in Harr;
            destruct Harr as [(? & ? & _ & Harr) | (? & _ & [=])]).
    destruct (dict_len _ <? policy_n (as_policy self)) eqn:E.
    + apply bind_inv in Harr.
      destruct Harr as [(? & ? & _ & [=]) | (? & _ & [=])].
    + apply bind_inv in Harr.
      destruct Harr as [(? & ? & _ & Harr) | (? & _ & [=])].
      injection Harr as <- _. apply Z.ltb_ge in E. exact E.
  - symmetry. exact Htm.
  - rewrite Hact2. now rewrite <- !app_assoc.
Qed.

(** X21. The policy [enact] returns has the id, the hrac, the label
    and the public key of the policy and the publisher's verifying key;
    its [m] is the treasure map's, its revocation kit is built from
    that treasure map, and its [n] is the size of the kit. *)
Theorem enacted_policy_carries_the_policy run self network_middleware publish
    s enacted s' :
  enact run self network_middleware publish s = (Return enacted, s') ->
  let policy := as_policy self in
  enacted_id enacted = _id policy
  /\ enacted_hrac enacted = hrac policy
  /\ enacted_label enacted = label policy
  /\ enacted_public_key enacted = public_key policy
  /\ enacted_publisher_verifying_key enacted
     = as_umbral_pubkey (alice_stamp (publisher policy))
  /\ enacted_n enacted = RevocationKit_len (revocation_kit enacted)
  /\ exists (arrangements : dict Ursula Arrangement) treasure_map,
       fst (_make_arrangements self (proposals run) (log s))
         = Return arrangements
       /\ construct_by_publisher run (publisher policy) (bob policy)
         (label policy) (dict_keys arrangements) (kfrags policy)
         (policy_m policy) = Return treasure_map
       /\ enacted_m enacted = treasure_map_m treasure_map
       /\ make_revocation_kit run treasure_map (alice_stamp (publisher policy))
          = Return (revocation_kit enacted).
Proof.
  intros H policy. unfold enact in H. fold policy in H.
  apply bind_inv in H. destruct H as [(u0 & s1 & H1 & H) | (e & _ & [=])].
  apply learning_step in H1. destruct H1 as [-> _].
  apply bind_inv in H. destruct H as [(arr & s2 & H2 & H) | (e & _ & [=])].
  apply logged_inv in H2. cbn [log actions] in H2. destruct H2 as [Harr _].
  apply bind_inv in H. destruct H as [(u3 & s3 & _ & H) | (e & _ & [=])].
  apply bind_inv in H. destruct H as [(tm & s4 & H4 & H) | (e & _ & [=])].
  apply lift_inv in H4. destruct H4 as [Htm _].
  apply bind_inv in H. destruct H as [(enc & s5 & _ & H) | (e & _ & [=])].
  apply bind_inv in H. destruct H as [(pub & s6 & _ & H) | (e & _ & [=])].
  apply bind_inv in H. destruct H as [(kit & s7 & H7 & H) | (e & _ & [=])].
  apply lift_inv in H7. destruct H7 as [Hkit _].
  apply bind_inv in H. destruct H as [(u8 & s8 & _ & H) | (e & _ & [=])].
  injection H as <- _.
  cbn [EnactedPolicy_init enacted_id enacted_hrac enacted_label
       enacted_public_key enacted_publisher_verifying_key enacted_n
       enacted_m revocation_kit].
  repeat split. exists arr, tm. rewrite Harr. auto.
Qed.

(** X22. When [_make_arrangements] raises, [enact] raises the same
    exception having at most started the learning loop: no ledger
    transaction is made and no publisher started. *)
Theorem failed_proposals_touch_nothing run self network_middleware publish
    s e log1 :
  learning_task_running run = true \/ start_learning_loop run = Return tt ->
  _make_arrangements self (proposals run) (log s) = (Raise e, log1) ->
  enact run self network_middleware publish s
  = (Raise e, mkEffects log1 (actions s ++ learning_actions run)).
Proof.
  intros Hlearning Harr. unfold enact.
  unfold bind at 1.
  destruct ((if negb (learning_task_running run)
             then act StartLearningLoop;;; lift (start_learning_loop run)
             else ret tt) s) as [r s1] eqn:H1.
  apply learning_step in H1. destruct H1 as [-> ->].
  assert (Hok : (if learning_task_running run then Return tt
                 else start_learning_loop run) = Return tt).
  { destruct Hlearning as [-> | ->]; [reflexivity|].
    now destruct (learning_task_running run). }
  rewrite Hok. unfold bind at 1, logged. cbn [log actions].
  rewrite Harr. reflexivity.
Qed.

(** X23. However [enact] ends, it only adds actions; the publisher
    is started only when [publish] is set and [enact] returns, and a
    ledger transaction is made only for a blockchain policy. *)
Theorem publication_starts_last run self network_middleware publish s r s' :
  enact run self network_middleware publish s = (r, s') ->
  exists more,
    actions s' = actions s ++ more
    /\ (existsb is_publishing_action more = true ->
        publish = true /\ exists enacted, r = Return enacted)
    /\ (existsb is_ledger_action more = true ->
        exists bp, self = Blockchain bp).
Proof.
  intros H.
  assert (Hquiet : forall arr,
             existsb is_publishing_action
               (learning_actions run ++ ledger_actions self arr) = false).
  { intros arr. unfold learning_actions, ledger_actions.
    destruct (learning_task_running run), self; reflexivity. }
  assert (Hquiet0 : existsb is_publishing_action (learning_actions run) = false).
  { unfold learning_actions. now destruct (learning_task_running run). }
  assert (Hnoledger : existsb is_ledger_action (learning_actions run) = false).
  { unfold learning_actions. now destruct (learning_task_running run). }
  assert (Hledger : forall arr tail,
             existsb is_ledger_action tail = false ->
             existsb is_ledger_action
               (learning_actions run ++ ledger_actions self arr ++ tail) = true ->
             exists bp, self = Blockchain bp).
  { intros arr tail Htail. rewrite !existsb_app, Hnoledger, Htail.
    destruct self as [p | bp]; [discriminate | intros _; now exists bp]. }
  unfold enact in H.
  apply bind_inv in H. destruct H as [(u0 & s1 & H1 & H) | (e & H1 & ->)].
  2: { apply learning_step in H1. destruct H1 as [-> _].
       exists (learning_actions run). split; [reflexivity|].
       rewrite Hquiet0, Hnoledger. split; discriminate. }
  apply learning_step in H1. destruct H1 as [-> _].
  apply bind_inv in H. destruct H as [(arr & s2 & H2 & H) | (e & H2 & ->)].
  2: { apply logged_inv in H2. destruct H2 as [_ ->]. cbn [actions].
       exists (learning_actions run). split; [reflexivity|].
       rewrite Hquiet0, Hnoledger. split; discriminate. }
  apply logged_inv in H2. cbn [log actions] in H2. destruct H2 as [_ Hact2].
  assert (Hhere : forall (r0 : Outcome EnactedPolicy) e,
             r0 = Raise e ->
             exists more,
               actions s2 ++ ledger_actions self arr = actions s ++ more
               /\ (existsb is_publishing_action more = true ->
                   publish = true /\ exists enacted, r0 = Return enacted)
               /\ (existsb is_ledger_action more = true ->
                   exists bp, self = Blockchain bp)).
  { intros r0 e ->. exists (learning_actions run ++ ledger_actions self arr).
    rewrite Hact2, <- app_assoc. split; [reflexivity|].
    rewrite Hquiet. split; [discriminate|].
    intros Hl. apply (Hledger arr []); [reflexivity|].
    now rewrite app_nil_r. }
  apply bind_inv in H. destruct H as [(u3 & s3 & H3 & H) | (e & H3 & ->)].
  2: { apply ledger_step in H3. subst s'. cbn [actions]. now apply (Hhere _ e). }
  apply ledger_step in H3. subst s3.
  apply bind_inv in H. destruct H as [(tm & s4 & H4 & H) | (e & H4 & ->)].
  2: { apply lift_inv in H4. destruct H4 as [_ ->]. cbn [actions].
       now apply (Hhere _ e). }
  apply lift_inv in H4. destruct H4 as [_ ->].
  apply bind_inv in H. destruct H as [(enc & s5 & H5 & H) | (e & H5 & ->)].
  2: { apply encrypt_step in H5. subst s'. cbn [actions].
       now apply (Hhere _ e). }
  apply encrypt_step in H5. subst s5.
  apply bind_inv in H. destruct H as [(pub & s6 & H6 & H) | (e & H6 & ->)].
  2: { apply make_publisher_step in H6. destruct H6 as [-> _]. cbn [actions].
       now apply (Hhere _ e). }
  apply make_publisher_step in H6. destruct H6 as [-> _].
  apply bind_inv in H. destruct H as [(kit & s7 & H7 & H) | (e & H7 & ->)].
  2: { apply lift_inv in H7. destruct H7 as [_ ->]. cbn [actions].
       now apply (Hhere _ e). }
  apply lift_inv in H7. destruct H7 as [_ ->].
  apply bind_inv in H. destruct H as [(u8 & s8 & H8 & H) | (e & H8 & ->)].
  2: { rewrite publish_step in H8. discriminate. }
  rewrite publish_step in H8. injection H8 as _ <-.
  injection H as <- <-. cbn [actions].
  exists (learning_actions run ++ ledger_actions self arr
          ++ publishing_actions run publish).
  rewrite Hact2, <- !app_assoc. split; [reflexivity|]. split.
  - intros Hp. split; [|eexists; reflexivity].
    rewrite app_assoc, existsb_app, Hquiet in Hp. cbn [orb] in Hp.
    unfold publishing_actions in Hp. destruct publish; [reflexivity|].
    discriminate.
  - apply Hledger. unfold publishing_actions.
    destruct publish, (reactor_running run); reflexivity.
Qed.

(** X24. The publisher [_make_publisher] builds targets the nodes
    that match Bob and waits for five percent of them, rounded up; the
    state is left unchanged. *)
Theorem default_publication_quorum run self enc network_middleware s made s1 :
  _make_publisher run self enc network_middleware s = (Return made, s1) ->
  s1 = s
  /\ exists target_nodes,
       matching_nodes_among run (known_nodes (publisher (as_policy self)))
       = Return target_nodes
       /\ let total := Z.of_nat (List.length target_nodes) in
          let quorum := target_successes (_worker_pool made) in
          _total made = total
          /\ (total < 2 ^ 46 -> 20 * (quorum - 1) < total <= 20 * quorum).
Proof.
  intros H. apply make_publisher_step in H. destruct H as [-> H].
  split; [reflexivity|].
  destruct (H made eq_refl) as (targets & Hmatch & Hinit).
  exists targets. split; [exact Hmatch|]. intros total quorum.
  unfold TreasureMapPublisher_init in Hinit. fold total in Hinit.
  destruct (PyFloat.int_true_divide _ 100) as [x|] eqn:Hdiv; [|discriminate].
  cbn [obind] in Hinit. injection Hinit as <-.
  split; [reflexivity|]. intros Hbound.
  unfold quorum. cbn [_worker_pool WorkerPool_init target_successes].
  assert (Hrange : 0 <= total * default_percent_to_complete_before_release
                   < 2 ^ 53).
  { unfold default_percent_to_complete_before_release.
    assert (0 <= total) by (unfold total; lia).
    change (2 ^ 53) with (128 * 2 ^ 46). lia. }
  destruct (divide_by_100_then_ceil _ Hrange) as (x' & Hdiv' & Hceil).
  rewrite Hdiv in Hdiv'. injection Hdiv' as <-.
  unfold default_percent_to_complete_before_release in Hceil. lia.
Qed.

(** X25. The enactment payload of a blockchain policy is the first
    [POLICY_ID_LENGTH] bytes of the hrac followed by the payload of the
    federated policy, which is the bytes of the key fragment. *)
Theorem paid_payload_wraps_the_open_payload (bp : BlockchainPolicy)
    (kfrag : VerifiedKeyFrag) :
  let paid := _make_enactment_payload (Blockchain bp) kfrag in
  let open := _make_enactment_payload (Federated (bp_policy bp)) kfrag in
  let id_length :=
    Nat.min POLICY_ID_LENGTH (List.length (hrac (bp_policy bp))) in
  open = VerifiedKeyFrag_bytes kfrag
  /\ List.length paid = (id_length + List.length open)%nat
  /\ firstn id_length paid = firstn POLICY_ID_LENGTH (hrac (bp_policy bp))
  /\ skipn id_length paid = open.
Proof.
  intros paid open id_length. unfold paid, open, _make_enactment_payload.
  set (prefix := firstn POLICY_ID_LENGTH (hrac (bp_policy bp))).
  assert (Hlen : List.length prefix = id_length) by apply length_firstn.
  rewrite <- Hlen. split; [reflexivity|]. split; [apply length_app|].
  split; [apply firstn_length_app | apply skipn_length_app].
Qed.

End Enact.

Section EnactWitnesses.
Import Concurrency Policies Enactment Terms MoreTerms Fixtures
       EnactmentFixtures.
Local Open Scope string_scope.

(** A blockchain policy of two shares, both accepted, published. *)
Lemma enactment_succeeds_in_order_witness :
  actions (snd (enact (smooth_run two_acceptances) (Blockchain paid_policy)
                  (answering ok created) true fresh))
  = [StartLearningLoop;
     CreatePolicy (hrac two_share_policy) 30 1622505600 ["0xA1"; "0xA2"];
     StartPool; CallInThread].
Proof.
  destruct (enact (smooth_run two_acceptances) (Blockchain paid_policy)
              (answering ok created) true fresh)
    as [[enacted | e] s'] eqn:H; [|vm_compute in H; discriminate].
  destruct (enactment_succeeds_in_order _ _ _ _ _ _ _ H)
    as (arrangements & treasure_map & log1 & Harr & _ & _ & Hactions & _).
  cbn [snd]. rewrite Hactions.
  vm_compute in Harr. injection Harr as <- _. reflexivity.
Defined.

(** The same enactment: the enacted policy has the label of the
    policy and as many shares as nodes accepted. *)
Lemma enacted_policy_carries_the_policy_witness :
  exists enacted,
    fst (enact (smooth_run two_acceptances) (Blockchain paid_policy)
           (answering ok created) true fresh) = Return enacted
    /\ enacted_label enacted = [x61]
    /\ enacted_n enacted = 2.
Proof.
  destruct (enact (smooth_run two_acceptances) (Blockchain paid_policy)
              (answering ok created) true fresh)
    as [[enacted | e] s'] eqn:H; [|vm_compute in H; discriminate].
  destruct (enacted_policy_carries_the_policy _ _ _ _ _ _ _ H)
    as (_ & _ & Hlabel & _ & _ & Hn & _).
  exists enacted. split; [reflexivity|]. split; [exact Hlabel|].
  rewrite Hn. vm_compute in H. injection H as <- _. reflexivity.
Defined.

(** The reservoir cannot be built: only the learning loop was
    started. *)
Lemma failed_proposals_touch_nothing_witness :
  enact (smooth_run no_reservoir) (Blockchain paid_policy)
    (answering ok created) true fresh
  = (Raise (mkExc (Foreign "NotEnoughStakers") []),
     mkEffects [] [StartLearningLoop]).
Proof.
  apply (failed_proposals_touch_nothing (smooth_run no_reservoir)
           (Blockchain paid_policy) (answering ok created) true fresh
           (mkExc (Foreign "NotEnoughStakers") []) []
           (or_intror eq_refl) eq_refl).
Defined.

(** A federated policy, not published: the publisher is not
    started. *)
Lemma publication_starts_last_witness :
  exists more,
    actions (snd (enact (smooth_run two_acceptances)
                    (Federated two_share_policy) (answering ok created)
                    false fresh))
    = more
    /\ existsb is_publishing_action more = false.
Proof.
  destruct (publication_starts_last (smooth_run two_acceptances)
              (Federated two_share_policy) (answering ok created) false
              fresh _ _ (surjective_pairing _))
    as (more & Hactions & Hpublishing & _).
  exists more. split; [exact Hactions|].
  destruct (existsb is_publishing_action more); [|reflexivity].
  destruct (Hpublishing eq_refl) as [Hpublish _]. discriminate.
Defined.

(** Three matching nodes: a quorum of one. *)
Lemma default_publication_quorum_witness :
  exists made,
    fst (_make_publisher (smooth_run two_acceptances)
           (Federated two_share_policy) ([x2a] : bytes)
           (answering ok created) fresh) = Return made
    /\ _total made = 3
    /\ target_successes (_worker_pool made) = 1.
Proof.
  destruct (_make_publisher (smooth_run two_acceptances)
              (Federated two_share_policy) ([x2a] : bytes)
              (answering ok created) fresh)
    as [[made | e] s1] eqn:H; [|vm_compute in H; discriminate].
  destruct (default_publication_quorum _ _ _ _ _ _ _ H)
    as (_ & targets & Hmatch & Htotal & Hquorum).
  injection Hmatch as <-.
  exists made. split; [reflexivity|]. split; [exact Htotal|].
  cbn [List.length map snd] in Hquorum.
  specialize (Hquorum ltac:(lia)). lia.
Defined.

End EnactWitnesses.
